(** * LobsterFoundry agent controller: session core

    A shallow embedding of [skills/lobsterfoundry-pax/scripts/lobster_agent.py]
    (class [LobsterFoundryAgent]) and the properties of its connection and
    session logic.

    Layout:
    - [Py]: the Python values and primitive operations the code relies on
      (JSON values as produced by [json.loads], [dict.get], [in], item
      access and assignment, truthiness), with the exceptions they raise;
    - [agent]: the fields of a [LobsterFoundryAgent] object;
    - [_handle_ws_message] and [on_message]: the inbound frame handler;
    - [world]: the agent together with its environment (the WebSocketApp
      objects, the background threads, the REST server, the credential
      file) and the log of externally visible effects;
    - the operations of the class, in the order of the source file;
    - the vocabulary of the statements and the example data;
    - the theorems: the frame handler, the background events, the live
      channel, the bootstrap.

    The websocket-client library, the network and the REST server are not
    part of the repository: the library objects are modelled by the two
    attributes the agent relies on, and what the network and the server do
    is left open (a schedule of background events, a transport function).

    [print] calls write to standard output only; they are not part of the
    state and are left out, except that the expressions they format are
    still evaluated (they can raise). *)

From Stdlib Require Import ZArith String List Bool Lia.
From Stdlib Require Import Floats.SpecFloat.
From stdpp Require Import gmap strings list fin_maps pretty.

#[local] Set Warnings "-register-all".
#[local] Open Scope string_scope.

(* ===================================================================== *)
(** ** Python values and primitives *)
(* ===================================================================== *)

Module Py.

(** What [json.loads] returns: [None], [bool], [int] (unbounded), [float],
    [str], [list], [dict] with string keys.  A Python [dict] compares by
    content, which is the equality of [gmap]. *)
Inductive json : Type :=
  | JNull
  | JBool (b : bool)
  | JInt (n : Z)
  | JFloat (f : spec_float)
  | JStr (s : string)
  | JArr (l : list json)
  | JObj (o : gmap string json).

(** The exceptions that occur in the modelled code. *)
Inductive exn : Type :=
  | AttributeError
  | TypeError
  | KeyError
  | JSONDecodeError
  | OSError
  | WebSocketConnectionClosedException
  | TransportFailure.

(** A call either returns a value or raises. *)
Inductive outcome (A : Type) : Type :=
  | Ret (v : A)
  | Raise (e : exn).
Arguments Ret {A} v.
Arguments Raise {A} e.

Definition is_ret {A} (r : outcome A) : bool :=
  match r with Ret _ => true | Raise _ => false end.

(** Truth value of an object in a condition ([if v:], [not v]). *)
Definition truthy (v : json) : bool :=
  match v with
  | JNull => false
  | JBool b => b
  | JInt n => negb (n =? 0)%Z
  | JFloat f => match f with S754_zero _ => false | _ => true end
  | JStr s => negb (String.eqb s "")
  | JArr l => match l with [] => false | _ => true end
  | JObj o => negb (bool_decide (o = ∅))
  end.

(** [v == 'literal'] for a string literal. *)
Definition eq_str (v : json) (lit : string) : bool :=
  match v with
  | JStr s => String.eqb s lit
  | _ => false
  end.

(** [v == 0]: equal to the integer zero ([False], [0], [0.0], [-0.0]). *)
Definition eq_zero (v : json) : bool :=
  match v with
  | JBool b => negb b
  | JInt n => (n =? 0)%Z
  | JFloat (S754_zero _) => true
  | _ => false
  end.

(** [d.get(k, dflt)]: only a [dict] has the method. *)
Definition get (d : json) (k : string) (dflt : json) : outcome json :=
  match d with
  | JObj o => Ret (default dflt (o !! k))
  | _ => Raise AttributeError
  end.

(** [s in t] for two strings: [s] occurs in [t]. *)
Fixpoint occurs (s t : string) : bool :=
  String.prefix s t ||
  match t with
  | EmptyString => false
  | String _ t' => occurs s t'
  end.

(** [k in c] for a string literal [k]: key of a [dict], element of a
    [list], substring of a [str]; the other types are not containers. *)
Definition contains (k : string) (c : json) : outcome bool :=
  match c with
  | JObj o => Ret (bool_decide (is_Some (o !! k)))
  | JArr l => Ret (existsb (fun v => eq_str v k) l)
  | JStr t => Ret (occurs k t)
  | _ => Raise TypeError
  end.

(** [c[k]] for a string literal [k]. *)
Definition getitem (c : json) (k : string) : outcome json :=
  match c with
  | JObj o => match o !! k with Some v => Ret v | None => Raise KeyError end
  | _ => Raise TypeError
  end.

(** [c[k] = v] for a string literal [k]; returns the updated object. *)
Definition setitem (c : json) (k : string) (v : json) : outcome json :=
  match c with
  | JObj o => Ret (JObj (<[k := v]> o))
  | _ => Raise TypeError
  end.

(** *** Computations with state and exceptions

    A method body reads and writes the state [S] and may raise; what was
    written before the exception stays written. *)
Definition py (S A : Type) : Type := S → outcome A * S.

Definition ret {S A} (v : A) : py S A := fun s => (Ret v, s).
Definition raise {S A} (e : exn) : py S A := fun s => (Raise e, s).
Definition bind {S A B} (c : py S A) (k : A → py S B) : py S B :=
  fun s => match c s with
           | (Ret v, s') => k v s'
           | (Raise e, s') => (Raise e, s')
           end.
Definition lift {S A} (r : outcome A) : py S A := fun s => (r, s).
Definition read {S A} (f : S → A) : py S A := fun s => (Ret (f s), s).
Definition modify {S} (f : S → S) : py S unit := fun s => (Ret tt, f s).

(** [try: c except Exception: pass] *)
Definition swallow {S A} (c : py S A) : py S unit :=
  fun s => (Ret tt, snd (c s)).

End Py.
Import Py.

Declare Scope py_scope.
Delimit Scope py_scope with py.
Notation "'let!' x ':=' c 'in' k" := (bind c (fun x => k))
  (at level 10, x pattern, c at level 100, k at level 200) : py_scope.
Notation "c '>>' k" := (bind c (fun _ => k))
  (at level 100, k at level 200, right associativity) : py_scope.
#[local] Open Scope py_scope.

(* ===================================================================== *)
(** ** The agent object *)
(* ===================================================================== *)

(** The attributes set by [LobsterFoundryAgent.__init__].  [ws] and
    [_ws_thread] hold references (indices into the world's tables of
    WebSocketApp objects and threads), [None] before the first
    connection.  [ws_url] is computed once from [server] and only passed to
    the WebSocketApp constructor; it is not kept here. *)
Record agent : Type := Agent {
  server : string;
  credentials : json;
  ws : option nat;
  connected : bool;
  avatar : json;
  wallet : json;
  license : json;
  world_state : json;
  _ws_thread : option nat;
  _running : bool
}.

Definition set_credentials (v : json) (a : agent) : agent :=
  Agent (server a) v (ws a) (connected a) (avatar a) (wallet a) (license a)
        (world_state a) (_ws_thread a) (_running a).
Definition set_ws (v : option nat) (a : agent) : agent :=
  Agent (server a) (credentials a) v (connected a) (avatar a) (wallet a)
        (license a) (world_state a) (_ws_thread a) (_running a).
Definition set_connected (v : bool) (a : agent) : agent :=
  Agent (server a) (credentials a) (ws a) v (avatar a) (wallet a) (license a)
        (world_state a) (_ws_thread a) (_running a).
Definition set_avatar (v : json) (a : agent) : agent :=
  Agent (server a) (credentials a) (ws a) (connected a) v (wallet a)
        (license a) (world_state a) (_ws_thread a) (_running a).
Definition set_wallet (v : json) (a : agent) : agent :=
  Agent (server a) (credentials a) (ws a) (connected a) (avatar a) v
        (license a) (world_state a) (_ws_thread a) (_running a).
Definition set_license (v : json) (a : agent) : agent :=
  Agent (server a) (credentials a) (ws a) (connected a) (avatar a) (wallet a)
        v (world_state a) (_ws_thread a) (_running a).
Definition set_world_state (v : json) (a : agent) : agent :=
  Agent (server a) (credentials a) (ws a) (connected a) (avatar a) (wallet a)
        (license a) v (_ws_thread a) (_running a).
Definition set_ws_thread (v : option nat) (a : agent) : agent :=
  Agent (server a) (credentials a) (ws a) (connected a) (avatar a) (wallet a)
        (license a) (world_state a) v (_running a).
Definition set_running (v : bool) (a : agent) : agent :=
  Agent (server a) (credentials a) (ws a) (connected a) (avatar a) (wallet a)
        (license a) (world_state a) (_ws_thread a) v.

(** [LobsterFoundryAgent.__init__] *)
Definition init (srv : string) : agent :=
  {| server := srv; credentials := JNull; ws := None; connected := false;
     avatar := JNull; wallet := JNull; license := JNull;
     world_state := JNull; _ws_thread := None; _running := false |}.

(* ===================================================================== *)
(** ** The inbound frame handler *)
(* ===================================================================== *)

(** [self.avatar[k] = action_data[k]], guarded by [k in action_data]. *)
Definition merge_field (k : string) (action_data : json) : py agent unit :=
  let! present := lift (contains k action_data) in
  if (present : bool) then
    let! v := lift (getitem action_data k) in
    let! av := read avatar in
    let! av' := lift (setitem av k v) in
    modify (set_avatar av')
  else ret tt.

(** [LobsterFoundryAgent._handle_ws_message] *)
Definition _handle_ws_message (data : json) : py agent unit :=
  let! msg_type := lift (get data "type" JNull) in
  if eq_str msg_type "AUTH_SUCCESS" then
    modify (set_connected true) >>
    (let! v := lift (get data "avatar" JNull) in modify (set_avatar v)) >>
    (let! v := lift (get data "wallet" JNull) in modify (set_wallet v)) >>
    (let! v := lift (get data "license" JNull) in modify (set_license v)) >>
    (* the arguments of the print *)
    let! av := read avatar in
    lift (get av "name" JNull) >>
    lift (get av "x" JNull) >>
    lift (get av "y" JNull) >>
    ret tt
  else if eq_str msg_type "AUTH_FAILED" then
    lift (get data "error" JNull) >>
    ret tt
  else if eq_str msg_type "ACTION_RESULT" then
    let! success := lift (get data "success" JNull) in
    let! action_data := lift (get data "data" (JObj ∅)) in
    if truthy success then
      merge_field "x" action_data >>
      merge_field "y" action_data >>
      merge_field "state" action_data
    else ret tt
  else if eq_str msg_type "WORLD_STATE" then
    let! v := lift (get data "state" JNull) in
    modify (set_world_state v)
  else if eq_str msg_type "AVATAR_UPDATE" then
    ret tt
  else if eq_str msg_type "LEDGER_EVENT" then
    let! event := lift (get data "event" (JObj ∅)) in
    lift (get event "type" JNull) >>
    lift (get event "id" JNull) >>
    ret tt
  else ret tt.

(** The [on_message] callback of [connect_websocket].  The text received
    is given as [Some data] when [json.loads] decodes it to [data] and as
    [None] when it raises [JSONDecodeError], the one exception the callback
    catches. *)
Definition on_message (message : option json) : py agent unit :=
  match message with
  | Some data => _handle_ws_message data
  | None => ret tt
  end.

(** The [on_close] callback. *)
Definition on_close : py agent unit := modify (set_connected false).

(** The frame kinds with a branch in the handler. *)
Definition recognized_kinds : list string :=
  ["AUTH_SUCCESS"; "AUTH_FAILED"; "ACTION_RESULT"; "WORLD_STATE";
   "AVATAR_UPDATE"; "LEDGER_EVENT"].

(** The fields an [ACTION_RESULT] can write. *)
Definition merged_fields : list string := ["x"; "y"; "state"].

(** [data.get(k)] on a frame that is an object. *)
Definition field (o : gmap string json) (k : string) : json :=
  default JNull (o !! k).

(** [data.get('data', {})] on a frame that is an object. *)
Definition action_payload (o : gmap string json) : json :=
  default (JObj ∅) (o !! "data").

(** The result of merging the payload [p] into the avatar [av], written as
    the specification words it: the fields [x], [y], [state] are taken from
    the payload when it has them, everything else from the avatar. *)
Definition partial_merge (p av : gmap string json) : gmap string json :=
  foldl (fun m k => match p !! k with Some v => <[k := v]> m | None => m end)
        av merged_fields.

(* ===================================================================== *)
(** ** The agent in its environment *)
(* ===================================================================== *)

(** A [websocket.WebSocketApp] object.  The class belongs to the
    websocket-client package, which is not part of this repository; of its
    state the agent's code depends on two attributes: [sock], whether a
    connected socket is attached, and [keep_running]. *)
Record ws_app : Type := WsApp {
  sock : bool;
  keep_running : bool
}.

(** Where a thread running [_ws_run] stands. *)
Inductive thread_state : Type :=
  | AtLoopTest               (* about to evaluate [while self._running] *)
  | InRunForever (h : nat)   (* inside [run_forever] of the object [h] *)
  | Sleeping                 (* in [time.sleep(1)] *)
  | Finished.                (* [_ws_run] has returned *)

(** A string built by an f-string: literal text and interpolated values. *)
Inductive piece : Type :=
  | L (s : string)
  | V (v : json).
Definition text : Type := list piece.

(** The body of a REST request as [api_request] sends it. *)
Record request : Type := Request {
  endpoint : string;
  method : string;
  bearer : option json;     (* the api_key put in the Authorization header *)
  body : option json
}.

(** What is visible from outside the process. *)
Inductive effect : Type :=
  | Sent (h : nat) (frame : json)   (* [ws.send] on the object [h] *)
  | Opening (h : nat)               (* a call of [run_forever] on [h] *)
  | Started (t : nat)               (* [Thread.start] *)
  | Requested (r : request).        (* a request to the REST server *)

(** The credentials file. *)
Inductive cred_file_state : Type :=
  | Absent
  | Undecodable
  | Holds (creds : json).

Record world : Type := World {
  self : agent;
  apps : list ws_app;            (* the WebSocketApp objects created so far *)
  threads : list thread_state;   (* the threads started so far *)
  log : list effect;             (* oldest first *)
  cred_file : cred_file_state
}.

Definition set_self (v : agent) (w : world) : world :=
  World v (apps w) (threads w) (log w) (cred_file w).
Definition set_apps (v : list ws_app) (w : world) : world :=
  World (self w) v (threads w) (log w) (cred_file w).
Definition set_threads (v : list thread_state) (w : world) : world :=
  World (self w) (apps w) v (log w) (cred_file w).
Definition set_cred_file (v : cred_file_state) (w : world) : world :=
  World (self w) (apps w) (threads w) (log w) v.
Definition emit (e : effect) (w : world) : world :=
  World (self w) (apps w) (threads w) (log w ++ [e]) (cred_file w).

(** Run a computation on the agent inside the world. *)
Definition on_self {A} (c : py agent A) : py world A :=
  fun w => let r := c (self w) in (fst r, set_self (snd r) w).

Definition update_self (f : agent → agent) : py world unit :=
  modify (fun w => set_self (f (self w)) w).

(** The frames sent on the live channel, oldest first. *)
Definition sent_frames (l : list effect) : list json :=
  omap (fun e => match e with Sent _ f => Some f | _ => None end) l.

(** The number of connection attempts. *)
Definition is_opening (e : effect) : bool :=
  match e with Opening _ => true | _ => false end.
Definition openings (l : list effect) : nat :=
  length (List.filter is_opening l).

(** *** The WebSocketApp methods the agent calls *)

(** [ws.send(data)]: raises when no socket is attached. *)
Definition ws_send (h : nat) (frame : json) : py world unit :=
  let! app := read (fun w => apps w !! h) in
  match app with
  | Some (WsApp true _) => modify (emit (Sent h frame))
  | _ => raise WebSocketConnectionClosedException
  end.

(** [ws.close()]: stops the loop and detaches the socket. *)
Definition ws_close (h : nat) : py world unit :=
  modify (fun w => set_apps (<[h := WsApp false false]> (apps w)) w).

(** [self.ws.m(...)]: [self.ws] is [None] before the first connection. *)
Definition with_ws {A} (m : nat → py world A) : py world A :=
  let! r := read (fun w => ws (self w)) in
  match r with
  | Some h => m h
  | None => raise AttributeError
  end.

(** *** The server side and the module constants *)

(** How a request ends, as [api_request] distinguishes it. *)
Inductive reply : Type :=
  | Body (j : json)              (* a response whose body decodes to [j] *)
  | ErrorBody (j : json)         (* HTTPError whose body decodes to [j] *)
  | ErrorStatus (code : Z)       (* HTTPError with an undecodable body *)
  | Unreachable (reason : string)  (* URLError, with [str(e.reason)] *)
  | Failure (e : exn).           (* anything else: propagates *)

(** How far [save_credentials] gets.  [mkdir] and [open] fail before the
    file is touched; [open(..., 'w')] truncates the file, so a failure
    while the text is written or flushed leaves an empty or partial file,
    which [json.load] cannot decode; [os.chmod] fails after the file has
    been written in full. *)
Inductive save_outcome : Type :=
  | SaveCompletes
  | SaveRefused         (* [mkdir] or [open] raises *)
  | SaveInterrupted     (* the write raises *)
  | SaveUnprotected.    (* [os.chmod] raises *)

Record environment : Type := Environment {
  HAS_WEBSOCKET : bool;             (* the import of [websocket] worked *)
  transport : list effect → request → reply;
                                    (* [urlopen], given what happened so far *)
  token_hex : string;               (* [secrets.token_hex(32)] *)
  now : json;                       (* [time.time()] *)
  saving : save_outcome             (* what the file system lets a save do *)
}.

(* ===================================================================== *)
(** ** Credentials and REST calls *)
(* ===================================================================== *)

Section Operations.

Variable env : environment.

(** [load_credentials] *)
Definition load_credentials : py world bool :=
  let! f := read cred_file in
  match f with
  | Absent => ret false
  | Undecodable => raise JSONDecodeError
  | Holds creds => update_self (set_credentials creds) >> ret true
  end.

(** [save_credentials] *)
Definition save_credentials (creds : json) : py world unit :=
  match saving env with
  | SaveRefused => raise OSError
  | SaveInterrupted => modify (set_cred_file Undecodable) >> raise OSError
  | SaveUnprotected => modify (set_cred_file (Holds creds)) >> raise OSError
  | SaveCompletes =>
      modify (set_cred_file (Holds creds)) >>
      update_self (set_credentials creds)
  end.

(** [api_request] *)
Definition api_request (endpoint method : string) (data : option json)
  : py world json :=
  let! creds := read (fun w => credentials (self w)) in
  let! auth :=
    (if truthy creds
     then let! key := lift (get creds "api_key" (JStr "")) in ret (Some key)
     else ret None) in
  let body := match data with
              | Some d => if truthy d then Some d else None
              | None => None
              end in
  let req := Request endpoint method auth body in
  let! history := read log in
  modify (emit (Requested req)) >>
  match transport env history req with
  | Body j => ret j
  | ErrorBody j => ret j
  | ErrorStatus code =>
      ret (JObj {[ "ok" := JBool false;
                   "message" := JStr ("HTTP " ++ pretty code) ]})
  | Unreachable reason =>
      ret (JObj {[ "ok" := JBool false;
                   "message" := JStr ("Connection error: " ++ reason) ]})
  | Failure e => raise e
  end.

(** [register] *)
Definition register (name : json) : py world (bool * json) :=
  let public_key := JStr (token_hex env) in
  let! result :=
    api_request "/api/world/bot/register" "POST"
      (Some (JObj {[ "agent_type" := JStr "openclaw";
                     "agent_version" := JStr "1.0.0";
                     "public_key" := public_key;
                     "requested_name" := name ]})) in
  let! ok := lift (get result "ok" JNull) in
  if truthy ok then
    let! api_key := lift (getitem result "api_key") in
    let! bot_id := lift (getitem result "bot_id") in
    let! signer_id := lift (getitem result "signer_id") in
    let! srv := read (fun w => server (self w)) in
    save_credentials
      (JObj {[ "api_key" := api_key; "bot_id" := bot_id;
               "signer_id" := signer_id; "name" := name;
               "server" := JStr srv; "registered_at" := now env ]}) >>
    ret (true, result)
  else ret (false, result).

(** [authenticate] *)
Definition authenticate : py world (bool * json) :=
  let! creds := read (fun w => credentials (self w)) in
  if negb (truthy creds) then
    ret (false, JObj {[ "message" := JStr "Not registered" ]})
  else
    let! key := lift (getitem creds "api_key") in
    let! result :=
      api_request "/api/world/bot/auth" "POST"
        (Some (JObj {[ "token" := key ]})) in
    let! ok := lift (get result "ok" JNull) in
    if truthy ok then
      let! v := lift (get result "assignedAvatar" JNull) in
      update_self (set_avatar v) >>
      ret (true, result)
    else ret (false, result).

(** [get_status] *)
Definition get_status : py world json :=
  let! result := api_request "/api/world/bot/status" "GET" None in
  let! ok := lift (get result "ok" JNull) in
  (if truthy ok then
     (let! v := lift (get result "wallet" JNull) in update_self (set_wallet v)) >>
     (let! v := lift (get result "license" JNull) in update_self (set_license v)) >>
     (let! v := lift (get result "avatar" JNull) in update_self (set_avatar v))
   else ret tt) >>
  ret result.

(** [complete_task] *)
Definition complete_task (task_id : json) : py world json :=
  api_request "/api/world/task" "POST"
    (Some (JObj {[ "task_id" := task_id ]})).

(* ===================================================================== *)
(** ** The live channel *)
(* ===================================================================== *)

(** *** The background threads

    Each thread started by [connect_websocket] runs [_ws_run].  What
    happens while it is inside [run_forever] is decided by the library and
    the network: the library invokes the callbacks given to the
    WebSocketApp from that thread, and catches what they raise. *)
Inductive callback : Type :=
  | OnOpen                            (* the connection is established *)
  | OnMessage (message : option json) (* a text message has arrived *)
  | OnError                           (* the library reports an error *)
  | OnClose.                          (* the connection has ended *)

Inductive event : Type :=
  | Advance (t : nat)                 (* thread [t] goes on to its next stop *)
  | Deliver (t : nat) (c : callback). (* the library calls back in thread [t] *)

Definition set_thread (t : nat) (st : thread_state) : py world unit :=
  modify (fun w => set_threads (<[t := st]> (threads w)) w).

Definition set_sock (h : nat) (b : bool) : py world unit :=
  modify (fun w =>
    match apps w !! h with
    | Some app => set_apps (<[h := WsApp b (keep_running app)]> (apps w)) w
    | None => w
    end).

(** The [on_open] callback: the in-band handshake. *)
Definition on_open (h : nat) : py world unit :=
  let! creds := read (fun w => credentials (self w)) in
  let! bot_id := lift (getitem creds "bot_id") in
  let! token := lift (getitem creds "api_key") in
  ws_send h (JObj {[ "type" := JStr "BOT_AUTH"; "botId" := bot_id;
                     "token" := token ]}).

(** [_ws_run], one pass of thread [t] from one stop to the next:
<<
    while self._running:
        try:
            self.ws.run_forever()
        except Exception as e:
            print(...)
        time.sleep(1)
>>
    [run_forever] ends when the connection cannot be made or has ended;
    when it ends after the closing handshake the library has called
    [on_close] first (event [Deliver t OnClose]). *)
Definition _ws_run (t : nat) : py world unit :=
  let! st := read (fun w => threads w !! t) in
  match st with
  | Some AtLoopTest =>
      let! r := read (fun w => _running (self w)) in
      if (r : bool) then
        let! target := read (fun w => ws (self w)) in
        match target with
        | Some h =>
            modify (emit (Opening h)) >>
            modify (fun w =>
              match apps w !! h with
              | Some app => set_apps (<[h := WsApp (sock app) true]> (apps w)) w
              | None => w
              end) >>
            set_thread t (InRunForever h)
        | None => set_thread t Sleeping   (* AttributeError, caught *)
        end
      else set_thread t Finished
  | Some (InRunForever h) => set_sock h false >> set_thread t Sleeping
  | Some Sleeping => set_thread t AtLoopTest
  | Some Finished | None => ret tt
  end.

(** The [on_error] callback: it prints the error. *)
Definition on_error : py world unit := ret tt.

(** A callback invoked by the library in thread [t]. *)
Definition deliver (t : nat) (c : callback) : py world unit :=
  let! st := read (fun w => threads w !! t) in
  match st with
  | Some (InRunForever h) =>
      match c with
      | OnOpen => set_sock h true >> swallow (on_open h)
      | OnMessage m => swallow (on_self (on_message m))
      | OnError => on_error
      | OnClose =>
          set_sock h false >> swallow (on_self on_close) >>
          set_thread t Sleeping
      end
  | _ => ret tt
  end.

Definition occur (e : event) : py world unit :=
  match e with
  | Advance t => _ws_run t
  | Deliver t c => deliver t c
  end.

Fixpoint occur_all (es : list event) : py world unit :=
  match es with
  | [] => ret tt
  | e :: es' => occur e >> occur_all es'
  end.

(** *** [connect_websocket]

    After starting the thread the foreground looks at [self.connected]
    fifty times, sleeping a tenth of a second after each look
    ([for _ in range(50)]).  [sched 0] are the background events between
    the start of the thread and the first look, [sched (S i)] those during
    the sleep that follows look number [i].  The operations of this
    section and of the bootstrap are taken without background events
    during their requests to the server; the versions with such events
    follow the example data. *)
Fixpoint poll (n : nat) (i : nat) (sched : nat → list event)
  : py world (bool * text) :=
  match n with
  | O => ret (false, [L "Connection timeout"])
  | S n' =>
      let! c := read (fun w => connected (self w)) in
      if (c : bool) then ret (true, [L "Connected"])
      else occur_all (sched (S i)) >> poll n' (S i) sched
  end.

Definition connect_websocket (sched : nat → list event)
  : py world (bool * text) :=
  if negb (HAS_WEBSOCKET env) then
    ret (false, [L "WebSocket library not installed"])
  else
    let! creds := read (fun w => credentials (self w)) in
    if negb (truthy creds) then ret (false, [L "Not registered"])
    else
      let! c := read (fun w => connected (self w)) in
      if (c : bool) then ret (true, [L "Already connected"])
      else
        (* self.ws = websocket.WebSocketApp(...) *)
        let! h := read (fun w => length (apps w)) in
        modify (fun w => set_apps (apps w ++ [WsApp false false]) w) >>
        update_self (set_ws (Some h)) >>
        update_self (set_running true) >>
        (* self._ws_thread = threading.Thread(...); start() *)
        let! t := read (fun w => length (threads w)) in
        modify (fun w => set_threads (threads w ++ [AtLoopTest]) w) >>
        update_self (set_ws_thread (Some t)) >>
        modify (emit (Started t)) >>
        occur_all (sched 0) >>
        poll 50 0 sched.

(** [disconnect_websocket] *)
Definition disconnect_websocket : py world unit :=
  update_self (set_running false) >>
  (let! r := read (fun w => ws (self w)) in
   match r with
   | Some h => ws_close h
   | None => ret tt
   end) >>
  update_self (set_connected false).

(* ===================================================================== *)
(** ** Avatar actions *)
(* ===================================================================== *)

Definition bot_action (action : string) (payload : json) : json :=
  JObj {[ "type" := JStr "BOT_ACTION"; "action" := JStr action;
          "payload" := payload ]}.

Definition not_connected : bool * text := (false, [L "Not connected"]).

(** [move_to] *)
Definition move_to (x y : json) : py world (bool * text) :=
  let! c := read (fun w => connected (self w)) in
  if negb c then ret not_connected
  else
    with_ws (fun h =>
      ws_send h (bot_action "MOVE" (JObj {[ "x" := x; "y" := y ]}))) >>
    ret (true, [L "Moving to ("; V x; L ", "; V y; L ")"]).

(** [interact_with] *)
Definition interact_with (stall_id building_id : json)
  : py world (bool * text) :=
  let! c := read (fun w => connected (self w)) in
  if negb c then ret not_connected
  else
    with_ws (fun h =>
      ws_send h (bot_action "INTERACT"
        (JObj {[ "stallId" := stall_id; "buildingId" := building_id ]}))) >>
    ret (true, [L "Interacting with ";
                V (if truthy stall_id then stall_id else building_id)]).

(** [read_notices] *)
Definition read_notices : py world (bool * text) :=
  let! c := read (fun w => connected (self w)) in
  if negb c then ret not_connected
  else
    with_ws (fun h =>
      ws_send h (bot_action "READ"
        (JObj {[ "targetId" := JStr "notice_board" ]}))) >>
    ret (true, [L "Reading notices"]).

(** [accept_quest] *)
Definition accept_quest (quest_id : json) : py world (bool * text) :=
  let! c := read (fun w => connected (self w)) in
  if negb c then ret not_connected
  else
    with_ws (fun h =>
      ws_send h (bot_action "ACCEPT_QUEST"
        (JObj {[ "questId" := quest_id ]}))) >>
    ret (true, [L "Accepting quest "; V quest_id]).

(** [celebrate] *)
Definition celebrate : py world (bool * text) :=
  let! c := read (fun w => connected (self w)) in
  if negb c then ret not_connected
  else
    with_ws (fun h => ws_send h (bot_action "CELEBRATE" (JObj ∅))) >>
    ret (true, [L "Celebrating!"]).

(** The five action-dispatch operations with their arguments. *)
Inductive action : Type :=
  | Move (x y : json)
  | Interact (stall_id building_id : json)
  | ReadNotices
  | AcceptQuest (quest_id : json)
  | Celebrate.

Definition dispatch (act : action) : py world (bool * text) :=
  match act with
  | Move x y => move_to x y
  | Interact s b => interact_with s b
  | ReadNotices => read_notices
  | AcceptQuest q => accept_quest q
  | Celebrate => celebrate
  end.

(* ===================================================================== *)
(** ** The bootstrap *)
(* ===================================================================== *)

(** [ensure_connected] *)
Definition ensure_connected (name : json) (sched : nat → list event)
  : py world (bool * text) :=
  let! loaded := load_credentials in
  let! failed :=
    (if negb loaded then
       let! r := register name in
       if negb (fst r) then
         let! m := lift (get (snd r) "message" JNull) in
         ret (Some [L "Registration failed: "; V m])
       else lift (get (snd r) "signer_id" JNull) >> ret None
     else ret None) in
  match failed with
  | Some m => ret (false, m)
  | None =>
      let! r := authenticate in
      if negb (fst r) then
        let! m := lift (get (snd r) "message" JNull) in
        ret (false, [L "Auth failed: "; V m])
      else
        (if HAS_WEBSOCKET env
         then connect_websocket sched >> ret tt
         else ret tt) >>
        let! status := get_status in
        let! ok := lift (get status "ok" JNull) in
        let! tutorial :=
          (if truthy ok then
             let! wallet := lift (get status "wallet" (JObj ∅)) in
             let! cc := lift (get wallet "cc" (JInt 0)) in
             ret (eq_zero cc)
           else ret false) in
        (if (tutorial : bool)
         then complete_task (JStr "tutorial") >> ret tt
         else ret tt) >>
        ret (true, [L "Connected and ready"])
  end.

End Operations.

(* ===================================================================== *)
(** ** Vocabulary of the statements *)
(* ===================================================================== *)

(** [preserves R c]: whatever [c] does, and whether it returns or raises,
    the state it leaves is related by [R] to the state it found. *)
Definition preserves {S A} (R : relation S) (c : py S A) : Prop :=
  ∀ s, R s (snd (c s)).

(** The attributes of the agent that inbound frames never write. *)
Definition same_session (a a' : agent) : Prop :=
  credentials a' = credentials a ∧ ws a' = ws a ∧ _running a' = _running a
  ∧ _ws_thread a' = _ws_thread a ∧ server a' = server a.

(** The decoded message is a frame whose [type] is one of [kinds]. *)
Definition frame_kind_in (kinds : list string) (message : option json) : bool :=
  match message with
  | Some (JObj o) => existsb (eq_str (field o "type")) kinds
  | _ => false
  end.

(** The event is the arrival of a frame that ends the handshake. *)
Definition definitive (e : event) : bool :=
  match e with
  | Deliver _ (OnMessage m) => frame_kind_in ["AUTH_SUCCESS"; "AUTH_FAILED"] m
  | _ => false
  end.

(** The event is the arrival of an [AUTH_SUCCESS] frame. *)
Definition grants (e : event) : bool :=
  match e with
  | Deliver _ (OnMessage m) => frame_kind_in ["AUTH_SUCCESS"] m
  | _ => false
  end.

(** What no background event writes: the identity, the channel handle and
    the running flag of the agent, and the credentials file. *)
Definition same_session_world (w w' : world) : Prop :=
  same_session (self w) (self w') ∧ cred_file w' = cred_file w.

(** Thread [t] exists and has not left [_ws_run]. *)
Definition alive (t : nat) (w : world) : Prop :=
  ∃ st, threads w !! t = Some st ∧ st ≠ Finished.

(** The worlds of a session that [connect_websocket] has brought up:
    what follows a successful connection through background events,
    actions and status queries. *)
Inductive live_session (env : environment) : world → Prop :=
  | live_connect sched w m w' :
      connect_websocket env sched w = (Ret (true, m), w') →
      live_session env w'
  | live_event e w :
      live_session env w → live_session env (snd (occur e w))
  | live_action act w :
      live_session env w → live_session env (snd (dispatch act w))
  | live_status w :
      live_session env w → live_session env (snd (get_status env w)).

(** The world right after [connect_websocket] has created the
    WebSocketApp and started the thread, before any background event. *)
Definition started (w : world) : world :=
  let h := length (apps w) in
  let t := length (threads w) in
  World (set_ws_thread (Some t) (set_running true (set_ws (Some h) (self w))))
        (apps w ++ [WsApp false false])
        (threads w ++ [AtLoopTest])
        (log w ++ [Started t])
        (cred_file w).

(* ===================================================================== *)
(** ** Vocabulary of the bootstrap *)
(* ===================================================================== *)

(** What [ensure_connected] does once authentication has succeeded. *)
Definition after_authentication (env : environment)
    (sched : nat → list event) : py world (bool * text) :=
  (if HAS_WEBSOCKET env
   then connect_websocket env sched >> ret tt
   else ret tt) >>
  let! status := get_status env in
  let! ok := lift (get status "ok" JNull) in
  let! tutorial :=
    (if truthy ok then
       let! wallet := lift (get status "wallet" (JObj ∅)) in
       let! cc := lift (get wallet "cc" (JInt 0)) in
       ret (eq_zero cc)
     else ret false) in
  (if (tutorial : bool)
   then complete_task env (JStr "tutorial") >> ret tt
   else ret tt) >>
  ret (true, [L "Connected and ready"]).

(** What [ensure_connected] does once an identity is loaded. *)
Definition authenticate_then (env : environment)
    (sched : nat → list event) : py world (bool * text) :=
  let! r := authenticate env in
  if negb (fst r) then
    let! m := lift (get (snd r) "message" JNull) in
    ret (false, [L "Auth failed: "; V m])
  else after_authentication env sched.

(** The bootstrap has an identity in [w1]: the stored one, or the one a
    successful registration has just saved. *)
Definition identity_ready (env : environment) (name : json)
    (w w1 : world) : Prop :=
  load_credentials w = (Ret true, w1)
  ∨ ∃ w0 r, load_credentials w = (Ret false, w0)
            ∧ register env name w0 = (Ret (true, r), w1).

(** There is no stored identity and [register] returns failure. *)
Definition registration_fails (env : environment) (name : json)
    (w : world) : Prop :=
  ∃ w0 r w1, load_credentials w = (Ret false, w0)
             ∧ register env name w0 = (Ret (false, r), w1).

(** An identity is there and [authenticate] returns failure. *)
Definition authentication_fails (env : environment) (name : json)
    (w : world) : Prop :=
  ∃ w1 r w2, identity_ready env name w w1
             ∧ authenticate env w1 = (Ret (false, r), w2).

(** An identity is there and [authenticate] returns success, in [w2]. *)
Definition authentication_succeeds (env : environment) (name : json)
    (w w2 : world) : Prop :=
  ∃ w1 r, identity_ready env name w w1
          ∧ authenticate env w1 = (Ret (true, r), w2).

(** The wallet of a reply, when there is one, is an object. *)
Definition wallet_ok (o : gmap string json) : Prop :=
  ∀ v, o !! "wallet" = Some v → ∃ wl, v = JObj wl.

(** The transport gives normalized results: every request ends with a
    decoded object or with one of the two structured errors. *)
Definition normalized (env : environment) : Prop :=
  ∀ history r,
    match transport env history r with
    | Body j | ErrorBody j => ∃ o, j = JObj o ∧ wallet_ok o
    | ErrorStatus _ | Unreachable _ => True
    | Failure _ => False
    end.

(** The loaded credentials, if any, are an object. *)
Definition credentials_ok (w : world) : Prop :=
  truthy (credentials (self w)) = true →
  ∃ o, credentials (self w) = JObj o.

(* ===================================================================== *)
(** ** Example data *)
(* ===================================================================== *)

(** The frames of the specification's examples. *)
Definition bot1 : gmap string json :=
  {[ "x" := JInt 10; "y" := JInt 5; "name" := JStr "Bot1" ]}.

Definition auth_success_frame : gmap string json :=
  {[ "type" := JStr "AUTH_SUCCESS"; "avatar" := JObj bot1;
     "wallet" := JObj {[ "cc" := JInt 0 ]} ]}.

Definition action_result_frame : gmap string json :=
  {[ "type" := JStr "ACTION_RESULT"; "success" := JBool true;
     "data" := JObj {[ "x" := JInt 12; "y" := JInt 5 ]} ]}.

(** A stored identity. *)
Definition identity : json :=
  JObj {[ "api_key" := JStr "key-1"; "bot_id" := JStr "bot-1";
          "signer_id" := JStr "signer-1"; "name" := JStr "PaxAgent";
          "server" := JStr "http://localhost:5173";
          "registered_at" := JInt 1700000000 ]}.

(** An agent that has loaded its identity and is not connected. *)
Definition registered_world : world :=
  World (set_credentials identity (init "http://localhost:5173"))
        [] [] [] (Holds identity).

(** A fresh process without a credentials file. *)
Definition fresh_world : world :=
  World (init "http://localhost:5173") [] [] [] Absent.

(** A server that accepts everything. *)
Definition friendly (history : list effect) (r : request) : reply :=
  if String.eqb (endpoint r) "/api/world/bot/register" then
    Body (JObj {[ "ok" := JBool true; "api_key" := JStr "key-1";
                  "bot_id" := JStr "bot-1"; "signer_id" := JStr "signer-1" ]})
  else if String.eqb (endpoint r) "/api/world/bot/auth" then
    Body (JObj {[ "ok" := JBool true; "assignedAvatar" := JObj bot1 ]})
  else if String.eqb (endpoint r) "/api/world/bot/status" then
    Body (JObj {[ "ok" := JBool true; "avatar" := JObj bot1;
                  "wallet" := JObj {[ "cc" := JInt 0 ]};
                  "license" := JObj {[ "tier" := JStr "VISITOR" ]} ]})
  else Body (JObj {[ "ok" := JBool true ]}).

(** A server whose status reply has no [avatar]. *)
Definition status_without_avatar (history : list effect) (r : request)
  : reply :=
  if String.eqb (endpoint r) "/api/world/bot/status" then
    Body (JObj {[ "ok" := JBool true;
                  "wallet" := JObj {[ "cc" := JInt 40 ]};
                  "license" := JObj {[ "tier" := JStr "CITIZEN" ]} ]})
  else friendly history r.

(** A server that refuses the registration. *)
Definition name_taken (history : list effect) (r : request) : reply :=
  if String.eqb (endpoint r) "/api/world/bot/register" then
    ErrorBody (JObj {[ "ok" := JBool false;
                       "message" := JStr "name taken" ]})
  else friendly history r.

Definition env_with (srv : list effect → request → reply) : environment :=
  {| HAS_WEBSOCKET := true; transport := srv; token_hex := "00";
     now := JInt 1700000000; saving := SaveCompletes |}.

(** No background event at all. *)
Definition silence (i : nat) : list event := [].

(** The thread starts connecting; nothing else happens. *)
Definition no_answer (i : nat) : list event :=
  match i with 0 => [Advance 0] | _ => [] end.

(** The handshake completes before the first look at [connected]. *)
Definition prompt_handshake (i : nat) : list event :=
  match i with
  | 0 => [Advance 0; Deliver 0 OnOpen;
          Deliver 0 (OnMessage (Some (JObj auth_success_frame)))]
  | _ => []
  end.

(** The session of [registered_world] once the handshake has succeeded. *)
Definition established_world : world :=
  snd (connect_websocket (env_with friendly) prompt_handshake
         registered_world).

(** The session the bootstrap leaves when the handshake has succeeded and
    the status reply has no [avatar]. *)
Definition unmirrored_world : world :=
  snd (ensure_connected (env_with status_without_avatar) (JStr "PaxAgent")
         prompt_handshake registered_world).

(* ===================================================================== *)
(** ** Further operations of the agent *)
(* ===================================================================== *)

(** A value [qs] used as [do_work_cycle] uses [quests.get('quests')]:
    tested for truth ([None] when it counts as false), then indexed with
    [qs[0]]: the first element of a non-empty [list], the first character
    of a non-empty [str]; a [dict] with string keys has no key [0], and a
    number or [True] cannot be indexed. *)
Definition first_item (qs : json) : option (outcome json) :=
  if truthy qs then
    Some match qs with
         | JArr (x :: _) => Ret x
         | JStr (String c _) => Ret (JStr (String c EmptyString))
         | JObj _ => Raise KeyError
         | _ => Raise TypeError
         end
  else None.

(** The table [stall_positions] of [do_work_cycle]. *)
Definition stall_positions : gmap string (Z * Z) :=
  {[ "forge_stall" := (10, 10)%Z; "archive_desk" := (20, 10)%Z;
     "stamp_desk" := (15, 15)%Z; "notice_board" := (5, 5)%Z ]}.

(** [stall_positions.get(stall, (10, 10))]: the key must be hashable, and
    only a string equals one of the table's keys. *)
Definition stall_position (stall : json) : outcome (Z * Z) :=
  match stall with
  | JStr s => Ret (default (10, 10)%Z (stall_positions !! s))
  | JArr _ | JObj _ => Raise TypeError
  | _ => Ret (10, 10)%Z
  end.

Section FurtherOperations.

Variable env : environment.

(** Python's [str], used where an f-string builds a request path. *)
Variable str : json → string.

(** *** Requests while the background thread runs

    [urlopen] blocks the foreground until the server has answered, and a
    thread started by [connect_websocket] goes on meanwhile: like
    [time.sleep], a request is a place where background events occur.
    The operations below are those of the class with these events:
    [api_request_during es] is [api_request] with the events [es] taking
    place while it waits for the reply, and so on for the operations that
    call it.  With no event they are the operations of the sections
    above. *)

(** [api_request] *)
Definition api_request_during (es : list event) (endpoint method : string)
    (data : option json) : py world json :=
  let! creds := read (fun w => credentials (self w)) in
  let! auth :=
    (if truthy creds
     then let! key := lift (get creds "api_key" (JStr "")) in ret (Some key)
     else ret None) in
  let body := match data with
              | Some d => if truthy d then Some d else None
              | None => None
              end in
  let req := Request endpoint method auth body in
  let! history := read log in
  modify (emit (Requested req)) >>
  occur_all es >>
  match transport env history req with
  | Body j => ret j
  | ErrorBody j => ret j
  | ErrorStatus code =>
      ret (JObj {[ "ok" := JBool false;
                   "message" := JStr ("HTTP " ++ pretty code) ]})
  | Unreachable reason =>
      ret (JObj {[ "ok" := JBool false;
                   "message" := JStr ("Connection error: " ++ reason) ]})
  | Failure e => raise e
  end.

(** [register] *)
Definition register_during (es : list event) (name : json)
  : py world (bool * json) :=
  let public_key := JStr (token_hex env) in
  let! result :=
    api_request_during es "/api/world/bot/register" "POST"
      (Some (JObj {[ "agent_type" := JStr "openclaw";
                     "agent_version" := JStr "1.0.0";
                     "public_key" := public_key;
                     "requested_name" := name ]})) in
  let! ok := lift (get result "ok" JNull) in
  if truthy ok then
    let! api_key := lift (getitem result "api_key") in
    let! bot_id := lift (getitem result "bot_id") in
    let! signer_id := lift (getitem result "signer_id") in
    let! srv := read (fun w => server (self w)) in
    save_credentials env
      (JObj {[ "api_key" := api_key; "bot_id" := bot_id;
               "signer_id" := signer_id; "name" := name;
               "server" := JStr srv; "registered_at" := now env ]}) >>
    ret (true, result)
  else ret (false, result).

(** [authenticate] *)
Definition authenticate_during (es : list event) : py world (bool * json) :=
  let! creds := read (fun w => credentials (self w)) in
  if negb (truthy creds) then
    ret (false, JObj {[ "message" := JStr "Not registered" ]})
  else
    let! key := lift (getitem creds "api_key") in
    let! result :=
      api_request_during es "/api/world/bot/auth" "POST"
        (Some (JObj {[ "token" := key ]})) in
    let! ok := lift (get result "ok" JNull) in
    if truthy ok then
      let! v := lift (get result "assignedAvatar" JNull) in
      update_self (set_avatar v) >>
      ret (true, result)
    else ret (false, result).

(** [get_status] *)
Definition get_status_during (es : list event) : py world json :=
  let! result :=
    api_request_during es "/api/world/bot/status" "GET" None in
  let! ok := lift (get result "ok" JNull) in
  (if truthy ok then
     (let! v := lift (get result "wallet" JNull) in update_self (set_wallet v)) >>
     (let! v := lift (get result "license" JNull) in update_self (set_license v)) >>
     (let! v := lift (get result "avatar" JNull) in update_self (set_avatar v))
   else ret tt) >>
  ret result.

(** [complete_task] *)
Definition complete_task_during (es : list event) (task_id : json)
  : py world json :=
  api_request_during es "/api/world/task" "POST"
    (Some (JObj {[ "task_id" := task_id ]})).

(** [get_quests] *)
Definition get_quests (es : list event) (stall : json) : py world json :=
  api_request_during es
    (if truthy stall
     then "/api/world/quests" ++ "?stall=" ++ str stall
     else "/api/world/quests")
    "GET" None.

(** [get_stall_instructions] *)
Definition get_stall_instructions (es : list event) (stall_id : json)
  : py world json :=
  api_request_during es ("/api/world/stall/" ++ str stall_id) "GET" None.

(** [ensure_connected].  [rest 0], [rest 1], [rest 2] and [rest 3] are the
    background events during the requests of [register], [authenticate],
    [get_status] and [complete_task]; [sched] is the schedule of
    [connect_websocket]. *)
Definition ensure_connected_during (rest sched : nat → list event)
    (name : json) : py world (bool * text) :=
  let! loaded := load_credentials in
  let! failed :=
    (if negb loaded then
       let! r := register_during (rest 0) name in
       if negb (fst r) then
         let! m := lift (get (snd r) "message" JNull) in
         ret (Some [L "Registration failed: "; V m])
       else lift (get (snd r) "signer_id" JNull) >> ret None
     else ret None) in
  match failed with
  | Some m => ret (false, m)
  | None =>
      let! r := authenticate_during (rest 1) in
      if negb (fst r) then
        let! m := lift (get (snd r) "message" JNull) in
        ret (false, [L "Auth failed: "; V m])
      else
        (if HAS_WEBSOCKET env
         then connect_websocket env sched >> ret tt
         else ret tt) >>
        let! status := get_status_during (rest 2) in
        let! ok := lift (get status "ok" JNull) in
        let! tutorial :=
          (if truthy ok then
             let! wallet := lift (get status "wallet" (JObj ∅)) in
             let! cc := lift (get wallet "cc" (JInt 0)) in
             ret (eq_zero cc)
           else ret false) in
        (if (tutorial : bool)
         then complete_task_during (rest 3) (JStr "tutorial") >> ret tt
         else ret tt) >>
        ret (true, [L "Connected and ready"])
  end.

(** [do_work_cycle].  [sched 0] are the background events during the
    status request.  For a visitor, [sched 1] and [sched 2] are those
    during the two task requests.  Otherwise [sched 1] are those during
    the request for the quests, [sched 2] and [sched 3] those during the
    two [time.sleep(1)] that follow the move and the interaction, and
    [sched 4] those during the request for the instructions. *)
Definition do_work_cycle (sched : nat → list event)
  : py world (bool * text) :=
  let! status := get_status_during (sched 0) in
  let! ok := lift (get status "ok" JNull) in
  if negb (truthy ok) then ret (false, [L "Failed to get status"])
  else
    let! wallet := lift (get status "wallet" (JObj ∅)) in
    let! license := lift (get status "license" (JObj ∅)) in
    let! license_tier := lift (get license "tier" (JStr "VISITOR")) in
    (* the arguments of the print *)
    lift (get wallet "cc" (JInt 0)) >>
    (let! tokens := lift (get wallet "tokens" (JObj ∅)) in
     lift (get tokens "ore" (JInt 0))) >>
    if eq_str license_tier "VISITOR" then
      complete_task_during (sched 1) (JStr "daily_checkin") >>
      complete_task_during (sched 2) (JStr "read_notices") >>
      ret (true, [L "Completed daily tasks (working toward CITIZEN)"])
    else
      let! quests := get_quests (sched 1) JNull in
      let! qok := lift (get quests "ok" JNull) in
      let! found :=
        (if truthy qok
         then let! qs := lift (get quests "quests" JNull) in
              ret (first_item qs)
         else ret None) in
      match found with
      | None => ret (false, [L "No quests available"])
      | Some first =>
        let! quest := lift first in
        lift (getitem quest "title") >>
        let! stall := lift (getitem quest "stall") in
        let! pos := lift (stall_position stall) in
        (let! c := read (fun w => connected (self w)) in
         if (c : bool) then
           move_to (JInt (fst pos)) (JInt (snd pos)) >>
           occur_all (sched 2) >>
           (let! stall := lift (getitem quest "stall") in
            interact_with stall JNull) >>
           occur_all (sched 3)
         else ret tt) >>
        let! stall := lift (getitem quest "stall") in
        let! instructions := get_stall_instructions (sched 4) stall in
        let! iok := lift (get instructions "ok" JNull) in
        (if truthy iok then
           let! skill := lift (get instructions "skill_instructions" (JObj ∅)) in
           lift (get skill "description" (JStr "N/A")) >> ret tt
         else ret tt) >>
        let! title := lift (getitem quest "title") in
        ret (true, [L "Ready to work on: "; V title])
      end.

(** [check_and_work].  [rest] and [boot] are the schedules of the
    bootstrap, [work] the one of the work cycle. *)
Definition check_and_work (rest boot work : nat → list event)
  : py world text :=
  let! r := ensure_connected_during rest boot (JStr "PaxAgent") in
  if negb (fst r) then ret (L "❌ " :: snd r)
  else
    let! r := do_work_cycle work in
    (let! c := read (fun w => connected (self w)) in
     if (c : bool) then disconnect_websocket else ret tt) >>
    ret (L (if fst r then "✅ " else "❌ ") :: snd r).

End FurtherOperations.

(* ===================================================================== *)
(** ** Further example data *)
(* ===================================================================== *)

Definition snapshot_frame_1 : gmap string json :=
  {[ "type" := JStr "WORLD_STATE";
     "state" := JObj {[ "avatarCount" := JInt 7 ]} ]}.

Definition snapshot_frame_2 : gmap string json :=
  {[ "type" := JStr "WORLD_STATE";
     "state" := JObj {[ "botCount" := JInt 2 ]} ]}.

Definition null_payload_frame : gmap string json :=
  {[ "type" := JStr "ACTION_RESULT"; "success" := JBool true;
     "data" := JNull ]}.

(** The frame each action puts on the channel. *)
Definition frame_of (act : action) : json :=
  match act with
  | Move x y => bot_action "MOVE" (JObj {[ "x" := x; "y" := y ]})
  | Interact s b =>
      bot_action "INTERACT" (JObj {[ "stallId" := s; "buildingId" := b ]})
  | ReadNotices =>
      bot_action "READ" (JObj {[ "targetId" := JStr "notice_board" ]})
  | AcceptQuest q => bot_action "ACCEPT_QUEST" (JObj {[ "questId" := q ]})
  | Celebrate => bot_action "CELEBRATE" (JObj ∅)
  end.

(** The thread an event belongs to. *)
Definition thread_of (e : event) : nat :=
  match e with Advance t | Deliver t _ => t end.

(** The tables of WebSocketApp objects and of threads have kept their
    sizes. *)
Definition same_sizes (w w' : world) : Prop :=
  length (apps w') = length (apps w)
  ∧ length (threads w') = length (threads w).

(** The handshake completes during the sleep that follows the last look. *)
Definition last_moment (i : nat) : list event :=
  match i with
  | 0 => [Advance 0; Deliver 0 OnOpen]
  | 50 => [Deliver 0 (OnMessage (Some (JObj auth_success_frame)))]
  | _ => []
  end.

Definition ledger_frame : gmap string json :=
  {[ "type" := JStr "LEDGER_EVENT"; "event" := JNull ]}.

(** The session of [registered_world] after an attempt that timed out. *)
Definition timed_out_world : world :=
  snd (connect_websocket (env_with friendly) no_answer registered_world).

(** The message [api_request] gives for a request that ends without a
    decodable body. *)
Definition structured_error (rp : reply) : option string :=
  match rp with
  | ErrorStatus code => Some ("HTTP " ++ pretty code)
  | Unreachable reason => Some ("Connection error: " ++ reason)
  | _ => None
  end.

(** The result [api_request] builds for it. *)
Definition failure_result (message : string) : json :=
  JObj {[ "ok" := JBool false; "message" := JStr message ]}.

(** The paths of the REST requests made, oldest first. *)
Definition endpoints (l : list effect) : list string :=
  omap (fun e => match e with Requested r => Some (endpoint r) | _ => None end)
       l.

(** [status.get(k)] of a reply that is an object. *)
Definition mirror_after_status (o : gmap string json) (a : agent) : agent :=
  set_avatar (field o "avatar")
    (set_license (field o "license") (set_wallet (field o "wallet") a)).

(** A server that cannot be reached. *)
Definition unreachable (history : list effect) (r : request) : reply :=
  Unreachable "refused".

(** A credentials file left empty. *)
Definition blank_file_world : world :=
  World (init "http://localhost:5173") [] [] [] (Holds (JObj ∅)).

(** The number of registration requests made. *)
Definition registrations (l : list effect) : nat :=
  length (List.filter (String.eqb "/api/world/bot/register") (endpoints l)).

(** Nothing but the log has changed. *)
Definition only_logged (w w' : world) : Prop :=
  self w' = self w ∧ cred_file w' = cred_file w
  ∧ apps w' = apps w ∧ threads w' = threads w.

(** The identity is as it was and no registration request was made. *)
Definition identity_kept (w w' : world) : Prop :=
  cred_file w' = cred_file w
  ∧ credentials (self w') = credentials (self w)
  ∧ registrations (log w') = registrations (log w).

(** A friendly server, and a disk that fills up while the credentials are
    written. *)
Definition disk_full : environment :=
  {| HAS_WEBSOCKET := true; transport := friendly; token_hex := "00";
     now := JInt 1700000000; saving := SaveInterrupted |}.

(** What a registration leaves behind there. *)
Definition interrupted_world : world :=
  snd (register disk_full (JStr "PaxAgent") fresh_world).

(** No thread is running [_ws_run]: none has been started, or each one
    has returned. *)
Definition quiescent (w : world) : Prop :=
  Forall (fun st => st = Finished) (threads w).

(** A session that was not connected and had no running thread is still
    so, and has sent no frame. *)
Definition still_offline (w w' : world) : Prop :=
  connected (self w) = false → quiescent w →
  connected (self w') = false ∧ quiescent w'
  ∧ sent_frames (log w') = sent_frames (log w).

(** Nothing has been removed from the log. *)
Definition log_grows (w w' : world) : Prop :=
  ∃ l, log w' = (log w ++ l)%list.

(** Python's [str] on the values the examples use. *)
Definition str_of (v : json) : string :=
  match v with
  | JStr s => s
  | JInt n => pretty n
  | JNull => "None"
  | JBool true => "True"
  | JBool false => "False"
  | _ => ""
  end.

(** A server with one quest at the archive desk, for a citizen. *)
Definition with_quest (history : list effect) (r : request) : reply :=
  if String.eqb (endpoint r) "/api/world/bot/status" then
    Body (JObj {[ "ok" := JBool true; "avatar" := JObj bot1;
                  "wallet" := JObj {[ "cc" := JInt 40 ]};
                  "license" := JObj {[ "tier" := JStr "CITIZEN" ]} ]})
  else if String.eqb (endpoint r) "/api/world/quests" then
    Body (JObj {[ "ok" := JBool true;
                  "quests" := JArr [JObj {[ "title" := JStr "Index the log";
                                            "stall" := JStr "archive_desk" ]}] ]})
  else friendly history r.

(** The parts of a request as [api_request] computes them. *)
Definition bearer_of (creds : json) : outcome (option json) :=
  if truthy creds then
    match get creds "api_key" (JStr "") with
    | Ret key => Ret (Some key)
    | Raise e => Raise e
    end
  else Ret None.

Definition body_of (data : option json) : option json :=
  match data with
  | Some d => if truthy d then Some d else None
  | None => None
  end.

(** What [api_request] hands back for a reply. *)
Definition answer (rp : reply) : outcome json :=
  match rp with
  | Body j | ErrorBody j => Ret j
  | ErrorStatus code => Ret (failure_result ("HTTP " ++ pretty code))
  | Unreachable reason =>
      Ret (failure_result ("Connection error: " ++ reason))
  | Failure e => Raise e
  end.

(** The established session with its live channel taken away: the agent
    of [registered_world], no WebSocketApp and no thread, the same log. *)
Definition offline_twin : world :=
  set_apps [] (set_threads [] (set_self (self registered_world)
                                 established_world)).

(** [quest] is the quest picked in a run that found the log [l0] and left
    the log [l]: the first item of the [quests] in the answer the server
    gave to the request for the quest listing made in that run. *)
Definition selected_quest (env : environment) (l0 l : list effect)
    (quest : json) : Prop :=
  ∃ before auth later quests qs,
    let req := Request "/api/world/quests" "GET" auth None in
    l = (l0 ++ before ++ Requested req :: later)%list
    ∧ answer (transport env (l0 ++ before) req) = Ret quests
    ∧ get quests "quests" JNull = Ret qs
    ∧ first_item qs = Some (Ret quest).

(* ===================================================================== *)
(** ** Reasoning about computations *)
(* ===================================================================== *)

Section Preserves.

Context {S : Type} (R : relation S) `{!PreOrder R}.

Lemma preserves_ret {A} (v : A) : preserves R (ret v).
Proof. intros s. reflexivity. Qed.

Lemma preserves_raise {A} e : preserves R (raise (A := A) e).
Proof. intros s. reflexivity. Qed.

Lemma preserves_lift {A} (r : outcome A) : preserves R (lift r).
Proof. intros s. reflexivity. Qed.

Lemma preserves_read {A} (f : S → A) : preserves R (read f).
Proof. intros s. reflexivity. Qed.

Lemma preserves_modify f : (∀ s, R s (f s)) → preserves R (modify f).
Proof. intros Hf s. apply Hf. Qed.

Lemma preserves_bind {A B} (c : py S A) (k : A → py S B) :
  preserves R c → (∀ v, preserves R (k v)) → preserves R (bind c k).
Proof.
  intros Hc Hk s. unfold bind. specialize (Hc s).
  destruct (c s) as [[v|e] s']; simpl in *; [|done].
  etrans; [exact Hc|apply Hk].
Qed.

Lemma preserves_swallow {A} (c : py S A) : preserves R c → preserves R (swallow c).
Proof. intros Hc s. apply Hc. Qed.

End Preserves.

Lemma bind_read {S A B} (f : S → A) (k : A → py S B) s :
  bind (read f) k s = k (f s) s.
Proof. reflexivity. Qed.

Lemma bind_modify {S B} (f : S → S) (k : unit → py S B) s :
  bind (modify f) k s = k tt (f s).
Proof. reflexivity. Qed.

Lemma bind_ret {S A B} (v : A) (k : A → py S B) s :
  bind (ret v) k s = k v s.
Proof. reflexivity. Qed.

Lemma bind_lift_ret {S A B} (v : A) (k : A → py S B) s :
  bind (lift (Ret v)) k s = k v s.
Proof. reflexivity. Qed.

Lemma bind_lift_raise {S A B} e (k : A → py S B) s :
  bind (lift (Raise e)) k s = (Raise e, s).
Proof. reflexivity. Qed.

Lemma bind_bind {S A B C} (c : py S A) (k : A → py S B) (k' : B → py S C) s :
  bind (bind c k) k' s = bind c (fun v => bind (k v) k') s.
Proof. unfold bind. by destruct (c s) as [[v|e] s']. Qed.

(** Breaks a computation into its primitive steps, leaving the [modify]
    steps to be justified. *)
Ltac preserve_steps :=
  repeat lazymatch goal with
    | |- preserves _ (ret _) => apply preserves_ret; [typeclasses eauto]
    | |- preserves _ (raise _) => apply preserves_raise; [typeclasses eauto]
    | |- preserves _ (lift _) => apply preserves_lift; [typeclasses eauto]
    | |- preserves _ (read _) => apply preserves_read; [typeclasses eauto]
    | |- preserves _ (bind _ _) =>
        apply preserves_bind; [typeclasses eauto| |intros ?]
    | |- preserves _ (swallow _) => apply preserves_swallow
    | |- preserves _ (if ?b then _ else _) => destruct b
    | |- preserves _ (match ?x with _ => _ end) => destruct x
    end.

#[global] Instance same_session_preorder : PreOrder same_session.
Proof.
  split.
  - intros a. by repeat split.
  - intros a b c (?&?&?&?&?) (?&?&?&?&?). repeat split; congruence.
Qed.

#[global] Instance same_phase_preorder :
  PreOrder (fun a a' : agent => connected a' = connected a).
Proof. split; [done|]. intros a b c ? ?. congruence. Qed.

(* ===================================================================== *)
(** ** Theorems: the inbound frame handler *)
(* ===================================================================== *)

Section Handler.

Implicit Types (a : agent) (o p av : gmap string json) (k : string).

Lemma partial_merge_lookup p av k :
  partial_merge p av !! k =
    if bool_decide (k ∈ merged_fields)
    then match p !! k with Some v => Some v | None => av !! k end
    else av !! k.
Proof.
  unfold partial_merge, merged_fields; simpl.
  destruct (decide (k = "state")) as [->|Hs];
    [|destruct (decide (k = "y")) as [->|Hy];
      [|destruct (decide (k = "x")) as [->|Hx]]].
  - rewrite bool_decide_eq_true_2 by (by repeat constructor).
    destruct (p !! "state"); [by rewrite lookup_insert_eq|].
    destruct (p !! "y"), (p !! "x");
      rewrite ?lookup_insert_ne by done; done.
  - rewrite bool_decide_eq_true_2 by (by repeat constructor).
    destruct (p !! "state"), (p !! "y"), (p !! "x");
      rewrite ?lookup_insert_ne by done;
      rewrite ?lookup_insert_eq; rewrite ?lookup_insert_ne by done; done.
  - rewrite bool_decide_eq_true_2 by (by repeat constructor).
    destruct (p !! "state"), (p !! "y"), (p !! "x");
      rewrite ?lookup_insert_ne by done;
      rewrite ?lookup_insert_eq; done.
  - rewrite bool_decide_eq_false_2
      by (intros H; repeat (apply elem_of_cons in H as [?|H]; [done|]);
          by apply elem_of_nil in H).
    destruct (p !! "state"), (p !! "y"), (p !! "x");
      rewrite ?lookup_insert_ne by done; done.
Qed.

Lemma merge_field_obj k p av a :
  avatar a = JObj av →
  merge_field k (JObj p) a =
    (Ret tt, match p !! k with
             | Some v => set_avatar (JObj (<[k := v]> av)) a
             | None => a
             end).
Proof.
  intros Hav. unfold merge_field, bind, lift, read, modify, ret; simpl.
  destruct (p !! k) as [v|] eqn:Hk.
  - rewrite bool_decide_eq_true_2 by eauto. rewrite Hav. reflexivity.
  - rewrite bool_decide_eq_false_2; [reflexivity|].
    intros [? ?]; congruence.
Qed.

Lemma set_avatar_same a : set_avatar (avatar a) a = a.
Proof. by destruct a. Qed.

Lemma merge_field_obj_avatar k p av a :
  avatar a = JObj av →
  ∃ a', merge_field k (JObj p) a = (Ret tt, a') ∧
        a' = set_avatar (JObj (match p !! k with
                               | Some v => <[k := v]> av
                               | None => av
                               end)) a.
Proof.
  intros Hav. rewrite (merge_field_obj k p av a Hav).
  destruct (p !! k); eexists; split; try reflexivity.
  by rewrite <- Hav, set_avatar_same.
Qed.

(** A successful [ACTION_RESULT] whose payload is an object, arriving when
    the avatar is an object: the whole effect of the handler. *)
Lemma action_result_success a o p av :
  o !! "type" = Some (JStr "ACTION_RESULT") →
  truthy (field o "success") = true →
  action_payload o = JObj p →
  avatar a = JObj av →
  _handle_ws_message (JObj o) a =
    (Ret tt, set_avatar (JObj (partial_merge p av)) a).
Proof.
  intros Hty Hs Hp Hav.
  unfold _handle_ws_message, bind at 1, lift at 1; simpl.
  rewrite Hty; simpl.
  unfold bind at 1, lift at 1; simpl. fold (field o "success").
  unfold bind at 1, lift at 1; simpl. fold (action_payload o).
  rewrite Hs, Hp.
  unfold bind at 1.
  destruct (merge_field_obj_avatar "x" p av a Hav) as (a1 & -> & E1).
  unfold bind at 1.
  assert (H1 : avatar a1 = JObj (match p !! "x" with
                                  | Some v => <["x" := v]> av
                                  | None => av end)) by (by subst a1).
  destruct (merge_field_obj_avatar "y" p _ a1 H1) as (a2 & -> & E2).
  assert (H2 : avatar a2 = JObj (match p !! "y" with
            | Some v => <["y" := v]> (match p !! "x" with
                                      | Some v => <["x" := v]> av
                                      | None => av end)
            | None => (match p !! "x" with
                       | Some v => <["x" := v]> av
                       | None => av end) end)) by (by subst a2).
  destruct (merge_field_obj_avatar "state" p _ a2 H2) as (a3 & -> & E3).
  f_equal. subst a3 a2 a1. unfold partial_merge, merged_fields; simpl.
  by destruct a.
Qed.

(** An [ACTION_RESULT] whose [success] is false (or absent, or any other
    value that counts as false) changes nothing, whatever else it holds. *)
Lemma action_result_failure a o :
  o !! "type" = Some (JStr "ACTION_RESULT") →
  truthy (field o "success") = false →
  _handle_ws_message (JObj o) a = (Ret tt, a).
Proof.
  intros Hty Hs.
  unfold _handle_ws_message, bind at 1, lift at 1; simpl.
  rewrite Hty; simpl.
  unfold bind at 1, lift at 1; simpl. fold (field o "success").
  unfold bind at 1, lift at 1; simpl.
  by rewrite Hs.
Qed.

(** A field the payload does not have is not touched, whatever the
    avatar is. *)
Lemma merge_field_absent k p a :
  p !! k = None → merge_field k (JObj p) a = (Ret tt, a).
Proof.
  intros Hk. unfold merge_field, bind, lift, read, ret; simpl.
  rewrite bool_decide_eq_false_2; [done|]. intros [? ?]; congruence.
Qed.

Lemma action_result_nothing_to_merge a o p :
  o !! "type" = Some (JStr "ACTION_RESULT") →
  action_payload o = JObj p →
  (∀ k, k ∈ merged_fields → p !! k = None) →
  _handle_ws_message (JObj o) a = (Ret tt, a).
Proof.
  intros Hty Hp Hnone.
  unfold _handle_ws_message, bind at 1, lift at 1; simpl.
  rewrite Hty; simpl.
  unfold bind at 1, lift at 1; simpl.
  unfold bind at 1, lift at 1; simpl. fold (action_payload o).
  rewrite Hp. destruct (truthy _); [|done].
  unfold bind.
  rewrite !merge_field_absent; [done|..];
    apply Hnone; unfold merged_fields; by repeat constructor.
Qed.

Lemma merge_field_non_object k d a :
  (∀ p, d ≠ JObj p) →
  merge_field k d a
  = (match contains k d with
     | Ret false => Ret tt
     | _ => Raise TypeError
     end, a).
Proof.
  intros Hd. unfold merge_field, bind, lift, read, ret; simpl.
  destruct d as [| | | |s|l|p]; simpl; try done.
  - by destruct (occurs k s).
  - by destruct (existsb _ l).
  - by destruct (Hd p).
Qed.

(** A successful [ACTION_RESULT] whose payload is not an object has no
    field to merge: whether the handler returns or raises, the agent is
    left as it was. *)
Lemma action_result_payload_without_fields a o :
  o !! "type" = Some (JStr "ACTION_RESULT") →
  (∀ p, action_payload o ≠ JObj p) →
  snd (_handle_ws_message (JObj o) a) = a.
Proof.
  intros Hty Hp.
  unfold _handle_ws_message, bind at 1, lift at 1; simpl.
  rewrite Hty; simpl.
  unfold bind at 1, lift at 1; simpl.
  unfold bind at 1, lift at 1; simpl. fold (action_payload o).
  destruct (truthy _); [|done]. unfold bind.
  rewrite (merge_field_non_object "x" _ a Hp).
  destruct (contains "x" (action_payload o)) as [[|]|]; try done.
  rewrite (merge_field_non_object "y" _ a Hp).
  destruct (contains "y" (action_payload o)) as [[|]|]; try done.
  rewrite (merge_field_non_object "state" _ a Hp).
  by destruct (contains "state" (action_payload o)) as [[|]|].
Qed.

(** C1.  An [ACTION_RESULT] frame with [success] true is merged into the
    avatar field by field.  With the payload an object [p]: when the
    mirrored avatar is an object [av], the handler returns normally, the
    avatar becomes [partial_merge p av], in which exactly the fields among
    [x], [y], [state] that the payload has are taken from the payload and
    every other field keeps its value, and no other attribute of the agent
    changes; when the payload has none of the three fields, nothing
    changes, whatever the avatar is.  With [success] false the handler
    returns the agent as it was.  A payload that is not an object has no
    fields: the agent is left as it was.  When a field has to be written
    and the mirrored avatar is not an object, the assignment raises and
    nothing is merged. *)
Theorem action_result_partial_merge a o :
  o !! "type" = Some (JStr "ACTION_RESULT") →
  (o !! "success" = Some (JBool true) →
   ∀ p, action_payload o = JObj p →
     (∀ av, avatar a = JObj av →
        _handle_ws_message (JObj o) a =
          (Ret tt, set_avatar (JObj (partial_merge p av)) a)
        ∧ ∀ k, partial_merge p av !! k =
               if bool_decide (k ∈ merged_fields)
               then match p !! k with Some v => Some v | None => av !! k end
               else av !! k)
     ∧ ((∀ k, k ∈ merged_fields → p !! k = None) →
        _handle_ws_message (JObj o) a = (Ret tt, a)))
  ∧ (o !! "success" = Some (JBool false) →
     _handle_ws_message (JObj o) a = (Ret tt, a))
  ∧ ((∀ p, action_payload o ≠ JObj p) →
     snd (_handle_ws_message (JObj o) a) = a).
Proof.
  intros Hty. split; [|split].
  - intros Hs p Hp. split.
    + intros av Hav. split.
      * apply action_result_success; try done.
        unfold field. by rewrite Hs.
      * apply partial_merge_lookup.
    + by apply action_result_nothing_to_merge.
  - intros Hs. apply action_result_failure; [done|].
    unfold field. by rewrite Hs.
  - by apply action_result_payload_without_fields.
Qed.

Lemma action_result_partial_merge_witness :
  _handle_ws_message (JObj action_result_frame)
      (set_avatar (JObj bot1) (init "http://localhost:5173")) =
    (Ret tt,
     set_avatar (JObj {[ "x" := JInt 12; "y" := JInt 5;
                         "name" := JStr "Bot1" ]})
                (init "http://localhost:5173")).
Proof.
  destruct (action_result_partial_merge
              (set_avatar (JObj bot1) (init "http://localhost:5173"))
              action_result_frame eq_refl) as [Hok _].
  destruct (Hok eq_refl {[ "x" := JInt 12; "y" := JInt 5 ]} eq_refl)
    as [Hmerge _].
  destruct (Hmerge bot1 eq_refl) as [-> _].
  vm_compute. reflexivity.
Defined.

(** C1 as the specification words it fails on a session without an
    avatar.  The bootstrap below succeeds and the handshake makes the
    session connected; the status reply has no [avatar], so [get_status]
    leaves the mirrored avatar [None].  The frame
    [{success: true, data: {x: 12, y: 5}}] then raises [TypeError] at the
    first assignment and nothing is merged: the avatar is still [None]. *)
Lemma action_result_before_avatar :
  let frame := Some (JObj action_result_frame) in
  fst (ensure_connected (env_with status_without_avatar) (JStr "PaxAgent")
         prompt_handshake registered_world)
  = Ret (true, [L "Connected and ready"])
  ∧ connected (self unmirrored_world) = true
  ∧ threads unmirrored_world = [InRunForever 0]
  ∧ avatar (self unmirrored_world) = JNull
  ∧ on_message frame (self unmirrored_world)
    = (Raise TypeError, self unmirrored_world)
  ∧ avatar (self (snd (occur (Deliver 0 (OnMessage frame))
                         unmirrored_world))) = JNull.
Proof. by vm_compute. Qed.

(** C2.  An [AUTH_SUCCESS] frame replaces the mirrored avatar, wallet and
    license by the frame's [avatar], [wallet] and [license] fields ([None]
    for a field the frame does not have) and sets [connected]; nothing
    else changes.  This is the state the handler leaves behind, also when
    the formatting of the log line raises afterwards; it returns normally
    whenever the frame's avatar is an object. *)
Theorem auth_success_populates_mirror a o :
  o !! "type" = Some (JStr "AUTH_SUCCESS") →
  let r := _handle_ws_message (JObj o) a in
  snd r = set_license (field o "license")
            (set_wallet (field o "wallet")
               (set_avatar (field o "avatar") (set_connected true a)))
  ∧ connected (snd r) = true
  ∧ avatar (snd r) = field o "avatar"
  ∧ wallet (snd r) = field o "wallet"
  ∧ license (snd r) = field o "license"
  ∧ (∀ av, o !! "avatar" = Some (JObj av) → fst r = Ret tt).
Proof.
  intros Hty.
  assert (Hsnd : snd (_handle_ws_message (JObj o) a) =
            set_license (field o "license")
              (set_wallet (field o "wallet")
                 (set_avatar (field o "avatar") (set_connected true a)))).
  { unfold _handle_ws_message, bind, lift, modify, read, ret; simpl.
    rewrite Hty; simpl. fold (field o "avatar").
    by destruct (field o "avatar"). }
  cbv zeta. rewrite Hsnd. repeat split.
  intros av Hav.
  unfold _handle_ws_message, bind, lift, modify, read, ret; simpl.
  rewrite Hty; simpl. by rewrite Hav.
Qed.

Lemma auth_success_populates_mirror_witness :
  _handle_ws_message (JObj auth_success_frame) (init "http://localhost:5173")
  = (Ret tt,
     Agent "http://localhost:5173" JNull None true (JObj bot1)
           (JObj {[ "cc" := JInt 0 ]}) JNull JNull None false).
Proof.
  pose proof (auth_success_populates_mirror
                (init "http://localhost:5173") auth_success_frame eq_refl)
    as (Hsnd & _ & _ & _ & _ & Hret).
  specialize (Hret bot1 eq_refl).
  destruct (_handle_ws_message _ _) as [r a']; simpl in *.
  subst r a'. reflexivity.
Defined.

(** C6.  A frame, that is a decoded JSON object, whose [type] is none of
    the six recognized kinds (or is missing, or is not a string) is
    ignored: the handler returns normally and the agent, with its mirror
    and its [connected] flag, is exactly as before. *)
Theorem unknown_kind_ignored a o :
  (∀ k, k ∈ recognized_kinds → field o "type" ≠ JStr k) →
  _handle_ws_message (JObj o) a = (Ret tt, a)
  ∧ on_message (Some (JObj o)) a = (Ret tt, a).
Proof.
  intros Hk.
  assert (E : ∀ k, k ∈ recognized_kinds → eq_str (field o "type") k = false).
  { intros k Hin. specialize (Hk k Hin). unfold eq_str.
    destruct (field o "type"); try done.
    destruct (String.eqb_spec s k); congruence. }
  assert (H : _handle_ws_message (JObj o) a = (Ret tt, a)).
  { unfold _handle_ws_message, bind at 1, lift at 1; simpl.
    fold (field o "type").
    rewrite !E by (unfold recognized_kinds; by repeat constructor). done. }
  split; [exact H | exact H].
Qed.

Lemma unknown_kind_ignored_witness :
  _handle_ws_message (JObj {[ "type" := JStr "FUTURE_EVENT" ]})
      (init "http://localhost:5173")
  = (Ret tt, init "http://localhost:5173").
Proof.
  apply (unknown_kind_ignored (init "http://localhost:5173")
           {[ "type" := JStr "FUTURE_EVENT" ]}).
  intros k Hk. unfold recognized_kinds in Hk.
  repeat (apply elem_of_cons in Hk as [->|Hk]; [by vm_compute|]).
  by apply elem_of_nil in Hk.
Defined.

(** C9.  The handler is not total on decoded frames, and [on_message] lets
    its exceptions through.  An [AUTH_SUCCESS] frame without an avatar
    object raises [AttributeError] (after the mirror has been assigned);
    an [ACTION_RESULT] frame with a true [success] and an [x], [y] or
    [state] field raises [TypeError] when the mirrored avatar is still
    [None], and leaves the agent as it was. *)
Theorem handler_raises_on_decoded_frames :
  (∀ a o,
     o !! "type" = Some (JStr "AUTH_SUCCESS") →
     (∀ av, o !! "avatar" ≠ Some (JObj av)) →
     fst (on_message (Some (JObj o)) a) = Raise AttributeError)
  ∧ (∀ a o p k,
       o !! "type" = Some (JStr "ACTION_RESULT") →
       truthy (field o "success") = true →
       action_payload o = JObj p →
       k ∈ merged_fields → is_Some (p !! k) →
       avatar a = JNull →
       on_message (Some (JObj o)) a = (Raise TypeError, a)).
Proof.
  split.
  - intros a o Hty Hav. simpl.
    unfold _handle_ws_message, bind, lift, modify, read, ret; simpl.
    rewrite Hty; simpl.
    destruct (o !! "avatar") as [[]|] eqn:E; simpl; try done.
    by destruct (Hav o0).
  - intros a o p k Hty Hs Hp Hk [v Hv] Hav. simpl.
    unfold _handle_ws_message, bind at 1, lift at 1; simpl.
    rewrite Hty; simpl.
    unfold bind at 1, lift at 1; simpl. fold (field o "success").
    unfold bind at 1, lift at 1; simpl. fold (action_payload o).
    rewrite Hs, Hp.
    assert (Hraise : ∀ j, is_Some (p !! j) →
              merge_field j (JObj p) a = (Raise TypeError, a)).
    { intros j [u Hu]. unfold merge_field, bind, lift, read; simpl.
      rewrite bool_decide_eq_true_2 by eauto. by rewrite Hu, Hav. }
    assert (Hskip : ∀ j, p !! j = None →
              merge_field j (JObj p) a = (Ret tt, a)).
    { intros j Hu. unfold merge_field, bind, lift, read, ret; simpl.
      rewrite bool_decide_eq_false_2; [done|]. intros [? ?]; congruence. }
    unfold bind at 1.
    destruct (p !! "x") as [vx|] eqn:Hx.
    { by rewrite Hraise by eauto. }
    rewrite Hskip by done. unfold bind at 1.
    destruct (p !! "y") as [vy|] eqn:Hy.
    { by rewrite Hraise by eauto. }
    rewrite Hskip by done.
    destruct (p !! "state") as [vs|] eqn:Hst.
    { by rewrite Hraise by eauto. }
    exfalso. unfold merged_fields in Hk.
    repeat (apply elem_of_cons in Hk as [->|Hk]; [congruence|]).
    by apply elem_of_nil in Hk.
Qed.

Lemma handler_raises_on_decoded_frames_witness :
  fst (on_message (Some (JObj {[ "type" := JStr "AUTH_SUCCESS";
                                 "wallet" := JObj {[ "cc" := JInt 0 ]} ]}))
                  (init "http://localhost:5173")) = Raise AttributeError
  ∧ on_message (Some (JObj action_result_frame))
               (init "http://localhost:5173")
    = (Raise TypeError, init "http://localhost:5173").
Proof.
  destruct handler_raises_on_decoded_frames as [H1 H2]. split.
  - apply H1; [reflexivity|]. intros av. by vm_compute.
  - apply (H2 _ _ {[ "x" := JInt 12; "y" := JInt 5 ]} "x");
      try reflexivity.
    + unfold merged_fields. apply elem_of_cons. by left.
    + by eexists.
Defined.

(** The handler writes only [connected] and the mirror. *)
Lemma merge_field_same_session k d : preserves same_session (merge_field k d).
Proof.
  unfold merge_field. preserve_steps.
  apply preserves_modify. intros a. by repeat split.
Qed.

Lemma handler_same_session d : preserves same_session (_handle_ws_message d).
Proof.
  unfold _handle_ws_message.
  preserve_steps; try apply merge_field_same_session;
    apply preserves_modify; intros a; by repeat split.
Qed.

Lemma merge_field_same_phase k d :
  preserves (fun a a' => connected a' = connected a) (merge_field k d).
Proof.
  unfold merge_field. preserve_steps.
  apply preserves_modify. by intros a.
Qed.

(** Only an [AUTH_SUCCESS] frame writes [connected]. *)
Lemma handler_same_phase m a :
  frame_kind_in ["AUTH_SUCCESS"] m = false →
  connected (snd (on_message m a)) = connected a.
Proof.
  intros Hm. destruct m as [d|]; [|done]. simpl.
  destruct d; try done.
  simpl in Hm. rewrite orb_false_r in Hm.
  unfold _handle_ws_message, bind at 1, lift at 1. simpl.
  fold (field o "type"). rewrite Hm.
  revert a.
  lazymatch goal with
  | |- ∀ a, connected (snd (?c a)) = connected a =>
      change (preserves (fun a a' => connected a' = connected a) c)
  end.
  preserve_steps; try apply merge_field_same_phase;
    apply preserves_modify; by intros a.
Qed.

End Handler.

(* ===================================================================== *)
(** ** Theorems: background events *)
(* ===================================================================== *)

#[global] Instance same_session_world_preorder : PreOrder same_session_world.
Proof.
  split.
  - intros w. split; [reflexivity|done].
  - intros a b c [? ?] [? ?]. split; [by etrans|congruence].
Qed.

Section Events.

Implicit Types (w : world) (e : event) (es : list event) (t h : nat).

Lemma preserves_on_self {A} (RA : relation agent) (R : relation world)
    (c : py agent A) :
  preserves RA c →
  (∀ w a', RA (self w) a' → R w (set_self a' w)) →
  preserves R (on_self c).
Proof. intros Hc HR w. unfold on_self. simpl. apply HR, Hc. Qed.

Ltac world_steps :=
  unfold set_thread, set_sock, ws_send, update_self;
  preserve_steps;
  try (apply preserves_modify; intros w; try case_match;
       by repeat split).

Lemma occur_same_session e : preserves same_session_world (occur e).
Proof.
  destruct e as [t|t c]; simpl.
  - unfold _ws_run. world_steps.
  - unfold deliver, on_open. world_steps.
    apply (preserves_on_self same_session); [|by intros w a' ?].
    destruct message; [apply handler_same_session|].
    apply preserves_ret; typeclasses eauto.
Qed.

Lemma occur_all_same_session es : preserves same_session_world (occur_all es).
Proof.
  induction es as [|e es IH]; simpl.
  - apply preserves_ret; typeclasses eauto.
  - apply preserves_bind; [typeclasses eauto|apply occur_same_session|done].
Qed.

(** Background computations do not raise: the loop of [_ws_run] catches
    what [run_forever] raises and the library what the callbacks raise. *)
Lemma occur_returns e w : fst (occur e w) = Ret tt.
Proof.
  destruct e as [t|t c]; simpl.
  - unfold _ws_run, bind, read, modify, set_thread, set_sock, ret. simpl.
    repeat case_match; simpl; done.
  - unfold deliver, bind, read, modify, set_thread, set_sock, ret, swallow.
    simpl. repeat case_match; simpl; done.
Qed.

Lemma occur_all_returns es w : fst (occur_all es w) = Ret tt.
Proof.
  revert w. induction es as [|e es IH]; intros w; simpl; [done|].
  unfold bind. pose proof (occur_returns e w) as He.
  destruct (occur e w) as [r w1]; simpl in He; subst r. apply IH.
Qed.

Lemma occur_all_cons e es w :
  snd (occur_all (e :: es) w) = snd (occur_all es (snd (occur e w))).
Proof.
  simpl. unfold bind. pose proof (occur_returns e w) as He.
  destruct (occur e w) as [r w1]; simpl in *; by subst r.
Qed.

Lemma occur_all_app es1 es2 w :
  snd (occur_all (es1 ++ es2) w) = snd (occur_all es2 (snd (occur_all es1 w))).
Proof.
  revert w. induction es1 as [|e es1 IH]; intros w; [done|].
  rewrite <- app_comm_cons, !occur_all_cons. apply IH.
Qed.

Ltac run_event :=
  unfold occur, _ws_run, deliver, on_open, on_close, on_error, swallow,
    on_self,
    update_self, set_thread, set_sock, ws_send;
  unfold bind, read, modify, ret, raise, lift, getitem;
  simpl.

(** The agent after an event: only a callback running the frame handler or
    [on_close] touches it. *)
Lemma occur_self e w :
  self (snd (occur e w)) = self w
  ∨ (∃ t m, e = Deliver t (OnMessage m)
            ∧ self (snd (occur e w)) = snd (on_message m (self w)))
  ∨ (∃ t, e = Deliver t OnClose
          ∧ self (snd (occur e w)) = set_connected false (self w)).
Proof.
  destruct e as [t|t [|m| |]].
  - left. run_event. repeat case_match; simpl; done.
  - left. run_event. repeat case_match; simpl; done.
  - destruct (threads w !! t) as [[]|] eqn:E;
      [left| |left|left|left]; try (run_event; rewrite E; done).
    right; left. exists t, m. split; [done|]. run_event. by rewrite E.
  - left. run_event. repeat case_match; simpl; done.
  - destruct (threads w !! t) as [[]|] eqn:E;
      [left| |left|left|left]; try (run_event; rewrite E; done).
    right; right. exists t. split; [done|]. run_event. rewrite E.
    by case_match.
Qed.

(** Without an [AUTH_SUCCESS] frame the agent does not become connected. *)
Lemma occur_stays_down e w :
  grants e = false →
  connected (self w) = false →
  connected (self (snd (occur e w))) = false.
Proof.
  intros Hg Hc.
  destruct (occur_self e w) as [->|[(t & m & -> & ->)|(t & -> & ->)]];
    [done| |done].
  simpl in Hg. by rewrite handler_same_phase.
Qed.

Lemma occur_all_stays_down es w :
  (∀ e, e ∈ es → grants e = false) →
  connected (self w) = false →
  connected (self (snd (occur_all es w))) = false.
Proof.
  revert w. induction es as [|e es IH]; intros w Hes Hc; [done|].
  rewrite occur_all_cons. apply IH.
  - intros e' He'. apply Hes. by right.
  - apply occur_stays_down; [|done]. apply Hes. by left.
Qed.

(** The threads after an event: at most one entry is rewritten, and a
    thread finishes only when it finds the running flag cleared. *)
Lemma occur_threads e w :
  threads (snd (occur e w)) = threads w
  ∨ ∃ t st, threads (snd (occur e w)) = <[t := st]> (threads w)
            ∧ (st = Finished → _running (self w) = false).
Proof.
  destruct e as [t|t c].
  - run_event.
    destruct (threads w !! t) as [[]|] eqn:E; simpl; [| | |by left..].
    + destruct (_running (self w)) eqn:Hr; simpl.
      * destruct (ws (self w)); simpl; right; eexists _, _;
          (split; [try case_match; reflexivity|done]).
      * right. eexists _, _. split; [reflexivity|done].
    + right. eexists _, _. split; [try case_match; reflexivity|done].
    + right. eexists _, _. split; [reflexivity|done].
  - run_event.
    destruct (threads w !! t) as [[]|] eqn:E; simpl; [by left| |by left..].
    destruct c; simpl.
    + left. repeat case_match; simpl; done.
    + by left.
    + by left.
    + right. eexists _, _. split; [try case_match; reflexivity|done].
Qed.

Lemma alive_insert t t' st (l : list thread_state) :
  (∃ s, l !! t = Some s ∧ s ≠ Finished) →
  st ≠ Finished →
  ∃ s, <[t' := st]> l !! t = Some s ∧ s ≠ Finished.
Proof.
  intros (s & Hs & Hne) Hst.
  destruct (decide (t' = t)) as [->|Hd].
  - exists st. split; [|done].
    apply list_lookup_insert_eq. by eapply lookup_lt_Some.
  - exists s. split; [|done]. by rewrite list_lookup_insert_ne.
Qed.

(** While the running flag is set no thread leaves [_ws_run]. *)
Lemma occur_alive t e w :
  _running (self w) = true → alive t w → alive t (snd (occur e w)).
Proof.
  intros Hr Ha. unfold alive.
  destruct (occur_threads e w) as [->|(t' & st & -> & Hst)]; [done|].
  apply alive_insert; [done|].
  intros ->. specialize (Hst eq_refl). congruence.
Qed.

Lemma occur_all_alive t es w :
  _running (self w) = true → alive t w → alive t (snd (occur_all es w)).
Proof.
  revert w. induction es as [|e es IH]; intros w Hr Ha; [done|].
  rewrite occur_all_cons. apply IH.
  - destruct (occur_same_session e w) as [(_ & _ & -> & _) _]. done.
  - by apply occur_alive.
Qed.

Lemma openings_app l1 l2 :
  openings (l1 ++ l2)%list = openings l1 + openings l2.
Proof. unfold openings. by rewrite List.filter_app, length_app. Qed.

(** The log after an event: an event adds at most one entry, and a
    connection attempt only when the running flag is set. *)
Lemma occur_log e w :
  log (snd (occur e w)) = log w
  ∨ (∃ h f, log (snd (occur e w)) = (log w ++ [Sent h f])%list)
  ∨ (∃ h, _running (self w) = true ∧ ws (self w) = Some h
          ∧ log (snd (occur e w)) = (log w ++ [Opening h])%list).
Proof.
  destruct e as [t|t c].
  - run_event.
    destruct (threads w !! t) as [[]|] eqn:E; simpl; [| |by left..].
    + destruct (_running (self w)) eqn:Hr; simpl; [|by left].
      destruct (ws (self w)) as [h|]; simpl; [|by left].
      right; right. exists h. repeat split. by case_match.
    + left. by case_match.
  - run_event.
    destruct (threads w !! t) as [[]|] eqn:E; simpl; [by left| |by left..].
    destruct c; simpl; [|by left|by left|left; by case_match].
    repeat case_match; simpl; try (by left); simplify_eq/=;
      try (by left); right; left; eauto.
Qed.

(** With the running flag cleared no event is a connection attempt. *)
Lemma occur_no_opening e w :
  _running (self w) = false →
  openings (log (snd (occur e w))) = openings (log w).
Proof.
  intros Hr.
  destruct (occur_log e w) as [->|[(h & f & ->)|(h & Hr' & _)]];
    [done| |congruence].
  rewrite openings_app. change (openings [Sent h f]) with 0. lia.
Qed.

Lemma occur_all_no_opening es w :
  _running (self w) = false →
  openings (log (snd (occur_all es w))) = openings (log w).
Proof.
  revert w. induction es as [|e es IH]; intros w Hr; [done|].
  rewrite occur_all_cons, IH.
  - by apply occur_no_opening.
  - destruct (occur_same_session e w) as [(_ & _ & -> & _) _]. done.
Qed.

(** *** The steps of the run loop *)

Lemma occur_close t h w :
  threads w !! t = Some (InRunForever h) →
  let w' := snd (occur (Deliver t OnClose) w) in
  threads w' = <[t := Sleeping]> (threads w)
  ∧ log w' = log w
  ∧ self w' = set_connected false (self w).
Proof. intros Ht. run_event. rewrite Ht. by case_match. Qed.

Lemma occur_run_ends t h w :
  threads w !! t = Some (InRunForever h) →
  let w' := snd (occur (Advance t) w) in
  threads w' = <[t := Sleeping]> (threads w)
  ∧ log w' = log w
  ∧ self w' = self w.
Proof. intros Ht. run_event. rewrite Ht. simpl. by case_match. Qed.

Lemma occur_wakes t w :
  threads w !! t = Some Sleeping →
  let w' := snd (occur (Advance t) w) in
  threads w' = <[t := AtLoopTest]> (threads w)
  ∧ log w' = log w
  ∧ self w' = self w.
Proof. intros Ht. run_event. by rewrite Ht. Qed.

Lemma occur_loop_test t h w :
  threads w !! t = Some AtLoopTest →
  _running (self w) = true →
  ws (self w) = Some h →
  let w' := snd (occur (Advance t) w) in
  threads w' = <[t := InRunForever h]> (threads w)
  ∧ log w' = (log w ++ [Opening h])%list
  ∧ self w' = self w.
Proof.
  intros Ht Hr Hws. run_event. rewrite Ht. simpl. rewrite Hr, Hws. simpl.
  by case_match.
Qed.

Lemma occur_loop_exit t w :
  threads w !! t = Some AtLoopTest →
  _running (self w) = false →
  let w' := snd (occur (Advance t) w) in
  threads w' = <[t := Finished]> (threads w)
  ∧ log w' = log w
  ∧ self w' = self w.
Proof. intros Ht Hr. run_event. rewrite Ht. simpl. by rewrite Hr. Qed.

End Events.

(* ===================================================================== *)
(** ** Theorems: the live channel *)
(* ===================================================================== *)

Section Channel.

Implicit Types (w : world) (e : event) (es : list event) (t h : nat).
Implicit Types (env : environment) (sched : nat → list event).

(** C3.  Each of the five actions, called while [connected] is false,
    returns the not-connected failure and leaves the world as it was; in
    particular no frame is sent. *)
Theorem dispatch_requires_connection act w :
  connected (self w) = false →
  dispatch act w = (Ret (false, [L "Not connected"]), w)
  ∧ sent_frames (log (snd (dispatch act w))) = sent_frames (log w).
Proof.
  intros Hc.
  assert (H : dispatch act w = (Ret (false, [L "Not connected"]), w)).
  { destruct act; simpl;
      unfold move_to, interact_with, read_notices, accept_quest, celebrate,
        bind, read, ret; simpl; by rewrite Hc. }
  by rewrite H.
Qed.

Lemma dispatch_requires_connection_witness :
  dispatch (Move (JInt 3) (JInt 4)) registered_world
  = (Ret (false, [L "Not connected"]), registered_world).
Proof.
  apply (dispatch_requires_connection (Move (JInt 3) (JInt 4))
           registered_world).
  reflexivity.
Defined.

(** What [disconnect_websocket] leaves behind. *)
Lemma disconnect_websocket_state w :
  let w1 := snd (disconnect_websocket w) in
  fst (disconnect_websocket w) = Ret tt
  ∧ connected (self w1) = false
  ∧ _running (self w1) = false
  ∧ log w1 = log w
  ∧ threads w1 = threads w
  ∧ cred_file w1 = cred_file w.
Proof.
  unfold disconnect_websocket, ws_close, update_self, bind, read, modify.
  simpl. by destruct (ws (self w)).
Qed.

(** C7.  [disconnect_websocket] returns normally from every state, leaves
    [connected] and the running flag cleared, and a second call changes
    nothing: neither the agent, nor the WebSocketApp objects, nor the
    threads, nor the log. *)
Theorem disconnect_idempotent w :
  let w1 := snd (disconnect_websocket w) in
  fst (disconnect_websocket w) = Ret tt
  ∧ connected (self w1) = false
  ∧ _running (self w1) = false
  ∧ disconnect_websocket w1 = (Ret tt, w1).
Proof.
  destruct (disconnect_websocket_state w) as (Hret & Hc & Hr & _).
  cbv zeta. repeat split; try done.
  unfold disconnect_websocket, ws_close, update_self, bind, read, modify.
  simpl. destruct (ws (self w)) as [h|] eqn:E; simpl.
  - rewrite E. simpl. unfold set_self, set_apps; simpl.
    by rewrite list_insert_insert_eq.
  - by rewrite E.
Qed.

(** *** Polling *)

Lemma poll_returns n i sched w : ∃ b m, fst (poll n i sched w) = Ret (b, m).
Proof.
  revert i w. induction n as [|n IH]; intros i w; simpl.
  - by eexists _, _.
  - unfold bind, read, ret. simpl.
    destruct (connected (self w)); [by eexists _, _|].
    pose proof (occur_all_returns (sched (S i)) w) as Hr.
    destruct (occur_all (sched (S i)) w) as [r w1]; simpl in Hr; subst r.
    apply IH.
Qed.

Lemma poll_same_session n i sched :
  preserves same_session_world (poll n i sched).
Proof.
  revert i. induction n as [|n IH]; intros i; simpl.
  - apply preserves_ret; typeclasses eauto.
  - preserve_steps; [apply occur_all_same_session|apply IH].
Qed.

(** A poll that reports success has seen [connected] set. *)
Lemma poll_success n i sched w m w' :
  poll n i sched w = (Ret (true, m), w') → connected (self w') = true.
Proof.
  revert i w. induction n as [|n IH]; intros i w; simpl.
  - unfold ret. congruence.
  - unfold bind, read, ret. simpl.
    destruct (connected (self w)) eqn:Hc; [congruence|].
    pose proof (occur_all_returns (sched (S i)) w) as Hr.
    destruct (occur_all (sched (S i)) w) as [r w1]; simpl in Hr; subst r.
    apply IH.
Qed.

(** A poll during which no [AUTH_SUCCESS] frame arrives runs out. *)
Lemma poll_timeout n i sched w :
  (∀ j e, i < j ≤ i + n → e ∈ sched j → grants e = false) →
  connected (self w) = false →
  fst (poll n i sched w) = Ret (false, [L "Connection timeout"])
  ∧ connected (self (snd (poll n i sched w))) = false.
Proof.
  revert i w. induction n as [|n IH]; intros i w Hq Hc; simpl; [done|].
  unfold bind, read. simpl. rewrite Hc.
  pose proof (occur_all_returns (sched (S i)) w) as Hr.
  pose proof (occur_all_stays_down (sched (S i)) w) as Hd.
  destruct (occur_all (sched (S i)) w) as [r w1]; simpl in *; subst r.
  apply IH.
  - intros j e Hj. apply Hq. lia.
  - apply Hd; [|done]. intros e He. apply (Hq (S i)); [lia|done].
Qed.

(** [connect_websocket] once its three guards have been passed. *)
Lemma connect_websocket_attempt env sched w :
  HAS_WEBSOCKET env = true →
  truthy (credentials (self w)) = true →
  connected (self w) = false →
  connect_websocket env sched w =
    poll 50 0 sched (snd (occur_all (sched 0) (started w))).
Proof.
  intros Hlib Hcr Hc.
  unfold connect_websocket. rewrite Hlib. cbn [negb].
  rewrite bind_read, Hcr. cbn [negb].
  rewrite bind_read, Hc.
  unfold update_self.
  rewrite bind_read, !bind_modify, bind_read, !bind_modify.
  change (emit _ _) with (started w).
  unfold bind.
  pose proof (occur_all_returns (sched 0) (started w)) as Hr.
  destruct (occur_all (sched 0) (started w)) as [r w1]; cbn [fst snd] in *.
  by subst r.
Qed.

Lemma definitive_grants e : definitive e = false → grants e = false.
Proof.
  destruct e as [|t [|[[]|]| |]]; simpl; try done.
  intros H. apply orb_false_iff in H as [-> _]. done.
Qed.

(** The third guard of [connect_websocket]. *)
Lemma connect_websocket_already env sched w :
  connected (self w) = true →
  HAS_WEBSOCKET env = true →
  truthy (credentials (self w)) = true →
  connect_websocket env sched w = (Ret (true, [L "Already connected"]), w).
Proof.
  intros Hc Hlib Hcr.
  unfold connect_websocket. rewrite Hlib. cbn [negb].
  rewrite bind_read, Hcr. cbn [negb]. by rewrite bind_read, Hc.
Qed.

(** C10.  [connect_websocket] called while [connected] is set returns
    success at once and leaves the whole world as it was: no WebSocketApp
    is created, no thread is started, no frame is sent and no attribute
    of the agent changes.  The two guards that precede the test of
    [connected] in the code, on the library and on the identity, are
    hypotheses; they hold in every session that [connect_websocket] has
    brought up ([live_session_guards]). *)
Theorem connect_when_connected env sched w :
  connected (self w) = true →
  HAS_WEBSOCKET env = true →
  truthy (credentials (self w)) = true →
  connect_websocket env sched w = (Ret (true, [L "Already connected"]), w)
  ∧ apps (snd (connect_websocket env sched w)) = apps w
  ∧ threads (snd (connect_websocket env sched w)) = threads w
  ∧ log (snd (connect_websocket env sched w)) = log w
  ∧ self (snd (connect_websocket env sched w)) = self w.
Proof.
  intros Hc Hlib Hcr.
  by rewrite (connect_websocket_already env sched w Hc Hlib Hcr).
Qed.

(** A connection that succeeded has passed the guards and left
    [connected] set. *)
Lemma connect_success env sched w m w' :
  connect_websocket env sched w = (Ret (true, m), w') →
  connected (self w') = true
  ∧ HAS_WEBSOCKET env = true
  ∧ truthy (credentials (self w')) = true.
Proof.
  intros H.
  destruct (HAS_WEBSOCKET env) eqn:Hlib.
  2: { unfold connect_websocket in H. rewrite Hlib in H. by simplify_eq/=. }
  destruct (truthy (credentials (self w))) eqn:Hcr.
  2: { unfold connect_websocket in H. rewrite Hlib in H. cbn [negb] in H.
       rewrite bind_read, Hcr in H. by simplify_eq/=. }
  destruct (connected (self w)) eqn:Hc.
  - rewrite (connect_websocket_already env sched w Hc Hlib Hcr) in H.
    by simplify_eq.
  - rewrite connect_websocket_attempt in H by done.
    split; [by eapply poll_success|]. split; [done|].
    pose proof (poll_same_session 50 0 sched
                  (snd (occur_all (sched 0) (started w)))) as [(E1&_) _].
    pose proof (occur_all_same_session (sched 0) (started w)) as [(E2&_) _].
    rewrite H in E1. simpl in E1, E2. by rewrite E1, E2.
Qed.

Lemma dispatch_same_session act : preserves same_session_world (dispatch act).
Proof.
  destruct act; simpl;
    unfold move_to, interact_with, read_notices, accept_quest, celebrate,
      with_ws, ws_send;
    preserve_steps; apply preserves_modify; by intros w.
Qed.

Lemma api_request_same_session env ep mt d :
  preserves same_session_world (api_request env ep mt d).
Proof.
  unfold api_request. preserve_steps; apply preserves_modify; by intros w.
Qed.

Lemma get_status_same_session env :
  preserves same_session_world (get_status env).
Proof.
  unfold get_status, update_self.
  preserve_steps; try apply api_request_same_session;
    apply preserves_modify; by intros w.
Qed.

(** In a session brought up by [connect_websocket] the library is present
    and the identity is loaded. *)
Lemma live_session_guards env w :
  live_session env w →
  HAS_WEBSOCKET env = true ∧ truthy (credentials (self w)) = true.
Proof.
  induction 1 as [sched w m w' H|e w _ [IH1 IH2]|act w _ [IH1 IH2]
                 |w _ [IH1 IH2]].
  - by apply connect_success in H as (_ & ? & ?).
  - split; [done|].
    destruct (occur_same_session e w) as [(-> & _) _]. done.
  - split; [done|].
    destruct (dispatch_same_session act w) as [(-> & _) _]. done.
  - split; [done|].
    destruct (get_status_same_session env w) as [(-> & _) _]. done.
Qed.

Lemma connect_when_connected_witness :
  connected (self established_world) = true
  ∧ connect_websocket (env_with friendly) silence established_world
    = (Ret (true, [L "Already connected"]), established_world).
Proof.
  split; [by vm_compute|].
  apply (connect_when_connected (env_with friendly) silence); by vm_compute.
Defined.

(** *** Timeout of the handshake *)

Lemma started_alive w : alive (length (threads w)) (started w).
Proof.
  exists AtLoopTest. split; [|done]. simpl.
  rewrite lookup_app_r by done. by rewrite Nat.sub_diag.
Qed.

Lemma poll_alive t n i sched w :
  _running (self w) = true → alive t w → alive t (snd (poll n i sched w)).
Proof.
  revert i w. induction n as [|n IH]; intros i w Hrun Ha; [done|].
  cbn [poll]. rewrite bind_read.
  destruct (connected (self w)); [done|].
  unfold bind.
  pose proof (occur_all_returns (sched (S i)) w) as Hr.
  pose proof (occur_all_alive t (sched (S i)) w Hrun Ha) as Ha1.
  pose proof (occur_all_same_session (sched (S i)) w)
    as [(_ & _ & Erun1 & _) _].
  destruct (occur_all (sched (S i)) w) as [r w1]; simpl in *; subst r.
  apply IH; [congruence|done].
Qed.

(** C4, as the code has it.  A connection attempt during which no
    [AUTH_SUCCESS] or [AUTH_FAILED] frame arrives in the fifty polls is
    reported as failed with "Connection timeout", and the channel is left
    as it is: the running flag stays set, the agent keeps the handle of
    the WebSocketApp and of the thread it has just created, and that
    thread has not left its loop. *)
Theorem connect_timeout_keeps_channel env sched w :
  HAS_WEBSOCKET env = true →
  truthy (credentials (self w)) = true →
  connected (self w) = false →
  (∀ i e, (i ≤ 50)%nat → e ∈ sched i → definitive e = false) →
  let r := connect_websocket env sched w in
  fst r = Ret (false, [L "Connection timeout"])
  ∧ connected (self (snd r)) = false
  ∧ _running (self (snd r)) = true
  ∧ ws (self (snd r)) = Some (length (apps w))
  ∧ _ws_thread (self (snd r)) = Some (length (threads w))
  ∧ alive (length (threads w)) (snd r).
Proof.
  intros Hlib Hcr Hc Hq. cbv zeta.
  rewrite connect_websocket_attempt by done.
  set (w0 := snd (occur_all (sched 0) (started w))).
  assert (Hc0 : connected (self w0) = false).
  { apply occur_all_stays_down; [|done].
    intros e He. apply definitive_grants, (Hq 0); [lia|done]. }
  destruct (poll_timeout 50 0 sched w0) as [Hr Hd]; [|done|].
  { intros j e Hj He. apply definitive_grants, (Hq j); [lia|done]. }
  pose proof (occur_all_same_session (sched 0) (started w))
    as [(_ & Ews & Erun & Eth & _) _].
  pose proof (poll_same_session 50 0 sched w0)
    as [(_ & Ews' & Erun' & Eth' & _) _].
  fold w0 in Ews, Erun, Eth. simpl in Ews, Erun, Eth.
  assert (Ha0 : alive (length (threads w)) w0).
  { apply occur_all_alive; [done|apply started_alive]. }
  repeat split; try done; try congruence.
  apply poll_alive; [congruence|done].
Qed.

Lemma connect_timeout_keeps_channel_witness :
  let r := connect_websocket (env_with friendly) no_answer registered_world in
  fst r = Ret (false, [L "Connection timeout"])
  ∧ connected (self (snd r)) = false
  ∧ _running (self (snd r)) = true
  ∧ ws (self (snd r)) = Some 0
  ∧ _ws_thread (self (snd r)) = Some 0
  ∧ alive 0 (snd r).
Proof.
  apply (connect_timeout_keeps_channel (env_with friendly) no_answer
           registered_world); try reflexivity.
  intros i e _ He. destruct i; simpl in He.
  - apply list_elem_of_singleton in He as ->. reflexivity.
  - by apply elem_of_nil in He.
Defined.

(** C4 as the specification words it fails: the attempt below is reported
    as failed while its thread is inside [run_forever] with the running
    flag set; when the server answers afterwards, the thread sends the
    auth frame and the late [AUTH_SUCCESS] makes the session connected. *)
Lemma connect_timeout_no_teardown :
  let r := connect_websocket (env_with friendly) no_answer registered_world in
  let late := [Deliver 0 OnOpen;
               Deliver 0 (OnMessage (Some (JObj auth_success_frame)))] in
  (∀ i e, (i ≤ 50)%nat → e ∈ no_answer i → definitive e = false)
  ∧ fst r = Ret (false, [L "Connection timeout"])
  ∧ _running (self (snd r)) = true
  ∧ threads (snd r) = [InRunForever 0]
  ∧ apps (snd r) = [WsApp false true]
  ∧ sent_frames (log (snd r)) = []
  ∧ length (sent_frames (log (snd (occur_all late (snd r))))) = 1
  ∧ connected (self (snd (occur_all late (snd r)))) = true.
Proof.
  cbv zeta. split.
  - intros i e _ He. destruct i; simpl in He.
    + apply list_elem_of_singleton in He as ->. reflexivity.
    + by apply elem_of_nil in He.
  - by vm_compute.
Qed.

(** *** The run loop after the channel has ended *)

(** C5, as the code has it.  When the channel of an established session
    ends, by a close or by an error, the thread sleeps and, finding the
    running flag still set, calls [run_forever] again: the only entry this
    adds to the log is a new connection attempt on the agent's channel.
    Once [disconnect_websocket] has been called, no background event is a
    connection attempt any more. *)
Theorem run_loop_reopens_until_disconnect w t h h' :
  threads w !! t = Some (InRunForever h) →
  _running (self w) = true →
  ws (self w) = Some h' →
  (let w' := snd (occur_all [Deliver t OnClose; Advance t; Advance t] w) in
   log w' = (log w ++ [Opening h'])%list
   ∧ threads w' !! t = Some (InRunForever h'))
  ∧ (let w' := snd (occur_all [Advance t; Advance t; Advance t] w) in
     log w' = (log w ++ [Opening h'])%list
     ∧ threads w' !! t = Some (InRunForever h'))
  ∧ (∀ es,
       openings (log (snd (occur_all es (snd (disconnect_websocket w)))))
       = openings (log w)).
Proof.
  intros Ht Hr Hws.
  assert (Hlt : t < length (threads w)) by (by eapply lookup_lt_Some).
  assert (Hretry : ∀ w1,
            threads w1 = <[t := Sleeping]> (threads w) →
            log w1 = log w → _running (self w1) = true →
            ws (self w1) = Some h' →
            let w' := snd (occur_all [Advance t; Advance t] w1) in
            log w' = (log w ++ [Opening h'])%list
            ∧ threads w' !! t = Some (InRunForever h')).
  { intros w1 Et1 El1 Er1 Ew1. cbv zeta.
    rewrite !occur_all_cons. cbn [occur_all ret snd].
    destruct (occur_wakes t w1) as (Et2 & El2 & Es2).
    { rewrite Et1. by apply list_lookup_insert_eq. }
    destruct (occur_loop_test t h' (snd (occur (Advance t) w1)))
      as (Et3 & El3 & _).
    { rewrite Et2. apply list_lookup_insert_eq.
      by rewrite Et1, length_insert. }
    { by rewrite Es2. }
    { by rewrite Es2. }
    split; [by rewrite El3, El2, El1|].
    rewrite Et3. apply list_lookup_insert_eq.
    by rewrite Et2, Et1, !length_insert. }
  split; [|split].
  - cbv zeta. rewrite occur_all_cons.
    destruct (occur_close t h w Ht) as (Et1 & El1 & Es1).
    apply Hretry; try done; by rewrite Es1.
  - cbv zeta. rewrite occur_all_cons.
    destruct (occur_run_ends t h w Ht) as (Et1 & El1 & Es1).
    apply Hretry; try done; by rewrite Es1.
  - intros es. rewrite occur_all_no_opening.
    + unfold disconnect_websocket, ws_close, update_self, bind, read, modify.
      simpl. by rewrite Hws.
    + by destruct (disconnect_websocket_state w) as (_ & _ & ? & _).
Qed.

Lemma run_loop_reopens_until_disconnect_witness :
  log (snd (occur_all [Deliver 0 OnClose; Advance 0; Advance 0]
              established_world))
    = (log established_world ++ [Opening 0])%list
  ∧ openings (log (snd (occur_all [Advance 0; Advance 0; Advance 0]
                          (snd (disconnect_websocket established_world)))))
    = openings (log established_world).
Proof.
  assert (H1 : threads established_world !! 0 = Some (InRunForever 0))
    by (vm_compute; reflexivity).
  assert (H2 : _running (self established_world) = true)
    by (vm_compute; reflexivity).
  assert (H3 : ws (self established_world) = Some 0)
    by (vm_compute; reflexivity).
  pose proof (run_loop_reopens_until_disconnect established_world 0 0 0
                H1 H2 H3) as (Ha & _ & Hc).
  cbv zeta in Ha. split; [exact (proj1 Ha)|apply Hc].
Defined.

(** C5 as the specification words it fails: in the established session
    below the channel closes, and without any call from outside the
    background thread makes a second connection attempt and repeats the
    handshake, after which the session is connected again. *)
Lemma channel_reopens_by_itself :
  let r := connect_websocket (env_with friendly) prompt_handshake
             registered_world in
  let closing := [Deliver 0 OnClose] in
  let retry := [Advance 0; Advance 0; Deliver 0 OnOpen;
                Deliver 0 (OnMessage (Some (JObj auth_success_frame)))] in
  let w1 := snd (occur_all closing (snd r)) in
  let w2 := snd (occur_all retry w1) in
  fst r = Ret (true, [L "Connected"])
  ∧ openings (log (snd r)) = 1
  ∧ connected (self w1) = false
  ∧ threads w1 = [Sleeping]
  ∧ openings (log w2) = 2
  ∧ length (sent_frames (log w2)) = 2
  ∧ connected (self w2) = true.
Proof. by vm_compute. Qed.

End Channel.

(* ===================================================================== *)
(** ** Theorems: the bootstrap *)
(* ===================================================================== *)

Section Bootstrap.

Implicit Types (w : world) (env : environment) (name : json).
Implicit Types (sched : nat → list event).

Lemma bind_ret_inv {S A B} (c : py S A) (k : A → py S B) s v s' :
  bind c k s = (Ret v, s') →
  ∃ u s1, c s = (Ret u, s1) ∧ k u s1 = (Ret v, s').
Proof.
  unfold bind. destruct (c s) as [[u|e] s1]; [|done]. intros H. eauto.
Qed.

Lemma bind_step {S A B} (c : py S A) (k : A → py S B) s u s1 :
  c s = (Ret u, s1) → bind c k s = k u s1.
Proof. intros H. unfold bind. by rewrite H. Qed.

(** [ensure_connected], step by step. *)
Lemma ensure_connected_eq env name sched w :
  ensure_connected env name sched w =
    match load_credentials w with
    | (Raise e, w0) => (Raise e, w0)
    | (Ret true, w1) => authenticate_then env sched w1
    | (Ret false, w0) =>
        match register env name w0 with
        | (Raise e, w1) => (Raise e, w1)
        | (Ret (false, r), w1) =>
            match get r "message" JNull with
            | Ret m => (Ret (false, [L "Registration failed: "; V m]), w1)
            | Raise e => (Raise e, w1)
            end
        | (Ret (true, r), w1) =>
            match get r "signer_id" JNull with
            | Ret _ => authenticate_then env sched w1
            | Raise e => (Raise e, w1)
            end
        end
    end.
Proof.
  unfold ensure_connected. unfold bind at 1.
  destruct (load_credentials w) as [[[|]|e] w0]; [| |done].
  - cbn [negb]. by rewrite bind_ret.
  - cbn [negb]. rewrite bind_bind. unfold bind at 1.
    destruct (register env name w0) as [[[[|] r]|e] w1]; [| |done].
    + cbn [negb fst snd]. rewrite bind_bind. unfold bind at 1, lift at 1.
      destruct (get r "signer_id" JNull); [|done].
      by rewrite !bind_ret.
    + cbn [negb fst snd]. rewrite bind_bind. unfold bind at 1, lift at 1.
      destruct (get r "message" JNull); [|done].
      by rewrite !bind_ret.
Qed.

(** What [register] and [authenticate] return as their second component
    is an object. *)
Lemma register_result env name w b r w' :
  register env name w = (Ret (b, r), w') → ∃ o, r = JObj o.
Proof.
  unfold register. intros H.
  apply bind_ret_inv in H as (result & w1 & _ & H).
  apply bind_ret_inv in H as (ok & w2 & Hok & H).
  unfold lift, get in Hok. destruct result; try done.
  destruct (truthy ok).
  - repeat (apply bind_ret_inv in H as (? & ? & _ & H)).
    unfold ret in H. simplify_eq. eauto.
  - unfold ret in H. simplify_eq. eauto.
Qed.

Lemma authenticate_result env w b r w' :
  authenticate env w = (Ret (b, r), w') → ∃ o, r = JObj o.
Proof.
  unfold authenticate. rewrite bind_read.
  destruct (truthy (credentials (self w))); cbn [negb]; intros H.
  - apply bind_ret_inv in H as (key & w1 & _ & H).
    apply bind_ret_inv in H as (result & w2 & _ & H).
    apply bind_ret_inv in H as (ok & w3 & Hok & H).
    unfold lift, get in Hok. destruct result; try done.
    destruct (truthy ok).
    + repeat (apply bind_ret_inv in H as (? & ? & _ & H)).
      unfold ret in H. simplify_eq. eauto.
    + unfold ret in H. simplify_eq. eauto.
  - unfold ret in H. simplify_eq. eauto.
Qed.

(** After authentication the bootstrap has no failure return left. *)
Lemma after_authentication_result env sched w b m w' :
  after_authentication env sched w = (Ret (b, m), w') →
  b = true ∧ m = [L "Connected and ready"].
Proof.
  unfold after_authentication. intros H.
  repeat (apply bind_ret_inv in H as (? & ? & _ & H)).
  unfold ret in H. by simplify_eq.
Qed.

Lemma authenticate_then_failure env sched w m w' :
  authenticate_then env sched w = (Ret (false, m), w') ↔
  ∃ r, authenticate env w = (Ret (false, r), w')
       ∧ ∃ v, get r "message" JNull = Ret v ∧ m = [L "Auth failed: "; V v].
Proof.
  unfold authenticate_then. split.
  - intros H. apply bind_ret_inv in H as ([[|] r] & w1 & Ha & H);
      cbn [negb fst snd] in H.
    + by apply after_authentication_result in H as [? _].
    + apply bind_ret_inv in H as (v & w2 & Hv & H).
      unfold lift in Hv. unfold ret in H. simplify_eq. eauto.
  - intros (r & Ha & v & Hv & ->).
    rewrite (bind_step _ _ _ _ _ Ha). cbn [negb fst snd].
    unfold lift. by rewrite Hv.
Qed.

(** *** The bootstrap with a transport that gives normalized results *)

Lemma get_obj o k d : get (JObj o) k d = Ret (default d (o !! k)).
Proof. reflexivity. Qed.

Lemma connect_websocket_returns env sched w :
  ∃ b m, fst (connect_websocket env sched w) = Ret (b, m).
Proof.
  unfold connect_websocket.
  destruct (HAS_WEBSOCKET env) eqn:Hlib; cbn [negb]; [|by eexists _, _].
  rewrite bind_read.
  destruct (truthy (credentials (self w))) eqn:Hcr; cbn [negb];
    [|by eexists _, _].
  rewrite bind_read.
  destruct (connected (self w)) eqn:Hc; [by eexists _, _|].
  pose proof (connect_websocket_attempt env sched w Hlib Hcr Hc) as E.
  unfold connect_websocket in E. rewrite Hlib in E. cbn [negb] in E.
  rewrite bind_read, Hcr in E. cbn [negb] in E. rewrite bind_read, Hc in E.
  rewrite E. apply poll_returns.
Qed.

Lemma connect_websocket_credentials env sched w :
  credentials (self (snd (connect_websocket env sched w)))
  = credentials (self w).
Proof.
  destruct (HAS_WEBSOCKET env) eqn:Hlib.
  2: { unfold connect_websocket. by rewrite Hlib. }
  destruct (truthy (credentials (self w))) eqn:Hcr.
  2: { unfold connect_websocket. rewrite Hlib. cbn [negb].
       by rewrite bind_read, Hcr. }
  destruct (connected (self w)) eqn:Hc.
  - by rewrite (connect_websocket_already env sched w Hc Hlib Hcr).
  - rewrite connect_websocket_attempt by done.
    pose proof (poll_same_session 50 0 sched
                  (snd (occur_all (sched 0) (started w)))) as [(E1&_) _].
    pose proof (occur_all_same_session (sched 0) (started w)) as [(E2&_) _].
    simpl in E2. by rewrite E1, E2.
Qed.

Lemma api_request_normal env ep mt d w :
  normalized env → credentials_ok w →
  ∃ o w', api_request env ep mt d w = (Ret (JObj o), w')
          ∧ wallet_ok o
          ∧ self w' = self w.
Proof.
  intros Hn Hcr. unfold api_request. rewrite bind_read.
  assert (Hauth : ∃ a,
    (if truthy (credentials (self w))
     then let! key := lift (get (credentials (self w)) "api_key" (JStr ""))
          in ret (Some key)
     else ret None) w = (Ret a, w)).
  { destruct (truthy (credentials (self w))) eqn:E; [|by eexists].
    destruct (Hcr E) as [o ->]. by eexists. }
  destruct Hauth as [a Ha]. rewrite (bind_step _ _ _ _ _ Ha).
  rewrite bind_read, bind_modify.
  specialize (Hn (log w) (Request ep mt a
    match d with
    | Some d0 => if truthy d0 then Some d0 else None
    | None => None
    end)).
  destruct (transport env (log w) _) as [j|j|code|reason|e]; [| | | |done].
  - destruct Hn as (o & -> & Hw). by eexists _, _.
  - destruct Hn as (o & -> & Hw). by eexists _, _.
  - eexists _, _. split; [reflexivity|]. split; [|done].
    intros v Hv. by rewrite !lookup_insert_ne in Hv.
  - eexists _, _. split; [reflexivity|]. split; [|done].
    intros v Hv. by rewrite !lookup_insert_ne in Hv.
Qed.

Lemma get_status_normal env w :
  normalized env → credentials_ok w →
  ∃ o w', get_status env w = (Ret (JObj o), w')
          ∧ wallet_ok o
          ∧ credentials (self w') = credentials (self w).
Proof.
  intros Hn Hcr. unfold get_status.
  destruct (api_request_normal env "/api/world/bot/status" "GET" None w
              Hn Hcr) as (o & w1 & E & Hw & Hs).
  rewrite (bind_step _ _ _ _ _ E).
  rewrite get_obj, bind_lift_ret.
  destruct (truthy (default JNull (o !! "ok"))).
  - unfold update_self. rewrite !get_obj.
    eexists _, _. split; [reflexivity|]. split; [done|].
    simpl. by rewrite Hs.
  - eexists _, _. split; [reflexivity|].
    split; [done|]. by rewrite Hs.
Qed.

Lemma credentials_ok_same w w' :
  credentials (self w') = credentials (self w) →
  credentials_ok w → credentials_ok w'.
Proof. unfold credentials_ok. intros ->. done. Qed.

Lemma after_authentication_normal env sched w :
  normalized env → credentials_ok w →
  ∃ w', after_authentication env sched w
        = (Ret (true, [L "Connected and ready"]), w')
        ∧ credentials (self w') = credentials (self w).
Proof.
  intros Hn Hcr. unfold after_authentication.
  assert (Hconn : ∃ w1,
    (if HAS_WEBSOCKET env
     then connect_websocket env sched >> ret tt
     else ret tt) w = (Ret tt, w1)
    ∧ credentials (self w1) = credentials (self w)).
  { destruct (HAS_WEBSOCKET env); [|by eexists].
    destruct (connect_websocket_returns env sched w) as (b & m & E).
    pose proof (connect_websocket_credentials env sched w) as Ec.
    unfold bind. destruct (connect_websocket env sched w) as [r w1].
    simpl in *. subst r. by eexists. }
  destruct Hconn as (w1 & E1 & Ec1). rewrite (bind_step _ _ _ _ _ E1).
  destruct (get_status_normal env w1 Hn) as (o & w2 & E2 & Hw & Ec2).
  { by eapply credentials_ok_same. }
  rewrite (bind_step _ _ _ _ _ E2).
  rewrite get_obj, bind_lift_ret.
  assert (Htut : ∃ b,
    (if truthy (default JNull (o !! "ok")) then
       let! wallet := lift (get (JObj o) "wallet" (JObj ∅)) in
       let! cc := lift (get wallet "cc" (JInt 0)) in
       ret (eq_zero cc)
     else ret false) w2 = (Ret b, w2)).
  { destruct (truthy _); [|by eexists].
    rewrite get_obj, bind_lift_ret.
    destruct (o !! "wallet") as [v|] eqn:Ev; simpl.
    - destruct (Hw v Ev) as [wl ->]. by eexists.
    - by eexists. }
  destruct Htut as [b Htut]. rewrite (bind_step _ _ _ _ _ Htut).
  destruct b.
  - unfold complete_task.
    destruct (api_request_normal env "/api/world/task" "POST"
                (Some (JObj {[ "task_id" := JStr "tutorial" ]})) w2 Hn)
      as (o3 & w3 & E3 & _ & Es3).
    { eapply credentials_ok_same; [|exact Hcr]. congruence. }
    rewrite !bind_bind, (bind_step _ _ _ _ _ E3), !bind_ret.
    eexists. split; [reflexivity|]. rewrite Es3. congruence.
  - rewrite !bind_ret. eexists. split; [reflexivity|]. congruence.
Qed.

(** A successful authentication leaves credentials that are an object. *)
Lemma authenticate_success env w r w' :
  authenticate env w = (Ret (true, r), w') → credentials_ok w'.
Proof.
  unfold authenticate. rewrite bind_read.
  destruct (truthy (credentials (self w))) eqn:Ht; cbn [negb];
    [|unfold ret; congruence].
  intros H.
  apply bind_ret_inv in H as (key & w1 & Hk & H).
  unfold lift, getitem in Hk.
  destruct (credentials (self w)) as [| | | | | |o] eqn:Ecr; try done.
  assert (w1 = w) by (by simplify_eq). subst w1.
  assert (Hcred : credentials (self w') = JObj o).
  { apply bind_ret_inv in H as (result & w2 & Hreq & H).
    pose proof (api_request_same_session env "/api/world/bot/auth" "POST"
                  (Some (JObj {[ "token" := key ]})) w) as [(E2 & _) _].
    rewrite Hreq in E2. simpl in E2.
    apply bind_ret_inv in H as (ok & w3 & Hok & H).
    unfold lift in Hok. assert (w3 = w2) by (by simplify_eq). subst w3.
    destruct (truthy ok); [|unfold ret in H; congruence].
    apply bind_ret_inv in H as (v & w4 & Hv & H).
    unfold lift in Hv. assert (w4 = w2) by (by simplify_eq). subst w4.
    apply bind_ret_inv in H as (? & w5 & Hup & H).
    unfold update_self, modify in Hup. unfold ret in H. simplify_eq.
    simpl. congruence. }
  intros _. eauto.
Qed.

(** What the first two steps raise, the bootstrap raises. *)
Lemma ensure_connected_propagates env name sched w e :
  (∀ w0, load_credentials w = (Raise e, w0) →
         ensure_connected env name sched w = (Raise e, w0))
  ∧ (∀ w0 w1, load_credentials w = (Ret false, w0) →
              register env name w0 = (Raise e, w1) →
              ensure_connected env name sched w = (Raise e, w1))
  ∧ (∀ w1 w2, identity_ready env name w w1 →
              authenticate env w1 = (Raise e, w2) →
              ensure_connected env name sched w = (Raise e, w2)).
Proof.
  rewrite ensure_connected_eq. repeat split.
  - by intros w0 ->.
  - by intros w0 w1 -> ->.
  - intros w1 w2 Hid Ha.
    assert (Hthen : authenticate_then env sched w1 = (Raise e, w2)).
    { unfold authenticate_then, bind. by rewrite Ha. }
    destruct Hid as [->|(w0 & r & -> & Hr)]; [done|].
    rewrite Hr. destruct (register_result _ _ _ _ _ _ Hr) as [o ->].
    by rewrite get_obj.
Qed.

(** C8.  [ensure_connected] returns failure exactly when there is no
    stored identity and [register] returns failure, or an identity is
    there and [authenticate] returns failure.  Once authentication has
    succeeded, and the transport gives normalized results, it returns
    success whatever happens on the live channel (for every schedule of
    background events, so also when [connect_websocket] times out), and
    the status query still answers in the state it leaves. *)
Theorem ensure_connected_outcome env name sched w :
  ((∃ m w', ensure_connected env name sched w = (Ret (false, m), w'))
   ↔ registration_fails env name w ∨ authentication_fails env name w)
  ∧ (normalized env →
     ∀ w2, authentication_succeeds env name w w2 →
       ∃ w', ensure_connected env name sched w
             = (Ret (true, [L "Connected and ready"]), w')
             ∧ ∃ o w'', get_status env w' = (Ret (JObj o), w'')).
Proof.
  rewrite ensure_connected_eq. split; [split|].
  - (* a failure return comes from one of the two steps *)
    intros (m & w' & H).
    destruct (load_credentials w) as [[[|]|e] w0] eqn:Hl; [| |done].
    + right. apply authenticate_then_failure in H as (r & Ha & _).
      exists w0, r, w'. split; [by left|done].
    + destruct (register env name w0) as [[[[|] r]|e] w1] eqn:Hr; [| |done].
      * destruct (register_result _ _ _ _ _ _ Hr) as [o ->].
        rewrite get_obj in H.
        right. apply authenticate_then_failure in H as (r & Ha & _).
        exists w1, r, w'. split; [right; eauto|done].
      * left. by exists w0, r, w1.
  - (* and each of the two is a failure return *)
    intros [(w0 & r & w1 & Hl & Hr)|(w1 & r & w2 & Hid & Ha)].
    + rewrite Hl, Hr. destruct (register_result _ _ _ _ _ _ Hr) as [o ->].
      rewrite get_obj. eauto.
    + destruct (authenticate_result _ _ _ _ _ Ha) as [o ->].
      assert (Hf : authenticate_then env sched w1
                   = (Ret (false, [L "Auth failed: ";
                                   V (default JNull (o !! "message"))]), w2)).
      { apply authenticate_then_failure. eauto. }
      destruct Hid as [Hl|(w0 & r & Hl & Hr)].
      * rewrite Hl. eauto.
      * rewrite Hl, Hr. destruct (register_result _ _ _ _ _ _ Hr) as [o' ->].
        rewrite get_obj. eauto.
  - (* the live channel is not needed *)
    intros Hn w2 (w1 & r & Hid & Ha).
    assert (Hok : credentials_ok w2) by (by eapply authenticate_success).
    destruct (after_authentication_normal env sched w2 Hn Hok)
      as (w' & Hafter & Ecr).
    assert (Hthen : authenticate_then env sched w1
                    = (Ret (true, [L "Connected and ready"]), w')).
    { unfold authenticate_then. by rewrite (bind_step _ _ _ _ _ Ha). }
    destruct (get_status_normal env w' Hn) as (o & w'' & Hst & _).
    { by eapply credentials_ok_same. }
    exists w'. split; [|eauto].
    destruct Hid as [Hl|(w0 & r0 & Hl & Hr)].
    + by rewrite Hl.
    + rewrite Hl, Hr. destruct (register_result _ _ _ _ _ _ Hr) as [o' ->].
      by rewrite get_obj.
Qed.

Lemma friendly_normalized : normalized (env_with friendly).
Proof.
  intros history r. simpl. unfold friendly.
  repeat case_match; simplify_eq; eexists; (split; [reflexivity|]);
    intros v Hv; vm_compute in Hv; simplify_eq; eauto.
Qed.

Lemma ensure_connected_outcome_witness :
  (∃ m w', ensure_connected (env_with name_taken) (JStr "PaxAgent") silence
             fresh_world = (Ret (false, m), w'))
  ∧ (∃ w', ensure_connected (env_with friendly) (JStr "PaxAgent") silence
             fresh_world = (Ret (true, [L "Connected and ready"]), w')).
Proof.
  split.
  - apply (ensure_connected_outcome (env_with name_taken) (JStr "PaxAgent")
             silence fresh_world).
    left. exists fresh_world. eexists _, _. split; [reflexivity|].
    vm_compute. reflexivity.
  - destruct (ensure_connected_outcome (env_with friendly) (JStr "PaxAgent")
                silence fresh_world) as [_ H].
    specialize (H friendly_normalized).
    edestruct H as (w' & Hw' & _); [|by exists w'].
    eexists _, _. split.
    + right. exists fresh_world. eexists. split; [reflexivity|].
      vm_compute. reflexivity.
    + vm_compute. reflexivity.
Defined.

(** The run of the witness: the live channel times out, the bootstrap
    succeeds, the session is not connected. *)
Lemma bootstrap_without_live_channel :
  let r := ensure_connected (env_with friendly) (JStr "PaxAgent") silence
             fresh_world in
  fst r = Ret (true, [L "Connected and ready"])
  ∧ connected (self (snd r)) = false
  ∧ _running (self (snd r)) = true
  ∧ sent_frames (log (snd r)) = [].
Proof. by vm_compute. Qed.

End Bootstrap.

(* ===================================================================== *)
(** ** Further properties: the frame handler *)
(* ===================================================================== *)

Section HandlerMore.

Implicit Types (a : agent) (o p : gmap string json) (k : string).

Lemma handler_world_state a o :
  o !! "type" = Some (JStr "WORLD_STATE") →
  _handle_ws_message (JObj o) a
  = (Ret tt, set_world_state (field o "state") a).
Proof.
  intros Hty. unfold _handle_ws_message, bind, lift, modify; simpl.
  by rewrite Hty.
Qed.

(** X1.  A [WORLD_STATE] frame replaces the mirrored world snapshot by the
    frame's [state] ([None] when the frame has none) and touches nothing
    else; of two such frames in a row only the second one is left: the
    snapshots are not merged. *)
Theorem world_state_last_frame_wins a o1 o2 :
  o1 !! "type" = Some (JStr "WORLD_STATE") →
  o2 !! "type" = Some (JStr "WORLD_STATE") →
  _handle_ws_message (JObj o1) a
    = (Ret tt, set_world_state (field o1 "state") a)
  ∧ _handle_ws_message (JObj o2) (snd (_handle_ws_message (JObj o1) a))
    = (Ret tt, set_world_state (field o2 "state") a).
Proof.
  intros H1 H2. by rewrite !handler_world_state.
Qed.

Lemma world_state_last_frame_wins_witness :
  world_state
    (snd (_handle_ws_message (JObj snapshot_frame_2)
            (snd (_handle_ws_message (JObj snapshot_frame_1)
                    (init "http://localhost:5173")))))
  = JObj {[ "botCount" := JInt 2 ]}.
Proof.
  destruct (world_state_last_frame_wins (init "http://localhost:5173")
              snapshot_frame_1 snapshot_frame_2 eq_refl eq_refl) as [_ ->].
  reflexivity.
Defined.

(** X2.  The frames that only inform ([AUTH_FAILED], [AVATAR_UPDATE],
    [LEDGER_EVENT]) leave the agent exactly as it was.  The first two
    always return normally; a [LEDGER_EVENT] returns normally when its
    [event] is an object or missing and raises [AttributeError] when it is
    anything else (for instance [null]). *)
Theorem informational_frames_leave_agent a o :
  (o !! "type" = Some (JStr "AUTH_FAILED") →
   _handle_ws_message (JObj o) a = (Ret tt, a))
  ∧ (o !! "type" = Some (JStr "AVATAR_UPDATE") →
     _handle_ws_message (JObj o) a = (Ret tt, a))
  ∧ (o !! "type" = Some (JStr "LEDGER_EVENT") →
     _handle_ws_message (JObj o) a
     = (match o !! "event" with
        | None | Some (JObj _) => Ret tt
        | Some _ => Raise AttributeError
        end, a)).
Proof.
  repeat split; intros Hty;
    unfold _handle_ws_message, bind, lift, ret; simpl; rewrite Hty; simpl;
    try done.
  by destruct (o !! "event") as [[]|].
Qed.

Lemma auth_success_state a o :
  o !! "type" = Some (JStr "AUTH_SUCCESS") →
  connected (snd (_handle_ws_message (JObj o) a)) = true.
Proof.
  intros Hty. unfold _handle_ws_message, bind, lift, modify, read, ret; simpl.
  rewrite Hty; simpl. by destruct (default JNull (o !! "avatar")).
Qed.

(** X3.  No inbound message, whatever it decodes to and whether the
    handler returns or raises, changes the agent's credentials, channel
    handle, thread handle, running flag or server; none clears
    [connected]; and only an [AUTH_SUCCESS] frame changes [connected] at
    all. *)
Theorem frames_never_touch_session (message : option json) a :
  let a' := snd (on_message message a) in
  same_session a a'
  ∧ (connected a = true → connected a' = true)
  ∧ (frame_kind_in ["AUTH_SUCCESS"] message = false →
     connected a' = connected a).
Proof.
  cbv zeta. split; [|split].
  - destruct message as [d|]; simpl; [apply handler_same_session|].
    reflexivity.
  - intros Hc.
    destruct (frame_kind_in ["AUTH_SUCCESS"] message) eqn:Hk.
    + destruct message as [[| | | | | |o]|]; try done. simpl in *.
      rewrite orb_false_r in Hk. apply auth_success_state.
      unfold field, eq_str in Hk.
      destruct (o !! "type") as [[]|]; try done.
      by apply String.eqb_eq in Hk as ->.
    + by rewrite handler_same_phase.
  - apply handler_same_phase.
Qed.

(** X4.  A message that decodes to something else than an object (a list,
    a string, a number, [null]) makes [on_message] raise [AttributeError];
    the agent is left as it was. *)
Theorem on_message_rejects_non_objects a d :
  (∀ o, d ≠ JObj o) →
  on_message (Some d) a = (Raise AttributeError, a).
Proof.
  intros Hd. simpl. unfold _handle_ws_message, bind, lift; simpl.
  destruct d; try done. by destruct (Hd o).
Qed.

Lemma on_message_rejects_non_objects_witness :
  on_message (Some (JArr [JStr "AUTH_SUCCESS"])) (init "http://localhost:5173")
  = (Raise AttributeError, init "http://localhost:5173").
Proof. by apply on_message_rejects_non_objects. Defined.

(** X5.  A successful [ACTION_RESULT] whose [data] is not an object never
    writes the avatar: the agent is left as it was.  The handler returns
    normally only when [data] is a string or a list in which none of
    [x], [y], [state] occurs, and raises [TypeError] otherwise (for
    instance for [null], a number, or the list [["x"]]). *)
Theorem action_result_needs_object_payload a o :
  o !! "type" = Some (JStr "ACTION_RESULT") →
  truthy (field o "success") = true →
  (∀ p, action_payload o ≠ JObj p) →
  _handle_ws_message (JObj o) a
  = (match contains "x" (action_payload o),
           contains "y" (action_payload o),
           contains "state" (action_payload o) with
     | Ret false, Ret false, Ret false => Ret tt
     | _, _, _ => Raise TypeError
     end, a).
Proof.
  intros Hty Hs Hp.
  unfold _handle_ws_message, bind at 1, lift at 1; simpl.
  rewrite Hty; simpl.
  unfold bind at 1, lift at 1; simpl. fold (field o "success").
  unfold bind at 1, lift at 1; simpl. fold (action_payload o).
  rewrite Hs. unfold bind.
  rewrite (merge_field_non_object "x" _ a Hp).
  destruct (contains "x" (action_payload o)) as [[|]|]; try done.
  rewrite (merge_field_non_object "y" _ a Hp).
  destruct (contains "y" (action_payload o)) as [[|]|]; try done.
  rewrite (merge_field_non_object "state" _ a Hp).
  by destruct (contains "state" (action_payload o)) as [[|]|].
Qed.

Lemma action_result_needs_object_payload_witness :
  _handle_ws_message (JObj null_payload_frame)
    (set_avatar (JObj bot1) (init "http://localhost:5173"))
  = (Raise TypeError, set_avatar (JObj bot1) (init "http://localhost:5173")).
Proof.
  rewrite (action_result_needs_object_payload
             (set_avatar (JObj bot1) (init "http://localhost:5173"))
             null_payload_frame eq_refl eq_refl); [reflexivity|].
  intros p. by vm_compute.
Defined.

End HandlerMore.

(* ===================================================================== *)
(** ** Further properties: actions and the live channel *)
(* ===================================================================== *)

#[global] Instance same_sizes_preorder : PreOrder same_sizes.
Proof.
  split.
  - by intros w.
  - intros a b c [? ?] [? ?]. split; congruence.
Qed.

Ltac run_event :=
  unfold occur, _ws_run, deliver, on_open, on_close, on_error, swallow,
    on_self, update_self, set_thread, set_sock, ws_send;
  unfold bind, read, modify, ret, raise, lift, getitem;
  simpl.

Section ChannelMore.

Implicit Types (w : world) (e : event) (es : list event) (t h : nat).
Implicit Types (env : environment) (sched : nat → list event).

Lemma dispatch_connected act w h kr :
  connected (self w) = true →
  ws (self w) = Some h →
  apps w !! h = Some (WsApp true kr) →
  ∃ m, dispatch act w = (Ret (true, m), emit (Sent h (frame_of act)) w).
Proof.
  intros Hc Hws Happ.
  destruct act; simpl;
    unfold move_to, interact_with, read_notices, accept_quest, celebrate,
      with_ws, ws_send;
    rewrite bind_read, Hc; cbn [negb];
    rewrite bind_bind, bind_read, Hws, bind_bind, bind_read, Happ,
      bind_modify;
    by eexists.
Qed.

(** X6.  An action called on a connected session whose channel has its
    socket attached sends exactly one frame, the [BOT_ACTION] frame of that
    action, on the agent's channel, returns success at once and changes
    nothing else. *)
Theorem dispatch_sends_one_frame act w h kr :
  connected (self w) = true →
  ws (self w) = Some h →
  apps w !! h = Some (WsApp true kr) →
  ∃ m, dispatch act w = (Ret (true, m), emit (Sent h (frame_of act)) w)
       ∧ sent_frames (log (snd (dispatch act w)))
         = (sent_frames (log w) ++ [frame_of act])%list.
Proof.
  intros Hc Hws Happ.
  destruct (dispatch_connected act w h kr Hc Hws Happ) as [m H].
  exists m. split; [done|].
  rewrite H. simpl. unfold sent_frames. by rewrite omap_app.
Qed.

Lemma dispatch_sends_one_frame_witness :
  ∃ m, dispatch (Move (JInt 3) (JInt 4)) established_world
       = (Ret (true, m),
          emit (Sent 0 (frame_of (Move (JInt 3) (JInt 4)))) established_world).
Proof.
  destruct (dispatch_sends_one_frame (Move (JInt 3) (JInt 4))
              established_world 0 true) as (m & H & _);
    [by vm_compute..|].
  by exists m.
Defined.

(** X7.  An action called while [connected] is set but the channel has
    lost its socket raises the library's
    [WebSocketConnectionClosedException] (the actions catch nothing); no
    frame is sent and nothing changes. *)
Theorem dispatch_on_closed_socket act w h kr :
  connected (self w) = true →
  ws (self w) = Some h →
  apps w !! h = Some (WsApp false kr) →
  dispatch act w = (Raise WebSocketConnectionClosedException, w).
Proof.
  intros Hc Hws Happ.
  destruct act; simpl;
    unfold move_to, interact_with, read_notices, accept_quest, celebrate,
      with_ws, ws_send;
    rewrite bind_read, Hc; cbn [negb];
    by rewrite bind_bind, bind_read, Hws, bind_bind, bind_read, Happ.
Qed.

Lemma dispatch_on_closed_socket_witness :
  dispatch Celebrate (snd (occur (Advance 0) established_world))
  = (Raise WebSocketConnectionClosedException,
     snd (occur (Advance 0) established_world)).
Proof.
  apply (dispatch_on_closed_socket Celebrate _ 0 true); by vm_compute.
Defined.

(** X8.  [connect_websocket] refuses without touching anything when the
    websocket library is missing, and, the library present, when no
    credentials are loaded; the latter also when [connected] is set. *)
Theorem connect_websocket_refuses env sched w :
  (HAS_WEBSOCKET env = false →
   connect_websocket env sched w
   = (Ret (false, [L "WebSocket library not installed"]), w))
  ∧ (HAS_WEBSOCKET env = true →
     truthy (credentials (self w)) = false →
     connect_websocket env sched w = (Ret (false, [L "Not registered"]), w)).
Proof.
  split.
  - intros Hlib. unfold connect_websocket. by rewrite Hlib.
  - intros Hlib Hcr. unfold connect_websocket. rewrite Hlib. cbn [negb].
    by rewrite bind_read, Hcr.
Qed.

Lemma connect_websocket_refuses_witness :
  connect_websocket (env_with friendly) prompt_handshake fresh_world
  = (Ret (false, [L "Not registered"]), fresh_world).
Proof.
  by apply (connect_websocket_refuses (env_with friendly) prompt_handshake
              fresh_world).
Defined.

Lemma poll_success_message n i sched w m w' :
  poll n i sched w = (Ret (true, m), w') → m = [L "Connected"].
Proof.
  revert i w. induction n as [|n IH]; intros i w; cbn [poll].
  - unfold ret. by intros [=].
  - rewrite bind_read. destruct (connected (self w)).
    + unfold ret. by intros [= <- _].
    + unfold bind.
      pose proof (occur_all_returns (sched (S i)) w) as Hr.
      destruct (occur_all (sched (S i)) w) as [r w1]; simpl in Hr.
      subst r. apply IH.
Qed.

(** X9.  When [connect_websocket] reports success the session is
    connected at that moment, the library is present and credentials are
    loaded. *)
Theorem connect_websocket_success_means_connected env sched w m w' :
  connect_websocket env sched w = (Ret (true, m), w') →
  connected (self w') = true
  ∧ HAS_WEBSOCKET env = true
  ∧ truthy (credentials (self w')) = true
  ∧ (m = [L "Already connected"] ∨ m = [L "Connected"]).
Proof.
  intros H. destruct (connect_success env sched w m w' H) as (Hc & Hlib & Hcr).
  repeat split; try done.
  pose proof (connect_websocket_credentials env sched w) as Ecr.
  rewrite H in Ecr. simpl in Ecr. rewrite Ecr in Hcr.
  destruct (connected (self w)) eqn:Hc0.
  - rewrite (connect_websocket_already env sched w Hc0 Hlib Hcr) in H.
    left. by simplify_eq.
  - rewrite connect_websocket_attempt in H by done. right.
    by eapply poll_success_message.
Qed.

Lemma connect_websocket_success_means_connected_witness :
  connected (self established_world) = true.
Proof.
  by destruct (connect_websocket_success_means_connected
                 (env_with friendly) prompt_handshake registered_world
                 [L "Connected"] established_world
                 ltac:(vm_compute; reflexivity)) as (? & _).
Defined.

(** *** The last sleep of the polling loop *)

Lemma poll_timeout_unseen n i sched w :
  (∀ j e, i < j < i + n → e ∈ sched j → grants e = false) →
  connected (self w) = false →
  fst (poll n i sched w) = Ret (false, [L "Connection timeout"]).
Proof.
  revert i w. induction n as [|n IH]; intros i w Hq Hc; cbn [poll]; [done|].
  rewrite bind_read, Hc. unfold bind.
  pose proof (occur_all_returns (sched (S i)) w) as Hr.
  pose proof (occur_all_stays_down (sched (S i)) w) as Hd.
  destruct (occur_all (sched (S i)) w) as [r w1]; simpl in *; subst r.
  destruct n as [|n]; [done|].
  apply IH.
  - intros j e Hj. apply Hq. lia.
  - apply Hd; [|done]. intros e He. apply (Hq (S i)); [lia|done].
Qed.

(** X10.  [connect_websocket] does not look at [connected] after its last
    sleep: when no [AUTH_SUCCESS] frame arrives before that sleep, the
    attempt is reported as "Connection timeout" whatever arrives during
    it, so also when the handshake completes then and the session is
    connected at the return. *)
Theorem connect_websocket_ignores_last_sleep env sched w :
  HAS_WEBSOCKET env = true →
  truthy (credentials (self w)) = true →
  connected (self w) = false →
  (∀ i e, (i < 50)%nat → e ∈ sched i → grants e = false) →
  fst (connect_websocket env sched w) = Ret (false, [L "Connection timeout"]).
Proof.
  intros Hlib Hcr Hc Hq.
  rewrite connect_websocket_attempt by done.
  apply poll_timeout_unseen.
  - intros j e Hj. apply Hq. lia.
  - apply occur_all_stays_down; [|done]. intros e. apply Hq. lia.
Qed.

Lemma connect_websocket_ignores_last_sleep_witness :
  let r := connect_websocket (env_with friendly) last_moment
             registered_world in
  fst r = Ret (false, [L "Connection timeout"])
  ∧ connected (self (snd r)) = true.
Proof.
  cbv zeta. split; [|by vm_compute].
  apply (connect_websocket_ignores_last_sleep (env_with friendly)
           last_moment registered_world); try reflexivity.
  intros i e Hi He.
  destruct i as [|i]; simpl in He.
  - repeat (apply elem_of_cons in He as [->|He]; [done|]).
    by apply elem_of_nil in He.
  - do 49 (destruct i as [|i]; [by apply elem_of_nil in He|]). lia.
Defined.

(** *** Threads and channels over repeated attempts *)

Lemma occur_same_sizes e : preserves same_sizes (occur e).
Proof.
  destruct e as [t|t c]; simpl.
  - unfold _ws_run, set_thread, set_sock. preserve_steps;
      apply preserves_modify; intros w; unfold same_sizes;
      try case_match; simpl; by rewrite ?length_insert.
  - unfold deliver, on_open, on_error, set_thread, set_sock, ws_send.
    preserve_steps;
      apply preserves_modify; intros w; unfold same_sizes;
      try case_match; simpl; by rewrite ?length_insert.
Qed.

Lemma occur_all_same_sizes es : preserves same_sizes (occur_all es).
Proof.
  induction es as [|e es IH]; simpl.
  - apply preserves_ret; typeclasses eauto.
  - apply preserves_bind; [typeclasses eauto|apply occur_same_sizes|done].
Qed.

Lemma poll_same_sizes n i sched : preserves same_sizes (poll n i sched).
Proof.
  revert i. induction n as [|n IH]; intros i; simpl.
  - apply preserves_ret; typeclasses eauto.
  - preserve_steps; [apply occur_all_same_sizes|apply IH].
Qed.

(** X11.  Every call of [connect_websocket] that gets past its guards
    creates one more WebSocketApp and starts one more thread, and stops
    none: the agent's handles point to the new ones, and every thread
    that was still in its loop before the call is still in its loop after
    it. *)
Theorem connect_websocket_adds_a_thread env sched w :
  HAS_WEBSOCKET env = true →
  truthy (credentials (self w)) = true →
  connected (self w) = false →
  let w' := snd (connect_websocket env sched w) in
  length (apps w') = S (length (apps w))
  ∧ length (threads w') = S (length (threads w))
  ∧ ws (self w') = Some (length (apps w))
  ∧ _ws_thread (self w') = Some (length (threads w))
  ∧ _running (self w') = true
  ∧ alive (length (threads w)) w'
  ∧ ∀ t, alive t w → alive t w'.
Proof.
  intros Hlib Hcr Hc. cbv zeta.
  rewrite connect_websocket_attempt by done.
  set (w0 := snd (occur_all (sched 0) (started w))).
  pose proof (occur_all_same_sizes (sched 0) (started w)) as [Ea Et].
  pose proof (poll_same_sizes 50 0 sched w0) as [Ea' Et'].
  pose proof (occur_all_same_session (sched 0) (started w))
    as [(_ & Ews & Erun & Eth & _) _].
  pose proof (poll_same_session 50 0 sched w0)
    as [(_ & Ews' & Erun' & Eth' & _) _].
  fold w0 in Ea, Et, Ews, Erun, Eth. simpl in Ea, Et, Ews, Erun, Eth.
  rewrite length_app in Ea, Et. simpl in Ea, Et.
  repeat split; try congruence; try lia.
  - apply poll_alive; [congruence|].
    apply occur_all_alive; [done|apply started_alive].
  - intros t (st & Hst & Hne).
    apply poll_alive; [congruence|].
    apply occur_all_alive; [done|].
    exists st. split; [|done].
    simpl. by rewrite lookup_app_l by (by eapply lookup_lt_Some).
Qed.

Lemma connect_websocket_adds_a_thread_witness :
  let w2 := snd (connect_websocket (env_with friendly) silence
                   timed_out_world) in
  length (threads w2) = 2 ∧ alive 0 w2 ∧ alive 1 w2.
Proof.
  assert (H1 : HAS_WEBSOCKET (env_with friendly) = true) by reflexivity.
  assert (H2 : truthy (credentials (self timed_out_world)) = true)
    by (vm_compute; reflexivity).
  assert (H3 : connected (self timed_out_world) = false)
    by (vm_compute; reflexivity).
  assert (H4 : threads timed_out_world = [InRunForever 0])
    by (vm_compute; reflexivity).
  pose proof (connect_websocket_adds_a_thread (env_with friendly) silence
                timed_out_world H1 H2 H3) as H.
  cbv zeta in H. destruct H as (_ & Hlen & _ & _ & _ & Hnew & Hold).
  cbv zeta. rewrite H4 in Hlen, Hnew.
  split; [exact Hlen|]. split; [|exact Hnew].
  apply Hold. exists (InRunForever 0).
  split; [rewrite H4; reflexivity|discriminate].
Defined.

(** *** The run loop after [disconnect_websocket] *)

Lemma occur_threads_of e w :
  threads (snd (occur e w)) = threads w
  ∨ ∃ st, threads (snd (occur e w)) = <[thread_of e := st]> (threads w).
Proof.
  destruct e as [t|t c]; simpl.
  - run_event.
    destruct (threads w !! t) as [[]|] eqn:E; simpl; [| | |by left..].
    + destruct (_running (self w)) eqn:Hr; simpl.
      * destruct (ws (self w)); simpl; right; eexists;
          try case_match; reflexivity.
      * right. by eexists.
    + right. eexists. try case_match; reflexivity.
    + right. by eexists.
  - run_event.
    destruct (threads w !! t) as [[]|] eqn:E; simpl; [by left| |by left..].
    destruct c; simpl.
    + left. repeat case_match; simpl; done.
    + by left.
    + by left.
    + right. eexists. try case_match; reflexivity.
Qed.

(** A thread that has left [_ws_run] stays where it is. *)
Lemma occur_finished e w t :
  threads w !! t = Some Finished →
  threads (snd (occur e w)) !! t = Some Finished.
Proof.
  intros Ht. destruct (decide (thread_of e = t)) as [<-|Hne].
  - destruct e as [t|t c]; simpl in *; run_event; by rewrite Ht.
  - destruct (occur_threads_of e w) as [->|[st ->]]; [done|].
    by rewrite list_lookup_insert_ne.
Qed.

Lemma occur_all_finished es w t :
  threads w !! t = Some Finished →
  threads (snd (occur_all es w)) !! t = Some Finished.
Proof.
  revert w. induction es as [|e es IH]; intros w Ht; [done|].
  rewrite occur_all_cons. by apply IH, occur_finished.
Qed.

(** X12.  [disconnect_websocket] makes the background loop end: a thread
    it finds inside [run_forever] leaves [_ws_run] at its next loop test,
    after [run_forever] has ended (with or without the close callback) and
    the sleep is over, without another connection attempt; and a thread
    that has left [_ws_run] is never set going again by any background
    event. *)
Theorem disconnect_stops_run_loop w t h :
  threads w !! t = Some (InRunForever h) →
  (let w' := snd (occur_all [Advance t; Advance t; Advance t]
                    (snd (disconnect_websocket w))) in
   threads w' !! t = Some Finished ∧ log w' = log w)
  ∧ (let w' := snd (occur_all [Deliver t OnClose; Advance t; Advance t]
                      (snd (disconnect_websocket w))) in
     threads w' !! t = Some Finished ∧ log w' = log w)
  ∧ (∀ es w2, threads w2 !! t = Some Finished →
              threads (snd (occur_all es w2)) !! t = Some Finished).
Proof.
  intros Ht.
  destruct (disconnect_websocket_state w) as (_ & _ & Hrun & Hlog & Hth & _).
  set (w1 := snd (disconnect_websocket w)) in *.
  assert (Ht1 : threads w1 !! t = Some (InRunForever h)) by (by rewrite Hth).
  assert (Hlt : t < length (threads w1)) by (by eapply lookup_lt_Some).
  assert (Hexit : ∀ w2,
            threads w2 = <[t := Sleeping]> (threads w1) →
            log w2 = log w1 → _running (self w2) = false →
            let w' := snd (occur_all [Advance t; Advance t] w2) in
            threads w' !! t = Some Finished ∧ log w' = log w).
  { intros w2 Et2 El2 Er2. cbv zeta.
    rewrite !occur_all_cons. cbn [occur_all ret snd].
    destruct (occur_wakes t w2) as (Et3 & El3 & Es3).
    { rewrite Et2. by apply list_lookup_insert_eq. }
    destruct (occur_loop_exit t (snd (occur (Advance t) w2)))
      as (Et4 & El4 & _).
    { rewrite Et3. apply list_lookup_insert_eq.
      by rewrite Et2, length_insert. }
    { by rewrite Es3. }
    split; [|by rewrite El4, El3, El2].
    rewrite Et4. apply list_lookup_insert_eq.
    by rewrite Et3, Et2, !length_insert. }
  split; [|split].
  - cbv zeta. rewrite occur_all_cons.
    destruct (occur_run_ends t h w1 Ht1) as (Et2 & El2 & Es2).
    apply Hexit; try done. by rewrite Es2.
  - cbv zeta. rewrite occur_all_cons.
    destruct (occur_close t h w1 Ht1) as (Et2 & El2 & Es2).
    apply Hexit; try done. by rewrite Es2.
  - intros es w2. apply occur_all_finished.
Qed.

Lemma disconnect_stops_run_loop_witness :
  threads (snd (occur_all [Deliver 0 OnClose; Advance 0; Advance 0]
                  (snd (disconnect_websocket established_world))))
  !! 0 = Some Finished.
Proof.
  assert (H : threads established_world !! 0 = Some (InRunForever 0))
    by (vm_compute; reflexivity).
  pose proof (disconnect_stops_run_loop established_world 0 0 H)
    as (_ & H2 & _).
  cbv zeta in H2. exact (proj1 H2).
Defined.

(** *** The handshake *)

(** X13.  Each time the channel opens, the [on_open] callback sends one
    [BOT_AUTH] frame with the [bot_id] and the [api_key] of the loaded
    credentials on that channel, and nothing else changes but the socket
    being attached; when the credentials lack one of the two keys no frame
    is sent. *)
Theorem on_open_sends_bot_auth w t h app c :
  threads w !! t = Some (InRunForever h) →
  apps w !! h = Some app →
  credentials (self w) = JObj c →
  let w' := snd (occur (Deliver t OnOpen) w) in
  log w' = (log w ++
            match c !! "bot_id", c !! "api_key" with
            | Some b, Some k =>
                [Sent h (JObj {[ "type" := JStr "BOT_AUTH"; "botId" := b;
                                 "token" := k ]})]
            | _, _ => []
            end)%list
  ∧ self w' = self w
  ∧ threads w' = threads w
  ∧ apps w' = <[h := WsApp true (keep_running app)]> (apps w).
Proof.
  intros Ht Happ Hcr. run_event. rewrite Ht, Happ. simpl. rewrite Hcr.
  assert (Hl : <[h := WsApp true (keep_running app)]> (apps w) !! h
               = Some (WsApp true (keep_running app))).
  { apply list_lookup_insert_eq. by eapply lookup_lt_Some. }
  destruct (c !! "bot_id") as [b|]; simpl;
    [|by rewrite app_nil_r].
  destruct (c !! "api_key") as [k|]; simpl;
    [|by rewrite app_nil_r].
  by rewrite Hl.
Qed.

Lemma on_open_sends_bot_auth_witness :
  sent_frames (log (snd (occur (Deliver 0 OnOpen)
                           (snd (occur (Advance 0) (started registered_world))))))
  = [JObj {[ "type" := JStr "BOT_AUTH"; "botId" := JStr "bot-1";
             "token" := JStr "key-1" ]}].
Proof.
  pose proof (on_open_sends_bot_auth
                (snd (occur (Advance 0) (started registered_world)))
                0 0 (WsApp false true) _ eq_refl eq_refl eq_refl) as [H _].
  cbv zeta in H. rewrite H. vm_compute. reflexivity.
Defined.

End ChannelMore.

(* ===================================================================== *)
(** ** Further properties: credentials and REST calls *)
(* ===================================================================== *)

#[global] Instance only_logged_preorder : PreOrder only_logged.
Proof.
  split.
  - by intros w.
  - intros a b c (?&?&?&?) (?&?&?&?). repeat split; congruence.
Qed.

#[global] Instance identity_kept_preorder : PreOrder identity_kept.
Proof.
  split.
  - by intros w.
  - intros a b c (?&?&?) (?&?&?). repeat split; congruence.
Qed.

Section RestMore.

Implicit Types (w : world) (env : environment) (name : json).
Implicit Types (sched : nat → list event).

(** [api_request] when the request ends with one of the two errors it
    catches. *)
Lemma api_request_failure env message ep mt d w :
  (∀ history r, structured_error (transport env history r) = Some message) →
  credentials_ok w →
  ∃ req, api_request env ep mt d w
         = (Ret (failure_result message), emit (Requested req) w).
Proof.
  intros Hdown Hcr. unfold api_request. rewrite bind_read.
  assert (Hauth : ∃ a,
    (if truthy (credentials (self w))
     then let! key := lift (get (credentials (self w)) "api_key" (JStr ""))
          in ret (Some key)
     else ret None) w = (Ret a, w)).
  { destruct (truthy (credentials (self w))) eqn:E; [|by eexists].
    destruct (Hcr E) as [o ->]. by eexists. }
  destruct Hauth as [a Ha]. rewrite (bind_step _ _ _ _ _ Ha).
  rewrite bind_read, bind_modify.
  eexists. specialize (Hdown (log w) (Request ep mt a
    match d with
    | Some d0 => if truthy d0 then Some d0 else None
    | None => None
    end)).
  destruct (transport env (log w) _); simpl in Hdown; simplify_eq; done.
Qed.

(** X14.  When every request ends with an HTTP error without a JSON body
    or with a connection error, no REST operation raises: [register],
    [authenticate] and [get_status] hand back the structured failure
    ([ok] false, with the message), nothing is written to the credentials
    file and the agent is not changed; the bootstrap of a fresh process
    fails with "Registration failed: " and that message. *)
Theorem rest_errors_are_results env message name sched w :
  (∀ history r, structured_error (transport env history r) = Some message) →
  credentials_ok w →
  (∃ w', register env name w = (Ret (false, failure_result message), w')
         ∧ self w' = self w ∧ cred_file w' = cred_file w)
  ∧ (truthy (credentials (self w)) = true →
     is_ret (getitem (credentials (self w)) "api_key") = true →
     ∃ w', authenticate env w = (Ret (false, failure_result message), w')
           ∧ self w' = self w ∧ cred_file w' = cred_file w)
  ∧ (∃ w', get_status env w = (Ret (failure_result message), w')
           ∧ self w' = self w ∧ cred_file w' = cred_file w)
  ∧ (cred_file w = Absent →
     fst (ensure_connected env name sched w)
     = Ret (false, [L "Registration failed: "; V (JStr message)])).
Proof.
  intros Hdown Hcr.
  assert (Hreg : ∃ w', register env name w
                       = (Ret (false, failure_result message), w')
                       ∧ self w' = self w ∧ cred_file w' = cred_file w).
  { unfold register.
    edestruct (api_request_failure env message) as [req E]; [done..|].
    rewrite (bind_step _ _ _ _ _ E). by eexists. }
  split; [exact Hreg|]. split; [|split].
  - intros Ht Hk. unfold authenticate. rewrite bind_read, Ht. cbn [negb].
    destruct (getitem (credentials (self w)) "api_key") as [k|]; [|done].
    rewrite bind_lift_ret.
    edestruct (api_request_failure env message) as [req E]; [done..|].
    rewrite (bind_step _ _ _ _ _ E). by eexists.
  - unfold get_status.
    edestruct (api_request_failure env message) as [req E]; [done..|].
    rewrite (bind_step _ _ _ _ _ E). by eexists.
  - intros Hf. rewrite ensure_connected_eq.
    assert (Hl : load_credentials w = (Ret false, w)).
    { unfold load_credentials. by rewrite bind_read, Hf. }
    rewrite Hl. destruct Hreg as (w' & -> & _). reflexivity.
Qed.

Lemma unreachable_down history r :
  structured_error (transport (env_with unreachable) history r)
  = Some "Connection error: refused".
Proof. reflexivity. Qed.

Lemma rest_errors_are_results_witness :
  fst (ensure_connected (env_with unreachable) (JStr "PaxAgent") silence
         fresh_world)
  = Ret (false, [L "Registration failed: ";
                 V (JStr "Connection error: refused")]).
Proof.
  apply (rest_errors_are_results (env_with unreachable)
           "Connection error: refused" (JStr "PaxAgent") silence fresh_world
           unreachable_down).
  - by intros H.
  - reflexivity.
Defined.

(** X15.  A credentials file that exists but holds nothing usable stops
    the bootstrap before any request and before any registration: an
    undecodable file makes it raise [JSONDecodeError]; a file holding an
    empty value ([{}], [null], ...) makes it fail with "Auth failed: Not
    registered", the value loaded as the credentials. *)
Theorem unusable_credentials_file_stops_bootstrap env name sched w :
  (cred_file w = Undecodable →
   ensure_connected env name sched w = (Raise JSONDecodeError, w))
  ∧ (∀ c, cred_file w = Holds c → truthy c = false →
       ensure_connected env name sched w
       = (Ret (false, [L "Auth failed: "; V (JStr "Not registered")]),
          set_self (set_credentials c (self w)) w)).
Proof.
  split.
  - intros Hf. rewrite ensure_connected_eq.
    assert (Hl : load_credentials w = (Raise JSONDecodeError, w)).
    { unfold load_credentials. by rewrite bind_read, Hf. }
    by rewrite Hl.
  - intros c Hf Hc. rewrite ensure_connected_eq.
    assert (Hl : load_credentials w
                 = (Ret true, set_self (set_credentials c (self w)) w)).
    { unfold load_credentials. by rewrite bind_read, Hf. }
    rewrite Hl.
    unfold authenticate_then, authenticate.
    rewrite bind_bind, bind_read. cbn [self set_self credentials
      set_credentials]. rewrite Hc. cbn [negb].
    by rewrite bind_ret.
Qed.

Lemma unusable_credentials_file_stops_bootstrap_witness :
  fst (ensure_connected (env_with friendly) (JStr "PaxAgent") silence
         blank_file_world)
  = Ret (false, [L "Auth failed: "; V (JStr "Not registered")]).
Proof.
  destruct (unusable_credentials_file_stops_bootstrap (env_with friendly)
              (JStr "PaxAgent") silence blank_file_world) as [_ H].
  by rewrite (H (JObj ∅) eq_refl eq_refl).
Defined.

(** *** What the REST operations write *)

Lemma api_request_only_logged env ep mt d :
  preserves only_logged (api_request env ep mt d).
Proof.
  unfold api_request. preserve_steps; apply preserves_modify; by intros w.
Qed.

Lemma register_cases env name w r w' :
  register env name w = (r, w') →
  (∃ res, r = Ret (true, res))
  ∨ (self w' = self w
     ∧ (cred_file w' = cred_file w
        ∨ r = Raise OSError
          ∧ (saving env = SaveInterrupted ∧ cred_file w' = Undecodable
             ∨ saving env = SaveUnprotected
               ∧ ∃ c, cred_file w' = Holds (JObj c)
                      ∧ c !! "name" = Some name
                      ∧ c !! "registered_at" = Some (now env)))).
Proof.
  unfold register.
  set (body := Some _).
  pose proof (api_request_only_logged env "/api/world/bot/register" "POST"
                body w) as (Hs & Hf & _).
  unfold bind at 1.
  destruct (api_request env "/api/world/bot/register" "POST" body w)
    as [[result|e] w1]; simpl in Hs, Hf;
    [|intros [= <- <-]; right; by split; [|left]].
  unfold bind at 1, lift at 1.
  destruct (get result "ok" JNull) as [ok|e];
    [|intros [= <- <-]; right; by split; [|left]].
  destruct (truthy ok); [|intros [= <- <-]; right; by split; [|left]].
  unfold bind at 1, lift at 1.
  destruct (getitem result "api_key") as [ak|e];
    [|intros [= <- <-]; right; by split; [|left]].
  unfold bind at 1, lift at 1.
  destruct (getitem result "bot_id") as [b|e];
    [|intros [= <- <-]; right; by split; [|left]].
  unfold bind at 1, lift at 1.
  destruct (getitem result "signer_id") as [sg|e];
    [|intros [= <- <-]; right; by split; [|left]].
  rewrite bind_read. unfold save_credentials.
  destruct (saving env) eqn:Esave.
  - unfold update_self. rewrite bind_bind, !bind_modify.
    unfold ret. intros [= <- <-]. left. by eexists.
  - intros [= <- <-]. right. by split; [|left].
  - rewrite bind_bind, bind_modify. intros [= <- <-].
    right. split; [done|]. right. split; [done|]. left. by split.
  - rewrite bind_bind, bind_modify. intros [= <- <-].
    right. split; [done|]. right. split; [done|]. right. split; [done|].
    eexists. split; [reflexivity|]. by simplify_map_eq.
Qed.

(** X16.  [register] gives the agent its credentials only when it returns
    success.  When it returns failure or raises, the agent is as it was,
    and so is the credentials file, with one exception: when the save
    itself fails after the file has been opened, [register] raises
    [OSError] with the file already changed, truncated when the write
    failed and holding the new credentials when only [os.chmod] failed,
    while the agent has not been given them. *)
Theorem register_writes_only_on_success env name w r w' :
  register env name w = (r, w') →
  (∀ res, r ≠ Ret (true, res)) →
  self w' = self w
  ∧ (cred_file w' = cred_file w
     ∨ r = Raise OSError
       ∧ (saving env = SaveInterrupted ∧ cred_file w' = Undecodable
          ∨ saving env = SaveUnprotected
            ∧ ∃ c, cred_file w' = Holds (JObj c)
                   ∧ c !! "name" = Some name
                   ∧ c !! "registered_at" = Some (now env))).
Proof.
  intros E Hno.
  destruct (register_cases env name w r w' E) as [[res ->]|H]; [|done].
  by destruct (Hno res).
Qed.

Lemma register_writes_only_on_success_witness :
  self interrupted_world = self fresh_world
  ∧ (cred_file interrupted_world = cred_file fresh_world
     ∨ fst (register disk_full (JStr "PaxAgent") fresh_world)
       = Raise OSError
       ∧ (saving disk_full = SaveInterrupted
          ∧ cred_file interrupted_world = Undecodable
          ∨ saving disk_full = SaveUnprotected
            ∧ ∃ c, cred_file interrupted_world = Holds (JObj c)
                   ∧ c !! "name" = Some (JStr "PaxAgent")
                   ∧ c !! "registered_at" = Some (now disk_full))).
Proof.
  apply (register_writes_only_on_success disk_full (JStr "PaxAgent")
           fresh_world).
  - apply surjective_pairing.
  - intros res. by vm_compute.
Defined.

(** X17.  When [register] returns success, the file and the agent hold
    one and the same credentials object, whose [api_key], [bot_id] and
    [signer_id] are those of the server's reply and whose [name] and
    [server] are the requested name and the agent's server; loading the
    file afterwards, in this process or in a fresh one, gives exactly that
    object back. *)
Theorem register_then_load env name w res w' :
  register env name w = (Ret (true, res), w') →
  ∃ o c,
    res = JObj o
    ∧ cred_file w' = Holds (JObj c)
    ∧ credentials (self w') = JObj c
    ∧ is_Some (o !! "api_key") ∧ c !! "api_key" = o !! "api_key"
    ∧ is_Some (o !! "bot_id") ∧ c !! "bot_id" = o !! "bot_id"
    ∧ is_Some (o !! "signer_id") ∧ c !! "signer_id" = o !! "signer_id"
    ∧ c !! "name" = Some name
    ∧ c !! "server" = Some (JStr (server (self w)))
    ∧ ∀ w2, cred_file w2 = cred_file w' →
            load_credentials w2
            = (Ret true, set_self (set_credentials (JObj c) (self w2)) w2).
Proof.
  unfold register. intros H.
  apply bind_ret_inv in H as (result & w1 & Hreq & H).
  pose proof (api_request_only_logged env "/api/world/bot/register" "POST"
                (Some (JObj {[ "agent_type" := JStr "openclaw";
                               "agent_version" := JStr "1.0.0";
                               "public_key" := JStr (token_hex env);
                               "requested_name" := name ]})) w)
    as (Hs & _).
  rewrite Hreq in Hs. simpl in Hs.
  apply bind_ret_inv in H as (ok & w2 & Hok & H).
  unfold lift, get in Hok. destruct result as [| | | | | |o]; try done.
  assert (w2 = w1) by (by simplify_eq). subst w2.
  destruct (truthy ok); [|unfold ret in H; congruence].
  apply bind_ret_inv in H as (ak & w2 & Hak & H).
  apply bind_ret_inv in H as (b & w3 & Hb & H).
  apply bind_ret_inv in H as (sg & w4 & Hsg & H).
  unfold lift, getitem in Hak, Hb, Hsg.
  destruct (o !! "api_key") as [ak'|] eqn:Eak; [|done].
  destruct (o !! "bot_id") as [b'|] eqn:Eb; [|done].
  destruct (o !! "signer_id") as [sg'|] eqn:Esg; [|done].
  simplify_eq.
  rewrite bind_read in H.
  apply bind_ret_inv in H as (? & w5 & Hsave & H).
  unfold ret in H. simplify_eq.
  unfold save_credentials in Hsave.
  destruct (saving env);
    [|done|by rewrite bind_modify in Hsave..].
  unfold update_self in Hsave. rewrite bind_modify in Hsave.
  unfold modify in Hsave. simplify_eq.
  eexists o, _. split; [done|]. split; [reflexivity|].
  split; [reflexivity|].
  rewrite Hs.
  repeat split; eauto; try (by simplify_map_eq).
  intros w2 Hw2. unfold load_credentials. rewrite bind_read, Hw2. simpl.
  unfold update_self. by rewrite bind_modify.
Qed.

Lemma register_then_load_witness :
  ∃ c, c !! "api_key" = Some (JStr "key-1")
       ∧ c !! "bot_id" = Some (JStr "bot-1")
       ∧ load_credentials
           (set_cred_file
              (cred_file (snd (register (env_with friendly) (JStr "PaxAgent")
                                 fresh_world)))
              fresh_world)
         = (Ret true,
            World (set_credentials (JObj c) (init "http://localhost:5173"))
                  [] [] [] (Holds (JObj c))).
Proof.
  destruct (register (env_with friendly) (JStr "PaxAgent") fresh_world)
    as [r w'] eqn:E.
  assert (Hr : r = Ret (true,
                 JObj {[ "ok" := JBool true; "api_key" := JStr "key-1";
                         "bot_id" := JStr "bot-1";
                         "signer_id" := JStr "signer-1" ]})).
  { apply (f_equal fst) in E. simpl in E. rewrite <- E. by vm_compute. }
  subst r.
  destruct (register_then_load _ _ _ _ _ E)
    as (o & c & Ho & Hf & _ & _ & Hak & _ & Hb & _ & _ & _ & _ & Hload).
  simplify_eq. exists c. rewrite Hak, Hb. split; [done|]. split; [done|].
  simpl. rewrite (Hload (set_cred_file (cred_file w') fresh_world) eq_refl).
  by rewrite Hf.
Defined.

(** X18.  [authenticate] never makes the session live and never touches
    the identity: whatever it returns, [connected], the credentials and
    the credentials file are as before.  When it returns failure the
    agent is unchanged; when it returns success the only change is the
    mirrored avatar, replaced by the reply's [assignedAvatar] ([None] when
    the reply has none). *)
Theorem authenticate_effects env w b r w' :
  authenticate env w = (Ret (b, r), w') →
  cred_file w' = cred_file w
  ∧ ∃ o, r = JObj o
         ∧ self w' = if b then set_avatar (field o "assignedAvatar") (self w)
                     else self w.
Proof.
  unfold authenticate. rewrite bind_read.
  destruct (truthy (credentials (self w))); cbn [negb].
  2: { unfold ret. intros [= <- <- <-]. eauto. }
  intros H.
  apply bind_ret_inv in H as (key & w1 & Hk & H).
  unfold lift in Hk. assert (w1 = w) by (by simplify_eq). subst w1.
  apply bind_ret_inv in H as (result & w2 & Hreq & H).
  pose proof (api_request_only_logged env "/api/world/bot/auth" "POST"
                (Some (JObj {[ "token" := key ]})) w) as (Hs & Hf & _).
  rewrite Hreq in Hs, Hf. simpl in Hs, Hf.
  apply bind_ret_inv in H as (ok & w3 & Hok & H).
  unfold lift, get in Hok. destruct result as [| | | | | |o]; try done.
  assert (w3 = w2) by (by simplify_eq). subst w3.
  destruct (truthy ok).
  - unfold update_self in H. rewrite get_obj, bind_lift_ret, bind_modify in H.
    unfold ret in H. simplify_eq. split; [done|].
    exists o. split; [done|]. simpl. by rewrite Hs.
  - unfold ret in H. simplify_eq. eauto.
Qed.

Lemma authenticate_effects_witness :
  self (snd (authenticate (env_with friendly) registered_world))
  = set_avatar (JObj bot1) (self registered_world).
Proof.
  assert (E : authenticate (env_with friendly) registered_world
              = (Ret (true, JObj {[ "ok" := JBool true;
                                    "assignedAvatar" := JObj bot1 ]}),
                 snd (authenticate (env_with friendly) registered_world))).
  { rewrite (surjective_pairing (authenticate _ _)) at 1.
    apply (f_equal2 pair); [vm_compute; reflexivity|reflexivity]. }
  destruct (authenticate_effects _ _ _ _ _ E) as (_ & o & Ho & Hs).
  injection Ho as <-. rewrite Hs. reflexivity.
Defined.

(** X19.  [get_status] replaces the mirrored wallet, license and avatar
    together by the reply's fields when the reply is [ok], a missing field
    becoming [None] (so a reply without [avatar] wipes the mirrored
    avatar), and leaves the agent untouched otherwise; it never changes
    [connected] or the credentials. *)
Theorem get_status_effects env w r w' :
  get_status env w = (Ret r, w') →
  cred_file w' = cred_file w
  ∧ ∃ o, r = JObj o
         ∧ self w' = if truthy (field o "ok")
                     then mirror_after_status o (self w)
                     else self w.
Proof.
  unfold get_status. intros H.
  apply bind_ret_inv in H as (result & w1 & Hreq & H).
  pose proof (api_request_only_logged env "/api/world/bot/status" "GET"
                None w) as (Hs & Hf & _).
  rewrite Hreq in Hs, Hf. simpl in Hs, Hf.
  apply bind_ret_inv in H as (ok & w2 & Hok & H).
  unfold lift, get in Hok. destruct result as [| | | | | |o]; try done.
  assert (w2 = w1) by (by simplify_eq). subst w2.
  assert (ok = field o "ok") by (by simplify_eq). subst ok.
  destruct (truthy (field o "ok")) eqn:Eok.
  - unfold update_self in H.
    rewrite !get_obj in H. unfold bind, lift, modify, ret in H.
    simplify_eq. split; [done|]. exists o. split; [done|].
    rewrite Eok. simpl. by rewrite Hs.
  - unfold bind, ret in H. simplify_eq. split; [done|].
    exists o. by rewrite Eok.
Qed.

Lemma get_status_effects_witness :
  self (snd (get_status (env_with with_quest) registered_world))
  = mirror_after_status
      {[ "ok" := JBool true; "avatar" := JObj bot1;
         "wallet" := JObj {[ "cc" := JInt 40 ]};
         "license" := JObj {[ "tier" := JStr "CITIZEN" ]} ]}
      (self registered_world).
Proof.
  assert (E : get_status (env_with with_quest) registered_world
              = (Ret (JObj {[ "ok" := JBool true; "avatar" := JObj bot1;
                              "wallet" := JObj {[ "cc" := JInt 40 ]};
                              "license" := JObj {[ "tier" := JStr "CITIZEN" ]} ]}),
                 snd (get_status (env_with with_quest) registered_world))).
  { rewrite (surjective_pairing (get_status _ _)) at 1.
    apply (f_equal2 pair); [vm_compute; reflexivity|reflexivity]. }
  destruct (get_status_effects _ _ _ _ E) as (_ & o & Ho & Hs).
  injection Ho as <-. rewrite Hs. reflexivity.
Defined.

(** [api_request] in one piece. *)
Lemma api_request_eq env ep mt d w :
  api_request env ep mt d w =
    match bearer_of (credentials (self w)) with
    | Raise e => (Raise e, w)
    | Ret a =>
        (answer (transport env (log w) (Request ep mt a (body_of d))),
         emit (Requested (Request ep mt a (body_of d))) w)
    end.
Proof.
  unfold api_request, bearer_of. rewrite bind_read.
  destruct (truthy (credentials (self w))).
  - unfold bind at 1. unfold bind at 1, lift at 1.
    destruct (get (credentials (self w)) "api_key" (JStr "")) as [key|e];
      [|done].
    unfold ret at 1. rewrite bind_read, bind_modify.
    fold (body_of d). by destruct (transport env (log w) _).
  - rewrite bind_ret, bind_read, bind_modify.
    fold (body_of d). by destruct (transport env (log w) _).
Qed.

(** X20.  The REST operations do not depend on the live channel: in two
    worlds with the same credentials and the same log, whatever their
    connection state, threads and channels, [api_request] has the same
    outcome and logs the same request. *)
Theorem rest_ignores_live_channel env ep mt d w1 w2 :
  credentials (self w1) = credentials (self w2) →
  log w1 = log w2 →
  fst (api_request env ep mt d w1) = fst (api_request env ep mt d w2)
  ∧ log (snd (api_request env ep mt d w1))
    = log (snd (api_request env ep mt d w2)).
Proof.
  intros Hc Hl. rewrite !api_request_eq, Hc.
  destruct (bearer_of (credentials (self w2))) as [a|e]; simpl; [|done].
  by rewrite Hl.
Qed.

Lemma rest_ignores_live_channel_witness :
  fst (api_request (env_with friendly) "/api/world/bot/status" "GET" None
         established_world)
  = fst (api_request (env_with friendly) "/api/world/bot/status" "GET" None
           offline_twin).
Proof.
  apply (rest_ignores_live_channel (env_with friendly)
           "/api/world/bot/status" "GET" None established_world offline_twin).
  - vm_compute. reflexivity.
  - reflexivity.
Defined.

(** *** The stored identity *)

Lemma registrations_app l1 l2 :
  registrations (l1 ++ l2)%list = registrations l1 + registrations l2.
Proof.
  unfold registrations, endpoints.
  by rewrite omap_app, List.filter_app, length_app.
Qed.

Lemma registrations_emit e w :
  registrations [e] = 0 →
  registrations (log (emit e w)) = registrations (log w).
Proof. intros He. simpl. rewrite registrations_app, He. lia. Qed.

Ltac keep_identity :=
  apply preserves_modify; intros ?; unfold identity_kept;
  try (rewrite registrations_emit by done); by repeat split.

Lemma registrations_request r :
  registrations [Requested r]
  = if String.eqb "/api/world/bot/register" (endpoint r) then 1 else 0.
Proof.
  change (registrations [Requested r])
    with (length (List.filter (String.eqb "/api/world/bot/register")
                    [endpoint r])).
  cbn [List.filter]. by destruct (String.eqb _ (endpoint r)).
Qed.

Lemma api_request_identity_kept env ep mt d :
  String.eqb "/api/world/bot/register" ep = false →
  preserves identity_kept (api_request env ep mt d).
Proof.
  intros Hep w. rewrite api_request_eq.
  destruct (bearer_of (credentials (self w))) as [a|e]; [|reflexivity].
  cbn [snd]. split; [done|]. split; [done|].
  cbn [log emit]. rewrite registrations_app, registrations_request.
  cbn [endpoint]. rewrite Hep. lia.
Qed.

Lemma occur_identity_kept e : preserves identity_kept (occur e).
Proof.
  intros w. destruct (occur_same_session e w) as [(Hcr & _) Hf].
  split; [done|]. split; [done|].
  destruct (occur_log e w) as [->|[(h & f & ->)|(h & _ & _ & ->)]];
    [done|..]; rewrite registrations_app.
  - change (registrations [Sent h f]) with 0. lia.
  - change (registrations [Opening h]) with 0. lia.
Qed.

Lemma occur_all_identity_kept es : preserves identity_kept (occur_all es).
Proof.
  induction es as [|e es IH]; simpl.
  - apply preserves_ret; typeclasses eauto.
  - apply preserves_bind; [typeclasses eauto|apply occur_identity_kept|done].
Qed.

Lemma poll_identity_kept n i sched : preserves identity_kept (poll n i sched).
Proof.
  revert i. induction n as [|n IH]; intros i; simpl.
  - apply preserves_ret; typeclasses eauto.
  - preserve_steps; [apply occur_all_identity_kept|apply IH].
Qed.

Lemma connect_websocket_identity_kept env sched :
  preserves identity_kept (connect_websocket env sched).
Proof.
  unfold connect_websocket, update_self.
  preserve_steps;
    try apply occur_all_identity_kept; try apply poll_identity_kept;
    keep_identity.
Qed.

Lemma authenticate_then_identity_kept env sched :
  preserves identity_kept (authenticate_then env sched).
Proof.
  unfold authenticate_then, authenticate, after_authentication, get_status,
    complete_task, update_self.
  preserve_steps;
    try (by apply api_request_identity_kept);
    try apply connect_websocket_identity_kept;
    keep_identity.
Qed.

(** X21.  With a credentials file in place the bootstrap never registers
    and never rewrites the file: whatever the server answers and whatever
    happens on the live channel, the file is as it was, the agent's
    credentials are the file's, and no request has gone to the
    registration endpoint. *)
Theorem stored_identity_is_kept env name sched w c :
  cred_file w = Holds c →
  let w' := snd (ensure_connected env name sched w) in
  cred_file w' = Holds c
  ∧ credentials (self w') = c
  ∧ registrations (log w') = registrations (log w).
Proof.
  intros Hf. cbv zeta. rewrite ensure_connected_eq.
  assert (Hl : load_credentials w
               = (Ret true, set_self (set_credentials c (self w)) w)).
  { unfold load_credentials. by rewrite bind_read, Hf. }
  rewrite Hl.
  destruct (authenticate_then_identity_kept env sched
              (set_self (set_credentials c (self w)) w)) as (E1 & E2 & E3).
  simpl in E1, E2, E3. by rewrite E1, E2, E3.
Qed.

Lemma stored_identity_is_kept_witness :
  let w' := snd (ensure_connected (env_with friendly) (JStr "PaxAgent")
                   silence registered_world) in
  cred_file w' = Holds identity
  ∧ credentials (self w') = identity
  ∧ registrations (log w') = registrations (log registered_world).
Proof.
  by apply (stored_identity_is_kept (env_with friendly) (JStr "PaxAgent")
              silence registered_world identity).
Defined.

End RestMore.

(* ===================================================================== *)
(** ** Further properties: the work cycle *)
(* ===================================================================== *)

#[global] Instance still_offline_preorder : PreOrder still_offline.
Proof.
  split.
  - by intros w.
  - intros a b c Hab Hbc Ha Qa. destruct (Hab Ha Qa) as (Hb & Qb & Eb).
    destruct (Hbc Hb Qb) as (Hc & Qc & Ec). repeat split; [done..|congruence].
Qed.

#[global] Instance log_grows_preorder : PreOrder log_grows.
Proof.
  split.
  - intros w. exists []. by rewrite app_nil_r.
  - intros a b c [l1 H1] [l2 H2]. exists (l1 ++ l2)%list.
    by rewrite H2, H1, app_assoc.
Qed.

Section WorkCycle.

Variable env : environment.
Variable str : json → string.

Implicit Types (w : world) (sched : nat → list event) (es : list event).

(** *** Reading a run that has returned *)

Lemma lift_ret_inv {S A} (r : outcome A) (v : A) (s s' : S) :
  lift r s = (Ret v, s') → r = Ret v ∧ s' = s.
Proof. unfold lift. by intros [= -> ->]. Qed.

Lemma ret_inv {S A} (u v : A) (s s' : S) :
  ret u s = (Ret v, s') → u = v ∧ s' = s.
Proof. unfold ret. by intros [= -> ->]. Qed.

Lemma read_inv {S A} (f : S → A) (v : A) (s s' : S) :
  read f s = (Ret v, s') → v = f s ∧ s' = s.
Proof. unfold read. by intros [= -> ->]. Qed.

Lemma preserves_run {S A} (R : relation S) (c : py S A) r s s' :
  preserves R c → c s = (r, s') → R s s'.
Proof. intros Hp E. specialize (Hp s). by rewrite E in Hp. Qed.

(** Takes the equation of a computation that returned apart, step by
    step, down to the operations of the class. *)
Ltac invert_run H :=
  lazymatch type of H with
  | lift _ _ = (Ret _, _) => apply lift_ret_inv in H as [H ->]
  | ret _ _ = (Ret _, _) => apply ret_inv in H as [H ->]; simplify_eq
  | read _ _ = (Ret _, _) => apply read_inv in H as [H ->]
  | bind _ _ _ = (Ret _, _) =>
      let E := fresh "E" in
      apply bind_ret_inv in H as (? & ? & E & H); invert_run E; invert_run H
  | (if ?b then _ else _) _ = (Ret _, _) =>
      let B := fresh "B" in destruct b eqn:B; invert_run H
  | match ?x with Some _ => _ | None => _ end _ = (Ret _, _) =>
      let B := fresh "B" in destruct x eqn:B; invert_run H
  | _ => idtac
  end.

Lemma endpoints_app l1 l2 :
  endpoints (l1 ++ l2)%list = (endpoints l1 ++ endpoints l2)%list.
Proof. unfold endpoints. by rewrite omap_app. Qed.

Lemma sent_frames_app l1 l2 :
  sent_frames (l1 ++ l2)%list = (sent_frames l1 ++ sent_frames l2)%list.
Proof. unfold sent_frames. by rewrite omap_app. Qed.

(** *** A request and the events during it *)

Lemma occur_all_run es w : occur_all es w = (Ret tt, snd (occur_all es w)).
Proof.
  rewrite (surjective_pairing (occur_all es w)) at 1.
  by rewrite occur_all_returns.
Qed.

(** The request is logged, the events take place, and the answer is the
    one the server gives to what it has seen before the request. *)
Lemma api_request_during_eq es ep mt d w :
  api_request_during env es ep mt d w =
    match bearer_of (credentials (self w)) with
    | Raise e => (Raise e, w)
    | Ret a =>
        (answer (transport env (log w) (Request ep mt a (body_of d))),
         snd (occur_all es (emit (Requested (Request ep mt a (body_of d))) w)))
    end.
Proof.
  unfold api_request_during, bearer_of. rewrite bind_read.
  destruct (truthy (credentials (self w))).
  - unfold bind at 1. unfold bind at 1, lift at 1.
    destruct (get (credentials (self w)) "api_key" (JStr "")) as [key|e];
      [|done].
    unfold ret at 1. rewrite bind_read, bind_modify.
    fold (body_of d). unfold bind at 1. rewrite occur_all_run.
    by destruct (transport env (log w) _).
  - rewrite bind_ret, bind_read, bind_modify.
    fold (body_of d). unfold bind at 1. rewrite occur_all_run.
    by destruct (transport env (log w) _).
Qed.

(** Without events it is [api_request]. *)
Lemma api_request_during_quiet ep mt d w :
  api_request_during env [] ep mt d w = api_request env ep mt d w.
Proof. by rewrite api_request_during_eq, api_request_eq. Qed.

Lemma api_request_during_ret es ep mt d w j w' :
  api_request_during env es ep mt d w = (Ret j, w') →
  ∃ a, answer (transport env (log w) (Request ep mt a (body_of d))) = Ret j
       ∧ w' = snd (occur_all es
                     (emit (Requested (Request ep mt a (body_of d))) w)).
Proof.
  rewrite api_request_during_eq.
  destruct (bearer_of (credentials (self w))) as [a|e]; [|done].
  intros [= Hj <-]. by exists a.
Qed.

Lemma bind_ext {S A B} (c c' : py S A) (k k' : A → py S B) s :
  (∀ s, c s = c' s) → (∀ v s, k v s = k' v s) → bind c k s = bind c' k' s.
Proof.
  intros Hc Hk. unfold bind. rewrite Hc.
  destruct (c' s) as [[v|e] s']; [apply Hk|done].
Qed.

Ltac same_run :=
  repeat first
    [ reflexivity
    | apply api_request_during_quiet
    | apply bind_ext; intros
    | match goal with
      | |- (if ?b then _ else _) _ = _ => destruct b
      | |- match ?x with _ => _ end _ = _ => destruct x
      end ].

(** So are the operations built on it. *)
Lemma register_during_quiet name w :
  register_during env [] name w = register env name w.
Proof. unfold register_during, register. same_run. Qed.

Lemma authenticate_during_quiet w :
  authenticate_during env [] w = authenticate env w.
Proof. unfold authenticate_during, authenticate. same_run. Qed.

Lemma get_status_during_quiet w :
  get_status_during env [] w = get_status env w.
Proof. unfold get_status_during, get_status. same_run. Qed.

Lemma ensure_connected_during_quiet sched name w :
  ensure_connected_during env (fun _ => []) sched name w
  = ensure_connected env name sched w.
Proof.
  unfold ensure_connected_during, ensure_connected, complete_task_during,
    complete_task.
  repeat first
    [ reflexivity
    | apply api_request_during_quiet
    | apply register_during_quiet
    | apply authenticate_during_quiet
    | apply get_status_during_quiet
    | apply bind_ext; intros
    | match goal with
      | |- (if ?b then _ else _) _ = _ => destruct b
      | |- match ?x with _ => _ end _ = _ => destruct x
      end ].
Qed.

(** *** Without a running thread *)

Lemma occur_quiescent e w : quiescent w → snd (occur e w) = w.
Proof.
  intros Hq.
  assert (Ht : ∀ t, threads w !! t = None ∨ threads w !! t = Some Finished).
  { intros t. destruct (threads w !! t) as [st|] eqn:E; [|by left].
    right. by rewrite (proj1 (Forall_lookup _ _) Hq t st E). }
  destruct e as [t|t c]; run_event; by destruct (Ht t) as [-> | ->].
Qed.

Lemma occur_all_quiescent es w : quiescent w → snd (occur_all es w) = w.
Proof.
  induction es as [|e es IH]; intros Hq; [done|].
  by rewrite occur_all_cons, occur_quiescent, IH.
Qed.

Lemma occur_all_offline es : preserves still_offline (occur_all es).
Proof. intros w Hc Hq. by rewrite occur_all_quiescent. Qed.

Lemma api_request_during_offline es ep mt d :
  preserves still_offline (api_request_during env es ep mt d).
Proof.
  intros w Hc Hq. rewrite api_request_during_eq.
  destruct (bearer_of (credentials (self w))) as [a|e]; [|done].
  cbn [snd]. rewrite occur_all_quiescent by done.
  repeat split; [done..|].
  cbn [log emit]. rewrite sent_frames_app. apply app_nil_r.
Qed.

Ltac stay_offline :=
  repeat lazymatch goal with
    | |- preserves _ (ret _) => apply preserves_ret; [typeclasses eauto]
    | |- preserves _ (raise _) => apply preserves_raise; [typeclasses eauto]
    | |- preserves _ (lift _) => apply preserves_lift; [typeclasses eauto]
    | |- preserves _ (read _) => apply preserves_read; [typeclasses eauto]
    | |- preserves _ (modify _) => apply preserves_modify; by intros ? ? ?
    | |- preserves _ (api_request_during _ _ _ _ _) =>
        apply api_request_during_offline
    | |- preserves _ (occur_all _) => apply occur_all_offline
    | |- preserves _ (bind _ _) =>
        apply preserves_bind; [typeclasses eauto| |intros ?]
    | |- preserves _ (if ?b then _ else _) => destruct b
    | |- preserves _ (match ?x with _ => _ end) => destruct x
    end.




(** *** The REST requests of the work cycle *)

Lemma occur_trace e w :
  endpoints (log (snd (occur e w))) = endpoints (log w)
  ∧ log_grows w (snd (occur e w)).
Proof.
  unfold log_grows.
  destruct (occur_log e w) as [->|[(h & f & ->)|(h & _ & _ & ->)]].
  - split; [done|]. exists []. by rewrite app_nil_r.
  - rewrite endpoints_app. split; [apply app_nil_r|by eexists].
  - rewrite endpoints_app. split; [apply app_nil_r|by eexists].
Qed.

Lemma occur_all_trace es w :
  endpoints (log (snd (occur_all es w))) = endpoints (log w)
  ∧ log_grows w (snd (occur_all es w)).
Proof.
  revert w. induction es as [|e es IH]; intros w.
  - split; [done|reflexivity].
  - rewrite occur_all_cons.
    destruct (IH (snd (occur e w))) as [-> Hg], (occur_trace e w) as [-> Hg'].
    split; [done|by etrans].
Qed.

Lemma occur_all_step es w r w' :
  occur_all es w = (r, w') →
  endpoints (log w') = endpoints (log w) ∧ log_grows w w'.
Proof.
  intros E. pose proof (occur_all_trace es w) as H. by rewrite E in H.
Qed.

Lemma dispatch_step act w r w' :
  dispatch act w = (r, w') →
  endpoints (log w') = endpoints (log w) ∧ log_grows w w'.
Proof.
  destruct act; simpl;
    unfold move_to, interact_with, read_notices, accept_quest, celebrate,
      with_ws, ws_send;
    rewrite bind_read; (destruct (connected (self w)); cbn [negb];
      [|intros [= _ <-]; split; [done|reflexivity]]);
    rewrite bind_bind, bind_read; (destruct (ws (self w)) as [h|];
      [|intros [= _ <-]; split; [done|reflexivity]]);
    rewrite bind_bind, bind_read;
    (destruct (apps w !! h) as [[[|] kr]|];
      [|intros [= _ <-]; split; [done|reflexivity]..]);
    rewrite bind_modify; intros [= _ <-]; cbn [log emit];
    rewrite endpoints_app; (split; [apply app_nil_r|by eexists]).
Qed.

Lemma api_request_during_step es ep mt d w j w' :
  api_request_during env es ep mt d w = (Ret j, w') →
  endpoints (log w') = (endpoints (log w) ++ [ep])%list
  ∧ log_grows w w'
  ∧ ∃ a l,
      answer (transport env (log w) (Request ep mt a (body_of d))) = Ret j
      ∧ log w' = (log w ++ Requested (Request ep mt a (body_of d)) :: l)%list.
Proof.
  intros (a & Hj & ->)%api_request_during_ret.
  destruct (occur_all_trace es
              (emit (Requested (Request ep mt a (body_of d))) w))
    as [He [l Hl]].
  cbn [log emit] in He, Hl. rewrite endpoints_app in He.
  rewrite <- app_assoc in Hl. split; [exact He|].
  split; [by eexists|]. by exists a, l.
Qed.

Lemma get_status_during_step es w j w' :
  get_status_during env es w = (Ret j, w') →
  endpoints (log w')
  = (endpoints (log w) ++ ["/api/world/bot/status"])%list
  ∧ log_grows w w'.
Proof.
  unfold get_status_during. intros H.
  apply bind_ret_inv in H as (result & w0 & Hreq & H).
  apply api_request_during_step in Hreq as (He & Hg & _).
  assert (Hlog : log w' = log w0).
  { eapply (preserves_run (fun a b => log b = log a)) in H; [done|].
    unfold update_self.
    assert (PreOrder (fun a b : world => log b = log a)).
    { split; [by intros ?|intros ? ? ? ? ?; congruence]. }
    preserve_steps; apply preserves_modify; by intros ?. }
  split; [by rewrite Hlog|]. destruct Hg as [l Hl]. exists l. congruence.
Qed.

Lemma selected_quest_intro w x0 x9 w' auth l quests qs quest :
  log_grows w x0 →
  log x9 = (log x0 ++ Requested (Request "/api/world/quests" "GET" auth None)
                        :: l)%list →
  log_grows x9 w' →
  answer (transport env (log x0) (Request "/api/world/quests" "GET" auth None))
  = Ret quests →
  get quests "quests" JNull = Ret qs →
  first_item qs = Some (Ret quest) →
  selected_quest env (log w) (log w') quest.
Proof.
  intros [before Hb] Hq [later Hl] Ha Hqs Hf.
  exists before, auth, (l ++ later)%list, quests, qs. cbv zeta.
  split; [|by rewrite <- Hb].
  rewrite Hl, Hq, Hb, <- !app_assoc. done.
Qed.

Ltac run_facts :=
  unfold complete_task_during, get_quests, get_stall_instructions in *;
  repeat match goal with
    | H : get_status_during _ _ _ = _ |- _ =>
        apply get_status_during_step in H as (? & ?)
    | H : api_request_during _ _ _ _ _ _ = _ |- _ =>
        apply api_request_during_step in H as (? & ? & ? & ? & ? & ?)
    | H : move_to ?x ?y _ = _ |- _ =>
        apply (dispatch_step (Move x y)) in H as (? & ?)
    | H : interact_with ?s ?b _ = _ |- _ =>
        apply (dispatch_step (Interact s b)) in H as (? & ?)
    | H : occur_all _ _ = _ |- _ => apply occur_all_step in H as (? & ?)
    end.

Ltac chain_endpoints :=
  repeat match goal with
    | H : endpoints (log _) = _ |- _ => rewrite H; clear H
    end;
  rewrite <- ?app_assoc; reflexivity.

Ltac grow :=
  first [ reflexivity | eassumption | etrans; [eassumption|grow] ].

(** X23.  The message [do_work_cycle] returns tells which REST requests it
    made, whatever happens on the live channel meanwhile.  Whenever it
    returns, it has first asked for the status.  After that it made no
    request if it reports "Failed to get status", two task completions if
    it reports the daily tasks, and the request for the quest listing
    (without a stall filter) if it reports "No quests available".  If it
    reports "Ready to work on", it asked for the quest listing and then
    for the instructions of one stall: the [stall] of the first quest in
    the server's answer to that listing, the quest whose [title] is in
    the message. *)
Theorem do_work_cycle_requests sched w b m w' :
  do_work_cycle env str sched w = (Ret (b, m), w') →
  ∃ made,
    endpoints (log w')
    = (endpoints (log w) ++ "/api/world/bot/status" :: made)%list
    ∧ ((b = false ∧ m = [L "Failed to get status"] ∧ made = [])
       ∨ (b = true
          ∧ m = [L "Completed daily tasks (working toward CITIZEN)"]
          ∧ made = ["/api/world/task"; "/api/world/task"])
       ∨ (b = false ∧ m = [L "No quests available"]
          ∧ made = ["/api/world/quests"])
       ∨ (∃ quest title stall,
            selected_quest env (log w) (log w') quest
            ∧ getitem quest "title" = Ret title
            ∧ getitem quest "stall" = Ret stall
            ∧ b = true ∧ m = [L "Ready to work on: "; V title]
            ∧ made = ["/api/world/quests";
                      "/api/world/stall/" ++ str stall])).
Proof.
  intros H. unfold do_work_cycle in H.
  invert_run H; run_facts; (eexists; split; [chain_endpoints|]);
    first [ by left | by right; left | by right; right; left | idtac ].
  all: do 3 right; eexists _, _, _;
    (split; [|split; [|split; [|by repeat split]]]); [|eassumption..].
  all: match goal with
       | Hg : log_grows ?w0 ?x0,
         Hq : log ?x9 = (log ?x0 ++ Requested _ :: _)%list,
         Ha : answer (transport env (log ?x0) _) = Ret _
         |- selected_quest _ (log ?w0) _ _ =>
           eapply (selected_quest_intro w0 x0 x9 _ _ _ _ _ _ Hg);
             [exact Hq|grow|exact Ha|eassumption..]
       end.
Qed.

(** *** The frames of the work cycle *)

Lemma api_request_quiet_step ep mt d w j w' :
  api_request_during env [] ep mt d w = (Ret j, w') →
  ∃ a, answer (transport env (log w) (Request ep mt a (body_of d))) = Ret j
       ∧ w' = emit (Requested (Request ep mt a (body_of d))) w.
Proof. by intros (a & Hj & ->)%api_request_during_ret; exists a. Qed.

Lemma get_status_quiet_step w j w' :
  get_status_during env [] w = (Ret j, w') →
  ∃ req, log w' = (log w ++ [Requested req])%list
         ∧ connected (self w') = connected (self w)
         ∧ ws (self w') = ws (self w)
         ∧ apps w' = apps w.
Proof.
  unfold get_status_during. intros H.
  apply bind_ret_inv in H as (result & w0 & Hreq & H).
  apply api_request_quiet_step in Hreq as (a & _ & ->).
  eexists.
  eapply (preserves_run
            (fun u v => log v = log u ∧ connected (self v) = connected (self u)
                        ∧ ws (self v) = ws (self u) ∧ apps v = apps u)) in H.
  - exact H.
  - assert (PreOrder (fun u v : world =>
              log v = log u ∧ connected (self v) = connected (self u)
              ∧ ws (self v) = ws (self u) ∧ apps v = apps u)).
    { split; [by intros ?|].
      intros ? ? ? (? & ? & ? & ?) (? & ? & ? & ?).
      repeat split; congruence. }
    unfold update_self. preserve_steps; apply preserves_modify; by intros ?.
Qed.

Lemma dispatch_run act w h kr r w1 :
  connected (self w) = true →
  ws (self w) = Some h →
  apps w !! h = Some (WsApp true kr) →
  dispatch act w = (r, w1) →
  w1 = emit (Sent h (frame_of act)) w.
Proof.
  intros Hc Hws Happ E.
  destruct (dispatch_connected act w h kr Hc Hws Happ) as (m & Em).
  rewrite Em in E. by injection E.
Qed.

(** X24.  On a connected session whose channel has its socket attached,
    when no background event occurs during the cycle, a work cycle that
    reports "Ready to work on" has sent exactly two frames: a MOVE to the
    position the table [stall_positions] gives for the [stall] of the
    first quest in the server's answer to the quest listing ((10, 10) for
    a stall the table does not list), then an INTERACT with that stall.
    A work cycle that reports anything else has sent no frame. *)
Theorem do_work_cycle_visits_stall sched w h kr b m w' :
  connected (self w) = true →
  ws (self w) = Some h →
  apps w !! h = Some (WsApp true kr) →
  (∀ i, sched i = []) →
  do_work_cycle env str sched w = (Ret (b, m), w') →
  (sent_frames (log w') = sent_frames (log w)
   ∧ ∀ title, m ≠ [L "Ready to work on: "; V title])
  ∨ ∃ quest title stall x y,
      selected_quest env (log w) (log w') quest
      ∧ getitem quest "title" = Ret title
      ∧ getitem quest "stall" = Ret stall
      ∧ m = [L "Ready to work on: "; V title]
      ∧ stall_position stall = Ret (x, y)
      ∧ sent_frames (log w')
        = (sent_frames (log w)
           ++ [frame_of (Move (JInt x) (JInt y));
               frame_of (Interact stall JNull)])%list.
Proof.
  intros Hc Hws Happ Hs H. unfold do_work_cycle in H.
  rewrite (Hs 0%nat), (Hs 1%nat), (Hs 2%nat), (Hs 3%nat), (Hs 4%nat) in H.
  invert_run H;
    unfold complete_task_during, get_quests, get_stall_instructions in *;
    repeat match goal with
      | H : get_status_during _ _ _ = _ |- _ =>
          apply get_status_quiet_step in H as (? & ? & ? & ? & ?)
      | H : api_request_during _ _ _ _ _ _ = _ |- _ =>
          apply api_request_quiet_step in H as (? & ? & ->)
      | H : occur_all [] _ = _ |- _ => apply ret_inv in H as [_ ->]
      | H : move_to ?a ?b ?w0 = _ |- _ =>
          apply (dispatch_run (Move a b) w0 h kr) in H;
            [|simpl; congruence..]; subst
      | H : interact_with ?a ?b ?w0 = _ |- _ =>
          apply (dispatch_run (Interact a b) w0 h kr) in H;
            [|simpl; congruence..]; subst
      end.
  all: try (left; split; [|by intros ?];
            cbn [log emit];
            match goal with Hl : log _ = _ |- _ => rewrite Hl end;
            rewrite !sent_frames_app; simpl; by rewrite !app_nil_r).
  all: try (exfalso; simpl in *; congruence).
  all: right;
    match goal with
    | Hl : log ?x0 = (log _ ++ [Requested ?r0])%list,
      Ha : answer (transport env (log ?x0) (Request _ _ ?auth _)) = Ret ?quests,
      Hq : get ?quests "quests" JNull = Ret ?qs,
      Hf : first_item ?qs = Some (Ret ?quest),
      Hp : stall_position _ = Ret ?p
      |- context [V ?title] =>
        match goal with
        | |- context [Interact ?stall JNull] =>
            exists quest, title, stall, (fst p), (snd p);
            split; [exists [Requested r0], auth; eexists; exists quests, qs;
                    cbv zeta; split; [|rewrite <- Hl; by repeat split];
                    cbn [log emit]; rewrite Hl, <- !app_assoc; reflexivity|];
            (split; [done|]); (split; [done|]); (split; [done|]);
            split; [rewrite <- surjective_pairing; congruence|];
            cbn [log emit]; rewrite Hl, !sent_frames_app; simpl;
            by rewrite !app_nil_r, <- !app_assoc
        end
    end.
Qed.

(** *** The heartbeat entry point *)

Lemma load_credentials_offline : preserves still_offline load_credentials.
Proof. unfold load_credentials, update_self. stay_offline. Qed.

Lemma register_during_offline es name :
  preserves still_offline (register_during env es name).
Proof.
  unfold register_during, save_credentials, update_self. stay_offline.
Qed.

Lemma authenticate_during_offline es :
  preserves still_offline (authenticate_during env es).
Proof. unfold authenticate_during, update_self. stay_offline. Qed.

(** A bootstrap that fails has not come to the live channel. *)
Lemma ensure_connected_during_failure rest sched name w m w1 :
  ensure_connected_during env rest sched name w = (Ret (false, m), w1) →
  still_offline w w1.
Proof.
  intros H. unfold ensure_connected_during in H.
  invert_run H;
    repeat match goal with
      | H : load_credentials _ = _ |- _ =>
          eapply (preserves_run still_offline) in H;
            [|apply load_credentials_offline]
      | H : register_during _ _ _ _ = _ |- _ =>
          eapply (preserves_run still_offline) in H;
            [|apply register_during_offline]
      | H : authenticate_during _ _ _ = _ |- _ =>
          eapply (preserves_run still_offline) in H;
            [|apply authenticate_during_offline]
      end;
    grow.
Qed.

(** X25.  Started on an agent that is not connected and has no thread
    running the channel (a new agent, as [main] creates it),
    [check_and_work] never returns with the session marked connected,
    whatever the server answers and whatever happens on the live channel
    during the bootstrap and the work cycle: a failed bootstrap has not
    come to open the channel, and after the work cycle the session is
    disconnected if it was connected. *)
Theorem check_and_work_ends_disconnected rest boot work w m w' :
  connected (self w) = false →
  quiescent w →
  check_and_work env str rest boot work w = (Ret m, w') →
  connected (self w') = false.
Proof.
  intros Hc Hq H. unfold check_and_work in H.
  apply bind_ret_inv in H as ([ok msg] & w1 & Hb & H).
  cbn [fst snd] in H. destruct ok; cbn [negb] in H.
  - invert_run H.
    + match goal with
      | E : disconnect_websocket ?v = (_, _) |- _ =>
          pose proof (disconnect_websocket_state v) as (_ & Hd & _);
          by rewrite E in Hd
      end.
    + done.
  - apply ret_inv in H as [_ ->].
    by destruct (ensure_connected_during_failure _ _ _ _ _ _ Hb Hc Hq).
Qed.

End WorkCycle.


Lemma do_work_cycle_requests_witness :
  ∃ made,
    endpoints (log (snd (do_work_cycle (env_with with_quest) str_of silence
                           registered_world)))
    = (endpoints (log registered_world)
       ++ "/api/world/bot/status" :: made)%list
    ∧ ((true = false
        ∧ [L "Ready to work on: "; V (JStr "Index the log")]
          = [L "Failed to get status"] ∧ made = [])
       ∨ (true = true
          ∧ [L "Ready to work on: "; V (JStr "Index the log")]
            = [L "Completed daily tasks (working toward CITIZEN)"]
          ∧ made = ["/api/world/task"; "/api/world/task"])
       ∨ (true = false
          ∧ [L "Ready to work on: "; V (JStr "Index the log")]
            = [L "No quests available"]
          ∧ made = ["/api/world/quests"])
       ∨ (∃ quest title stall,
            selected_quest (env_with with_quest) (log registered_world)
              (log (snd (do_work_cycle (env_with with_quest) str_of silence
                           registered_world))) quest
            ∧ getitem quest "title" = Ret title
            ∧ getitem quest "stall" = Ret stall
            ∧ true = true
            ∧ [L "Ready to work on: "; V (JStr "Index the log")]
              = [L "Ready to work on: "; V title]
            ∧ made = ["/api/world/quests";
                      "/api/world/stall/" ++ str_of stall])).
Proof.
  assert (E : do_work_cycle (env_with with_quest) str_of silence
                registered_world
              = (Ret (true, [L "Ready to work on: ";
                             V (JStr "Index the log")]),
                 snd (do_work_cycle (env_with with_quest) str_of silence
                        registered_world))).
  { rewrite (surjective_pairing (do_work_cycle _ _ _ _)) at 1.
    apply (f_equal2 pair); [vm_compute; reflexivity|reflexivity]. }
  exact (do_work_cycle_requests (env_with with_quest) str_of silence
           registered_world _ _ _ E).
Defined.

Lemma do_work_cycle_visits_stall_witness :
  (sent_frames (log (snd (do_work_cycle (env_with with_quest) str_of silence
                            established_world)))
   = sent_frames (log established_world)
   ∧ ∀ title, [L "Ready to work on: "; V (JStr "Index the log")]
              ≠ [L "Ready to work on: "; V title])
  ∨ ∃ quest title stall x y,
      selected_quest (env_with with_quest) (log established_world)
        (log (snd (do_work_cycle (env_with with_quest) str_of silence
                     established_world))) quest
      ∧ getitem quest "title" = Ret title
      ∧ getitem quest "stall" = Ret stall
      ∧ [L "Ready to work on: "; V (JStr "Index the log")]
        = [L "Ready to work on: "; V title]
      ∧ stall_position stall = Ret (x, y)
      ∧ sent_frames (log (snd (do_work_cycle (env_with with_quest) str_of
                                 silence established_world)))
        = (sent_frames (log established_world)
           ++ [frame_of (Move (JInt x) (JInt y));
               frame_of (Interact stall JNull)])%list.
Proof.
  assert (Hc : connected (self established_world) = true)
    by (vm_compute; reflexivity).
  assert (Hws : ws (self established_world) = Some 0%nat)
    by (vm_compute; reflexivity).
  assert (Happ : apps established_world !! 0%nat = Some (WsApp true true))
    by (vm_compute; reflexivity).
  assert (E : do_work_cycle (env_with with_quest) str_of silence
                established_world
              = (Ret (true, [L "Ready to work on: ";
                             V (JStr "Index the log")]),
                 snd (do_work_cycle (env_with with_quest) str_of silence
                        established_world))).
  { rewrite (surjective_pairing (do_work_cycle _ _ _ _)) at 1.
    apply (f_equal2 pair); [vm_compute; reflexivity|reflexivity]. }
  exact (do_work_cycle_visits_stall (env_with with_quest) str_of silence
           established_world 0%nat true _ _ _ Hc Hws Happ
           (fun _ => eq_refl) E).
Defined.

Lemma check_and_work_ends_disconnected_witness :
  connected (self (snd (check_and_work (env_with with_quest) str_of silence
                          prompt_handshake silence registered_world)))
  = false.
Proof.
  assert (E : check_and_work (env_with with_quest) str_of silence
                prompt_handshake silence registered_world
              = (Ret [L "✅ "; L "Ready to work on: ";
                      V (JStr "Index the log")],
                 snd (check_and_work (env_with with_quest) str_of silence
                        prompt_handshake silence registered_world))).
  { rewrite (surjective_pairing (check_and_work _ _ _ _ _ _)) at 1.
    apply (f_equal2 pair); [vm_compute; reflexivity|reflexivity]. }
  exact (check_and_work_ends_disconnected (env_with with_quest) str_of
           silence prompt_handshake silence registered_world _ _ eq_refl
           (Forall_nil_2 _) E).
Defined.
